(** * Attention core of the latent-diffusion model: [ldm/modules/attention.py]

    A shallow embedding of the attention module and the properties its
    specification states about it.

    Tensors are rectangular nested lists over an abstract element type [R];
    the tensor library is a class [Torch R] of element arithmetic and of the
    kernels the Python code only calls (softmax, GELU, the normalisations,
    dropout, the fused attention kernel).  Python exceptions are the [Raise]
    results of an error monad.  A tensor with an empty axis is the empty list
    and so carries no extents for the axes below it. *)

From stdpp Require Import base option list strings gmap pretty.
From Stdlib Require Import ZArith Lia.

Set Default Proof Using "Type".
Local Open Scope string_scope.
Local Open Scope nat_scope.

(** ** Exceptions and the error monad *)

Inductive exn : Set :=
  | RuntimeError          (* torch: operand shapes do not fit *)
  | EinopsError           (* einops.rearrange / repeat: axes do not factor *)
  | IndexError            (* list index out of range *)
  | KeyError              (* missing dictionary key *)
  | AssertionError
  | TypeError             (* unexpected keyword, subscript of None *)
  | ValueError            (* argument rejected: channels and groups of a norm *)
  | NameError             (* name bound by a failed import *)
  | NotImplementedError
  | ZeroDivisionError.    (* zero raised to a negative power *)

Inductive result (A : Type) : Type :=
  | Ok (a : A)
  | Raise (e : exn).
Arguments Ok {A} a.
Arguments Raise {A} e.

Global Instance result_ret : MRet result := @Ok.
Global Instance result_bind : MBind result := λ A B f m,
  match m with Ok a => f a | Raise e => Raise e end.
Global Instance result_fmap : FMap result := λ A B f m,
  match m with Ok a => Ok (f a) | Raise e => Raise e end.

Definition require (b : bool) (e : exn) : result unit :=
  if b then Ok tt else Raise e.

Definition returns {A} (m : result A) : Prop := ∃ a, m = Ok a.

(** [for x in xs: ys.append(f x)] with the first exception propagating. *)
Fixpoint forM {A B} (f : A → result B) (xs : list A) : result (list B) :=
  match xs with
  | [] => Ok []
  | x :: xs' => y ← f x; ys ← forM f xs'; Ok (y :: ys)
  end.

(** ** Tensors *)

Abbreviation vec R := (list R) (only parsing).
Abbreviation mat R := (list (list R)) (only parsing).
Abbreviation tensor3 R := (list (list (list R))) (only parsing).
Abbreviation tensor4 R := (list (list (list (list R)))) (only parsing).

(** The element type and the kernels supplied by torch and xformers.  The
    kernels are functions: the random choices of dropout in training mode are
    not modelled, a given row is always mapped to the same row. *)
Class Torch (R : Type) : Type := {
  r0 : R;                               (* 0. *)
  r1 : R;                               (* 1. *)
  radd : R → R → R;
  rsub : R → R → R;
  rmul : R → R → R;
  pow_neg_half : nat → R;               (* n ** -0.5 *)
  max_neg_value : R;                    (* -torch.finfo(sim.dtype).max *)
  to_float : R → R;                     (* Tensor.float() on one element *)
  _ATTN_PRECISION : string;             (* os.environ.get("ATTN_PRECISION", "fp32") *)
  F_softmax : vec R → vec R;            (* softmax along the last axis *)
  F_gelu : R → R;
  F_layer_norm : vec R → vec R → vec R → vec R;      (* weight, bias, row *)
  F_group_norm : nat → vec R → vec R → tensor3 R → tensor3 R;
                                        (* groups, weight, bias, one [C,H,W] sample *)
  F_dropout : R → vec R → vec R;        (* p, row *)
  XFORMERS_IS_AVAILBLE : bool;
  memory_efficient_attention : tensor3 R → tensor3 R → tensor3 R → result (tensor3 R)
}.

Section tensor_ops.
Context {R : Type} `{Torch R}.

Definition tabulate {A} (n : nat) (f : nat → A) : list A := f <$> seq 0 n.

(** Extents as [x.shape] reads them. *)
Definition dim0 {A} (t : list A) : nat := length t.
Definition dim1 {A} (t : list (list A)) : nat := length (default [] (head t)).
Definition dim2 {A} (t : list (list (list A))) : nat := dim1 (default [] (head t)).
Definition dim3 {A} (t : list (list (list (list A)))) : nat := dim2 (default [] (head t)).

(** Broadcasting of one axis: equal extents pair up, an extent of one is
    repeated, anything else is a shape error. *)
Definition broadcast2 {A B C} (f : A → B → result C)
    (xs : list A) (ys : list B) : result (list C) :=
  if decide (length xs = length ys) then forM (λ p, f p.1 p.2) (zip xs ys)
  else match xs, ys with
       | [x], _ => forM (f x) ys
       | _, [y] => forM (λ x, f x y) xs
       | _, _ => Raise RuntimeError
       end.

Definition ew1 (op : R → R → R) : vec R → vec R → result (vec R) :=
  broadcast2 (λ a b, Ok (op a b)).
Definition ew2 (op : R → R → R) : mat R → mat R → result (mat R) :=
  broadcast2 (ew1 op).
Definition ew3 (op : R → R → R) : tensor3 R → tensor3 R → result (tensor3 R) :=
  broadcast2 (ew2 op).
Definition ew4 (op : R → R → R) : tensor4 R → tensor4 R → result (tensor4 R) :=
  broadcast2 (ew3 op).

(** [t * s] and [t *= s] for a Python scalar [s]. *)
Definition map3 {A B} (f : A → B) (t : tensor3 A) : tensor3 B :=
  (λ m : mat A, (λ row : vec A, f <$> row) <$> m) <$> t.
Definition muls3 (t : tensor3 R) (s : R) : tensor3 R := map3 (λ a, rmul a s) t.

(** Sum of products along one (broadcast) axis.  The kernel's order of
    summation is not fixed by the source; the entries are added from the
    right, starting from zero. *)
Definition vsum (v : vec R) : R := foldr radd r0 v.
Definition dot (a b : vec R) : result R := vsum <$> ew1 rmul a b.

(** [torch.cat([t] * b, dim=0)] *)
Definition cat_repeat {A} (b : nat) (t : list A) : result (list A) :=
  match b with
  | 0 => Raise RuntimeError
  | _ => Ok (mjoin (replicate b t))
  end.

(** [rearrange(t, 'b n (h d) -> (b h) n d', h=h)] *)
Definition split_heads (h : nat) (t : tensor3 R) : result (tensor3 R) :=
  let c := dim2 t in
  require (bool_decide (h ≠ 0 ∧ c `mod` h = 0)) EinopsError;;
  let d := c `div` h in
  Ok (t ≫= λ m : mat R,
        tabulate h (λ i, (λ row : vec R, take d (drop (i * d) row)) <$> m)).

Fixpoint chunks {A} (fuel n : nat) (l : list A) : list (list A) :=
  match fuel with
  | 0 => []
  | S fuel' => take n l :: chunks fuel' n (drop n l)
  end.

(** [rearrange(t, '(b h) n d -> b n (h d)', h=h)] *)
Definition merge_heads (h : nat) (t : tensor3 R) : result (tensor3 R) :=
  require (bool_decide (h ≠ 0 ∧ length t `mod` h = 0)) EinopsError;;
  let n := dim1 t in
  Ok ((λ grp : tensor3 R,
         tabulate n (λ i, grp ≫= λ m : mat R, default [] (m !! i)))
        <$> chunks (length t `div` h) h t).

(** [einsum('b i d, b j d -> b i j', q, k)] *)
Definition einsum_bid_bjd (q k : tensor3 R) : result (tensor3 R) :=
  broadcast2 (λ qm km, forM (λ qi, forM (λ kj, dot qi kj) km) qm) q k.

(** [einsum('b i j, b j d -> b i d', a, v)] *)
Definition einsum_bij_bjd (a v : tensor3 R) : result (tensor3 R) :=
  broadcast2 (λ am vm,
    let d := dim1 vm in
    forM (λ ai, forM (λ c, dot ai ((λ vj : vec R, default r0 (vj !! c)) <$> vm))
                     (seq 0 d)) am)
    a v.

(** [repeat(mask, 'b j -> (b h) () j', h=h)] *)
Definition repeat_mask (h : nat) (mask : list (list bool)) : list (list (list bool)) :=
  mask ≫= λ row : list bool, replicate h [row].

(** [sim.masked_fill_(~mask, value)]: the mask is broadcast to the shape of
    [sim], never the other way round. *)
Definition expand_to {A B C} (f : A → B → result C)
    (xs : list A) (ms : list B) : result (list C) :=
  if decide (length ms = length xs) then forM (λ p, f p.1 p.2) (zip xs ms)
  else match ms with
       | [m] => forM (λ x, f x m) xs
       | _ => Raise RuntimeError
       end.

Definition masked_fill_not (sim : tensor3 R) (mask : list (list (list bool)))
    (value : R) : result (tensor3 R) :=
  expand_to (expand_to (expand_to (λ s (keep : bool), Ok (if keep then s else value))))
    sim mask.

(** ['c h w -> (h w) c'] on one sample, and its inverse for given [h], [w]. *)
Definition pixel (s : tensor3 R) (y x : nat) : vec R :=
  (λ plane : mat R, default r0 (plane !! y ≫= (.!! x))) <$> s.

Definition grid_to_tokens (s : tensor3 R) : mat R :=
  seq 0 (dim1 s) ≫= λ y : nat, tabulate (dim2 s) (λ x, pixel s y x).

Definition tokens_to_grid (h w : nat) (m : mat R) : result (tensor3 R) :=
  require (bool_decide (length m = h * w)) EinopsError;;
  Ok (tabulate (dim1 m) (λ c,
        tabulate h (λ y, tabulate w (λ x, default r0 (m !! (y * w + x) ≫= (.!! c)))))).

(** [Tensor.reshape]: the elements in row-major order, cut again. *)
Definition flatten3 (t : tensor3 R) : vec R := mjoin (mjoin t).
Definition flatten4 (t : tensor4 R) : vec R := mjoin (mjoin (mjoin t)).

Definition reshape3 (a b c : nat) (flat : vec R) : result (tensor3 R) :=
  require (bool_decide (length flat = a * b * c)) RuntimeError;;
  Ok (chunks a b (chunks (a * b) c flat)).

Definition reshape4 (a b c d : nat) (flat : vec R) : result (tensor4 R) :=
  require (bool_decide (length flat = a * b * c * d)) RuntimeError;;
  Ok (chunks a b (chunks (a * b) c (chunks (a * b * c) d flat))).

(** [t.permute(0, 2, 1, 3)] *)
Definition permute_0213 (t : tensor4 R) : tensor4 R :=
  (λ m : tensor3 R,
     tabulate (dim1 m) (λ j, (λ row : mat R, default [] (row !! j)) <$> m)) <$> t.

(** [n ** -0.5] for a Python integer [n]: zero cannot be raised to a
    negative power. *)
Definition int_pow_neg_half (n : nat) : result R :=
  require (bool_decide (n ≠ 0)) ZeroDivisionError;;
  Ok (pow_neg_half n).

(** Parameters just constructed: filled by the initialiser of the layer. *)
Definition fresh_matrix (init : string → nat → nat → R) (name : string)
    (rows cols : nat) : mat R :=
  tabulate rows (λ j, tabulate cols (λ i, init name j i)).
Definition fresh_vector (init : string → nat → nat → R) (name : string)
    (n : nat) : vec R :=
  tabulate n (λ j, init name j 0).
End tensor_ops.

(** Python's [exists] and [default] helpers.  In this file the fallback of
    [default] is always a value, never a function to call. *)
Definition exists_ {A} (val : option A) : bool :=
  match val with Some _ => true | None => false end.
Definition default_ {A} (val : option A) (d : A) : A :=
  match val with Some v => v | None => d end.

(** A Python [dict] as the list of its items in insertion order, every key
    once.  [d[k] = v] replaces the value of a key that is there and leaves
    the key where it is, or adds the item at the end. *)
Definition dict_setitem {K V} `{EqDecision K} (d : list (K * V)) (k : K) (v : V)
    : list (K * V) :=
  if decide (k ∈ d.*1)
  then (λ kv : K * V, if decide (kv.1 = k) then (kv.1, v) else kv) <$> d
  else (d ++ [(k, v)])%list.

(** [uniq]: [{el: True for el in arr}.keys()], the keys in the order of the
    dictionary. *)
Definition uniq {A} `{EqDecision A} (arr : list A) : list A :=
  (foldl (λ d el, dict_setitem d el true) [] arr).*1.

(** [zero_module]: every parameter of the module is set to zero. *)
Class NNModule (M : Type) := { zero_parameters : M → M }.
Definition zero_module {M} `{NNModule M} (module : M) : M := zero_parameters module.

(** ** Layers of [torch.nn] *)

Module Linear.
Record t (R : Type) := mk {
  in_features : nat;
  out_features : nat;
  weight : mat R;                  (* [out_features, in_features] *)
  bias : option (vec R)
}.
Arguments mk {R}. Arguments in_features {R}. Arguments out_features {R}.
Arguments weight {R}. Arguments bias {R}.

Section defs.
Context {R : Type} `{Torch R}.

Definition __init__ (init : string → nat → nat → R) (name : string)
    (in_features out_features : nat) (bias : bool) : t R :=
  mk in_features out_features
     (fresh_matrix init (name +:+ ".weight") out_features in_features)
     (if bias then Some (fresh_vector init (name +:+ ".bias") out_features)
      else None).

Definition forward_row (self : t R) (x : vec R) : result (vec R) :=
  require (bool_decide (length x = in_features self)) RuntimeError;;
  y ← forM (λ w, dot x w) (weight self);
  match bias self with
  | Some b => ew1 radd y b
  | None => Ok y
  end.

Definition forward (self : t R) (x : tensor3 R) : result (tensor3 R) :=
  forM (forM (forward_row self)) x.

Global Instance module : NNModule (t R) := {|
  zero_parameters self :=
    mk (in_features self) (out_features self)
       (map (map (λ _, r0)) (weight self))
       (map (λ _, r0) <$> bias self)
|}.
End defs.
End Linear.

Module Conv2d.
(** Every convolution of the file has [kernel_size=1, stride=1, padding=0]. *)
Record t (R : Type) := mk {
  in_channels : nat;
  out_channels : nat;
  weight : mat R;                  (* [out_channels, in_channels, 1, 1] *)
  bias : vec R
}.
Arguments mk {R}. Arguments in_channels {R}. Arguments out_channels {R}.
Arguments weight {R}. Arguments bias {R}.

Section defs.
Context {R : Type} `{Torch R}.

Definition __init__ (init : string → nat → nat → R) (name : string)
    (in_channels out_channels : nat) : t R :=
  mk in_channels out_channels
     (fresh_matrix init (name +:+ ".weight") out_channels in_channels)
     (fresh_vector init (name +:+ ".bias") out_channels).

Definition forward_sample (self : t R) (s : tensor3 R) : result (tensor3 R) :=
  require (bool_decide (length s = in_channels self)) RuntimeError;;
  forM (λ wb : vec R * R,
          forM (λ y, forM (λ x, o ← dot (pixel s y x) wb.1; Ok (radd o wb.2))
                          (seq 0 (dim2 s)))
               (seq 0 (dim1 s)))
       (zip (weight self) (bias self)).

Definition forward (self : t R) (x : tensor4 R) : result (tensor4 R) :=
  forM (forward_sample self) x.

Global Instance module : NNModule (t R) := {|
  zero_parameters self :=
    mk (in_channels self) (out_channels self)
       (map (map (λ _, r0)) (weight self))
       (map (λ _, r0) (bias self))
|}.
End defs.
End Conv2d.

Module LayerNorm.
Record t (R : Type) := mk { normalized_shape : nat; weight : vec R; bias : vec R }.
Arguments mk {R}. Arguments normalized_shape {R}.
Arguments weight {R}. Arguments bias {R}.

Section defs.
Context {R : Type} `{Torch R}.

Definition __init__ (dim : nat) : t R :=
  mk dim (replicate dim r1) (replicate dim r0).

Definition forward (self : t R) (x : tensor3 R) : result (tensor3 R) :=
  forM (forM (λ row : vec R,
    require (bool_decide (length row = normalized_shape self)) RuntimeError;;
    Ok (F_layer_norm (weight self) (bias self) row))) x.
End defs.
End LayerNorm.

Module GroupNorm.
Record t (R : Type) := mk {
  num_groups : nat; num_channels : nat; weight : vec R; bias : vec R
}.
Arguments mk {R}. Arguments num_groups {R}. Arguments num_channels {R}.
Arguments weight {R}. Arguments bias {R}.

Section defs.
Context {R : Type} `{Torch R}.

Definition __init__ (num_groups num_channels : nat) : result (t R) :=
  require (bool_decide (num_channels `mod` num_groups = 0)) ValueError;;
  Ok (mk num_groups num_channels
         (replicate num_channels r1) (replicate num_channels r0)).

(** [F.group_norm] first runs
    [_verify_batch_size([input.size(0) * input.size(1) // num_groups, num_groups] + list(input.size()[2:]))],
    which refuses an input with a single value per group,
    [(b * c // num_groups) * h * w == 1], with [ValueError]; the kernel then
    refuses a number of channels other than that of the layer with
    [RuntimeError].  The number of groups is 32 throughout this file. *)
Definition values_per_group (self : t R) (x : tensor4 R) : nat :=
  (dim0 x * dim1 x) `div` num_groups self * dim2 x * dim3 x.

Definition forward (self : t R) (x : tensor4 R) : result (tensor4 R) :=
  require (negb (bool_decide (values_per_group self x = 1))) ValueError;;
  forM (λ s : tensor3 R,
    require (bool_decide (length s = num_channels self)) RuntimeError;;
    Ok (F_group_norm (num_groups self) (weight self) (bias self) s)) x.
End defs.
End GroupNorm.

Module Dropout.
Record t (R : Type) := mk { p : R }.
Arguments mk {R}. Arguments p {R}.

Section defs.
Context {R : Type} `{Torch R}.
Definition forward (self : t R) (x : tensor3 R) : tensor3 R :=
  map (map (F_dropout (p self))) x.
End defs.
End Dropout.

(** ** Feed-forward *)

Module GEGLU.
Record t (R : Type) := mk { proj : Linear.t R }.
Arguments mk {R}. Arguments proj {R}.

Section defs.
Context {R : Type} `{Torch R}.

Definition __init__ (init : string → nat → nat → R) (name : string)
    (dim_in dim_out : nat) : t R :=
  mk (Linear.__init__ init (name +:+ ".proj") dim_in (dim_out * 2) true).

(** [x, gate = self.proj(x).chunk(2, dim=-1); return x * F.gelu(gate)].
    The projection has an even number of outputs, so the chunks are halves. *)
Definition forward (self : t R) (x : tensor3 R) : result (tensor3 R) :=
  y ← Linear.forward (proj self) x;
  let half := (dim2 y + 1) `div` 2 in
  let x := map (map (take half)) y in
  let gate := map (map (drop half)) y in
  ew3 rmul x (map3 F_gelu gate).
End defs.
End GEGLU.

Module FeedForward.
Inductive project_in (R : Type) :=
  | LinearGELU (lin : Linear.t R)        (* nn.Sequential(nn.Linear, nn.GELU()) *)
  | Gated (g : GEGLU.t R).
Arguments LinearGELU {R}. Arguments Gated {R}.

(** [self.net = nn.Sequential(project_in, nn.Dropout, nn.Linear)] *)
Record t (R : Type) := mk {
  net_0 : project_in R;
  net_1 : Dropout.t R;
  net_2 : Linear.t R
}.
Arguments mk {R}. Arguments net_0 {R}. Arguments net_1 {R}. Arguments net_2 {R}.

Section defs.
Context {R : Type} `{Torch R}.

Definition __init__ (init : string → nat → nat → R) (name : string)
    (dim : nat) (dim_out : option nat) (mult : nat) (glu : bool) (dropout : R) : t R :=
  let inner_dim := dim * mult in
  let dim_out := default_ dim_out dim in
  let project_in :=
    if negb glu then LinearGELU (Linear.__init__ init (name +:+ ".net.0.0") dim inner_dim true)
    else Gated (GEGLU.__init__ init (name +:+ ".net.0") dim inner_dim) in
  mk project_in (Dropout.mk dropout)
     (Linear.__init__ init (name +:+ ".net.2") inner_dim dim_out true).

Definition forward (self : t R) (x : tensor3 R) : result (tensor3 R) :=
  y ← match net_0 self with
      | LinearGELU lin => map3 F_gelu <$> Linear.forward lin x
      | Gated g => GEGLU.forward g x
      end;
  Linear.forward (net_2 self) (Dropout.forward (net_1 self) y).
End defs.
End FeedForward.

(** ** The reference attention engine *)

Module CrossAttention.
Record t (R : Type) := mk {
  scale : R;
  heads : nat;
  to_q : Linear.t R;
  to_k : Linear.t R;
  to_v : Linear.t R;
  to_out : Linear.t R * Dropout.t R;
  (* the values of the last call, kept on the module *)
  attn : option (tensor3 R);
  q : option (tensor3 R);
  k : option (tensor3 R);
  v : option (tensor3 R)
}.
Arguments mk {R}. Arguments scale {R}. Arguments heads {R}.
Arguments to_q {R}. Arguments to_k {R}. Arguments to_v {R}. Arguments to_out {R}.
Arguments attn {R}. Arguments q {R}. Arguments k {R}. Arguments v {R}.

(** The successive values of the locals of [forward]. *)
Record frame (R : Type) := mkframe {
  f_attn_matrix_scale : R;
  f_q_mix : R;
  f_q : tensor3 R;
  f_k : tensor3 R;
  f_v : tensor3 R;
  f_sim_qk : tensor3 R;        (* sim = einsum(q, k) *)
  f_sim_T : tensor3 R;         (* after the conditional sim *= attn_matrix_scale *)
  f_sim_scaled : tensor3 R;    (* after sim *= self.scale *)
  f_sim_masked : tensor3 R;    (* after the conditional masked_fill_ *)
  f_attn : tensor3 R;
  f_out : tensor3 R            (* heads merged, before to_out *)
}.
Arguments mkframe {R}. Arguments f_attn_matrix_scale {R}. Arguments f_q_mix {R}.
Arguments f_q {R}. Arguments f_k {R}. Arguments f_v {R}.
Arguments f_sim_qk {R}. Arguments f_sim_T {R}. Arguments f_sim_scaled {R}.
Arguments f_sim_masked {R}. Arguments f_attn {R}. Arguments f_out {R}.

Section defs.
Context {R : Type} `{Torch R}.

Definition __init__ (init : string → nat → nat → R) (name : string)
    (query_dim : nat) (context_dim : option nat) (heads dim_head : nat)
    (dropout : R) : result (t R) :=
  let inner_dim := dim_head * heads in
  let context_dim := default_ context_dim query_dim in
  scale ← int_pow_neg_half dim_head;
  Ok (mk scale heads
        (Linear.__init__ init (name +:+ ".to_q") query_dim inner_dim false)
        (Linear.__init__ init (name +:+ ".to_k") context_dim inner_dim false)
        (Linear.__init__ init (name +:+ ".to_v") context_dim inner_dim false)
        (Linear.__init__ init (name +:+ ".to_out.0") inner_dim query_dim true,
         Dropout.mk dropout)
        None None None None).

(** [injection_config['T']] *)
Definition getitem (d : gmap string R) (key : string) : result R :=
  match d !! key with Some x => Ok x | None => Raise KeyError end.

(** [self.to_q(x)] followed by the split into heads. *)
Definition project (lin : Linear.t R) (h : nat) (x : tensor3 R) : result (tensor3 R) :=
  y ← Linear.forward lin x; split_heads h y.

(** The similarity product, on operands cast to full precision when
    [_ATTN_PRECISION] asks for it. *)
Definition similarity (q k : tensor3 R) : result (tensor3 R) :=
  if bool_decide (_ATTN_PRECISION = "fp32")
  then einsum_bid_bjd (map3 to_float q) (map3 to_float k)
  else einsum_bid_bjd q k.

(** [forward] up to the merge of the heads, with every local it computes.
    The mask comes with its trailing axes already flattened, so that
    [rearrange(mask, 'b ... -> b (...)')] leaves it as it is. *)
Definition forward_frame (self : t R) (x : tensor3 R) (context : option (tensor3 R))
    (mask : option (list (list bool)))
    (q_injected k_injected v_injected : option (tensor3 R))
    (injection_config : option (gmap string R)) : result (frame R) :=
  let h := heads self in
  let b := dim0 x in
  '(attn_matrix_scale, q_mix) ←
    match injection_config with
    | Some cfg => T ← getitem cfg "T"; gamma ← getitem cfg "gamma"; Ok (T, gamma)
    | None => Ok (r1, r0)
    end;
  q ← match q_injected with
      | None => project (to_q self) h x
      | Some q_uncond =>
          q_in ← cat_repeat b q_uncond;
          q_ ← project (to_q self) h x;
          ew3 radd (muls3 q_in q_mix) (muls3 q_ (rsub r1 q_mix))
      end;
  let context := default_ context x in
  k ← match k_injected with
      | None => project (to_k self) h context
      | Some k_uncond => cat_repeat b k_uncond
      end;
  v ← match v_injected with
      | None => project (to_v self) h context
      | Some v_uncond => cat_repeat b v_uncond
      end;
  sim_qk ← similarity q k;
  let sim_T :=
    if exists_ q_injected || exists_ k_injected
    then muls3 sim_qk attn_matrix_scale else sim_qk in
  let sim_scaled := muls3 sim_T (scale self) in
  sim_masked ←
    match mask with
    | Some mask => masked_fill_not sim_scaled (repeat_mask h mask) max_neg_value
    | None => Ok sim_scaled
    end;
  let attn := map (map F_softmax) sim_masked in
  out ← einsum_bij_bjd attn v;
  out ← merge_heads h out;
  Ok (mkframe attn_matrix_scale q_mix q k v sim_qk sim_T sim_scaled sim_masked attn out).

(** A returning call hands back the module with [attn], [q], [k], [v] of
    this call on it, and the output.  What a raising call leaves on the
    module is not modelled. *)
Definition forward (self : t R) (x : tensor3 R) (context : option (tensor3 R))
    (mask : option (list (list bool)))
    (q_injected k_injected v_injected : option (tensor3 R))
    (injection_config : option (gmap string R)) : result (t R * tensor3 R) :=
  fr ← forward_frame self x context mask q_injected k_injected v_injected
         injection_config;
  y ← Linear.forward (to_out self).1 (f_out fr);
  Ok (mk (scale self) (heads self) (to_q self) (to_k self) (to_v self) (to_out self)
         (Some (f_attn fr)) (Some (f_q fr)) (Some (f_k fr)) (Some (f_v fr)),
      Dropout.forward (to_out self).2 y).
End defs.
End CrossAttention.

(** ** The memory-efficient attention engine *)

Module MemoryEfficientCrossAttention.
Record t (R : Type) := mk {
  heads : nat;
  dim_head : nat;
  to_q : Linear.t R;
  to_k : Linear.t R;
  to_v : Linear.t R;
  to_out : Linear.t R * Dropout.t R
}.
Arguments mk {R}. Arguments heads {R}. Arguments dim_head {R}.
Arguments to_q {R}. Arguments to_k {R}. Arguments to_v {R}. Arguments to_out {R}.

Section defs.
Context {R : Type} `{Torch R}.

Definition __init__ (init : string → nat → nat → R) (name : string)
    (query_dim : nat) (context_dim : option nat) (heads dim_head : nat)
    (dropout : R) : t R :=
  let inner_dim := dim_head * heads in
  let context_dim := default_ context_dim query_dim in
  mk heads dim_head
     (Linear.__init__ init (name +:+ ".to_q") query_dim inner_dim false)
     (Linear.__init__ init (name +:+ ".to_k") context_dim inner_dim false)
     (Linear.__init__ init (name +:+ ".to_v") context_dim inner_dim false)
     (Linear.__init__ init (name +:+ ".to_out.0") inner_dim query_dim true,
      Dropout.mk dropout).

(** [t.unsqueeze(3).reshape(b, t.shape[1], heads, dim_head)
      .permute(0, 2, 1, 3).reshape(b * heads, t.shape[1], dim_head)] *)
Definition to_heads (self : t R) (b : nat) (x : tensor3 R) : result (tensor3 R) :=
  y ← reshape4 b (dim1 x) (heads self) (dim_head self) (flatten3 x);
  reshape3 (b * heads self) (dim1 x) (dim_head self) (flatten4 (permute_0213 y)).

(** [out.unsqueeze(0).reshape(b, heads, out.shape[1], dim_head)
       .permute(0, 2, 1, 3).reshape(b, out.shape[1], heads * dim_head)] *)
Definition from_heads (self : t R) (b : nat) (out : tensor3 R) : result (tensor3 R) :=
  y ← reshape4 b (heads self) (dim1 out) (dim_head self) (flatten3 out);
  reshape3 b (dim1 out) (heads self * dim_head self) (flatten4 (permute_0213 y)).

Definition forward (self : t R) (x : tensor3 R) (context : option (tensor3 R))
    (mask : option (list (list bool))) : result (tensor3 R) :=
  q ← Linear.forward (to_q self) x;
  let context := default_ context x in
  k ← Linear.forward (to_k self) context;
  v ← Linear.forward (to_v self) context;
  let b := dim0 q in
  q ← to_heads self b q;
  k ← to_heads self b k;
  v ← to_heads self b v;
  out ← (if XFORMERS_IS_AVAILBLE then memory_efficient_attention q k v
         else Raise NameError);
  if exists_ mask then Raise NotImplementedError
  else
    out ← from_heads self b out;
    y ← Linear.forward (to_out self).1 out;
    Ok (Dropout.forward (to_out self).2 y).
End defs.
End MemoryEfficientCrossAttention.

(** ** Transformer block *)

(** Modelled from the spec: [checkpoint] of [ldm.modules.diffusionmodules.util],
    which is not part of this file.  It evaluates the function on the inputs;
    the flag only chooses whether activations are kept or recomputed for the
    backward pass. *)
Definition checkpoint {A B P} (func : A → B) (inputs : A) (params : P) (flag : bool) : B :=
  func inputs.

Module BasicTransformerBlock.
(** The two classes of [ATTENTION_MODES], with an instance of each. *)
Inductive attn_cls := cls_CrossAttention | cls_MemoryEfficientCrossAttention.

Definition ATTENTION_MODES : gmap string attn_cls :=
  <["softmax" := cls_CrossAttention]>
    (<["softmax-xformers" := cls_MemoryEfficientCrossAttention]> ∅).

Inductive attention (R : Type) :=
  | Softmax (m : CrossAttention.t R)
  | SoftmaxXformers (m : MemoryEfficientCrossAttention.t R).
Arguments Softmax {R}. Arguments SoftmaxXformers {R}.

Record t (R : Type) := mk {
  disable_self_attn : bool;
  attn1 : attention R;
  ff : FeedForward.t R;
  attn2 : attention R;
  norm1 : LayerNorm.t R;
  norm2 : LayerNorm.t R;
  norm3 : LayerNorm.t R;
  checkpoint_ : bool
}.
Arguments mk {R}. Arguments disable_self_attn {R}. Arguments attn1 {R}.
Arguments ff {R}. Arguments attn2 {R}. Arguments norm1 {R}. Arguments norm2 {R}.
Arguments norm3 {R}. Arguments checkpoint_ {R}.

Section defs.
Context {R : Type} `{Torch R}.

Definition new (cls : attn_cls) (init : string → nat → nat → R) (name : string)
    (query_dim : nat) (context_dim : option nat) (heads dim_head : nat)
    (dropout : R) : result (attention R) :=
  match cls with
  | cls_CrossAttention =>
      Softmax <$> CrossAttention.__init__ init name query_dim context_dim heads
                    dim_head dropout
  | cls_MemoryEfficientCrossAttention =>
      Ok (SoftmaxXformers (MemoryEfficientCrossAttention.__init__ init name query_dim
                             context_dim heads dim_head dropout))
  end.

Definition __init__ (init : string → nat → nat → R) (name : string)
    (dim n_heads d_head : nat) (dropout : R) (context_dim : option nat)
    (gated_ff checkpoint disable_self_attn : bool) : result (t R) :=
  let attn_mode := if XFORMERS_IS_AVAILBLE then "softmax-xformers" else "softmax" in
  require (exists_ (ATTENTION_MODES !! attn_mode)) AssertionError;;
  attn_cls ← match ATTENTION_MODES !! attn_mode with
             | Some cls => Ok cls
             | None => Raise KeyError
             end;
  attn1 ← new attn_cls init (name +:+ ".attn1") dim
             (if disable_self_attn then context_dim else None) n_heads d_head dropout;
  let ff := FeedForward.__init__ init (name +:+ ".ff") dim None 4 gated_ff dropout in
  attn2 ← new attn_cls init (name +:+ ".attn2") dim context_dim n_heads d_head dropout;
  Ok (mk disable_self_attn attn1 ff attn2
        (LayerNorm.__init__ dim) (LayerNorm.__init__ dim) (LayerNorm.__init__ dim)
        checkpoint).

(** [self.attn1(x, q_injected=.., k_injected=.., v_injected=.., injection_config=..)]:
    the memory-efficient engine has no such keywords. *)
Definition call_injected (a : attention R) (x : tensor3 R)
    (q_injected k_injected v_injected : option (tensor3 R))
    (injection_config : option (gmap string R)) : result (attention R * tensor3 R) :=
  match a with
  | Softmax m =>
      '(m', y) ← CrossAttention.forward m x None None q_injected k_injected
                   v_injected injection_config;
      Ok (Softmax m', y)
  | SoftmaxXformers _ => Raise TypeError
  end.

(** [self.attn2(x, context=context)] *)
Definition call_context (a : attention R) (x : tensor3 R)
    (context : option (tensor3 R)) : result (attention R * tensor3 R) :=
  match a with
  | Softmax m =>
      '(m', y) ← CrossAttention.forward m x context None None None None None;
      Ok (Softmax m', y)
  | SoftmaxXformers m =>
      y ← MemoryEfficientCrossAttention.forward m x context None;
      Ok (SoftmaxXformers m, y)
  end.

Definition _forward (self : t R)
    (args : tensor3 R * option (tensor3 R) * option (tensor3 R) * option (tensor3 R)
            * option (tensor3 R) * option (gmap string R))
    : result (t R * tensor3 R) :=
  let '(x, context, self_attn_q_injected, self_attn_k_injected,
        self_attn_v_injected, injection_config) := args in
  n1 ← LayerNorm.forward (norm1 self) x;
  '(attn1', x_) ← call_injected (attn1 self) n1 self_attn_q_injected
                    self_attn_k_injected self_attn_v_injected injection_config;
  x ← ew3 radd x_ x;
  n2 ← LayerNorm.forward (norm2 self) x;
  '(attn2', y) ← call_context (attn2 self) n2 context;
  x ← ew3 radd y x;
  n3 ← LayerNorm.forward (norm3 self) x;
  y ← FeedForward.forward (ff self) n3;
  x ← ew3 radd y x;
  Ok (mk (disable_self_attn self) attn1' (ff self) attn2'
         (norm1 self) (norm2 self) (norm3 self) (checkpoint_ self), x).

Definition forward (self : t R) (x : tensor3 R) (context : option (tensor3 R))
    (self_attn_q_injected self_attn_k_injected self_attn_v_injected :
       option (tensor3 R))
    (injection_config : option (gmap string R)) : result (t R * tensor3 R) :=
  checkpoint (_forward self)
    (x, context, self_attn_q_injected, self_attn_k_injected, self_attn_v_injected,
     injection_config)
    self (checkpoint_ self).
End defs.
End BasicTransformerBlock.

(** ** Arguments and normalisation of the spatial layers *)

(** An argument that is either a list or anything else ([isinstance(_, list)]). *)
Inductive one_or_list (A : Type) :=
  | NotList (a : A)
  | IsList (l : list A).
Arguments NotList {A}. Arguments IsList {A}.

(** [Normalize(in_channels)] *)
Definition Normalize {R} `{Torch R} (in_channels : nat) : result (GroupNorm.t R) :=
  GroupNorm.__init__ 32 in_channels.

(** ** Spatial self-attention *)

Module SpatialSelfAttention.
Record t (R : Type) := mk {
  in_channels : nat;
  norm : GroupNorm.t R;
  q : Conv2d.t R;
  k : Conv2d.t R;
  v : Conv2d.t R;
  proj_out : Conv2d.t R
}.
Arguments mk {R}. Arguments in_channels {R}. Arguments norm {R}.
Arguments q {R}. Arguments k {R}. Arguments v {R}. Arguments proj_out {R}.

Section defs.
Context {R : Type} `{Torch R}.

Definition __init__ (init : string → nat → nat → R) (in_channels : nat)
    : result (t R) :=
  norm ← Normalize in_channels;
  Ok (mk in_channels norm
        (Conv2d.__init__ init "q" in_channels in_channels)
        (Conv2d.__init__ init "k" in_channels in_channels)
        (Conv2d.__init__ init "v" in_channels in_channels)
        (Conv2d.__init__ init "proj_out" in_channels in_channels)).

(** [rearrange(w_, 'b i j -> b j i')] on one matrix. *)
Definition transpose (m : mat R) : mat R :=
  tabulate (dim1 m) (λ j, (λ row : vec R, default r0 (row !! j)) <$> m).

(** [rearrange(h_, 'b c (h w) -> b c h w', h=h)] *)
Definition unflatten (h : nat) (t : tensor3 R) : result (tensor4 R) :=
  let l := dim2 t in
  require (bool_decide (h ≠ 0 ∧ l `mod` h = 0)) EinopsError;;
  Ok (map (map (chunks h (l `div` h))) t).

(** [rearrange(k, 'b c h w -> b c (h w)')] *)
Definition flatten_planes (t : tensor4 R) : tensor3 R :=
  map (map (mjoin : mat R → vec R)) t.

Definition forward (self : t R) (x : tensor4 R) : result (tensor4 R) :=
  let h_ := x in
  h_ ← GroupNorm.forward (norm self) h_;
  q ← Conv2d.forward (q self) h_;
  k ← Conv2d.forward (k self) h_;
  v ← Conv2d.forward (v self) h_;
  let c := dim1 q in
  let h := dim2 q in
  let q := map grid_to_tokens q in
  let k := flatten_planes k in
  w_ ← einsum_bij_bjd q k;
  scale ← int_pow_neg_half c;
  let w_ := muls3 w_ scale in
  let w_ := map (map F_softmax) w_ in
  let v := flatten_planes v in
  let w_ := map transpose w_ in
  h_ ← einsum_bij_bjd v w_;
  h_ ← unflatten h h_;
  h_ ← Conv2d.forward (proj_out self) h_;
  ew4 radd x h_.
End defs.
End SpatialSelfAttention.

(** ** Spatial transformer *)

Module SpatialTransformer.
(** [proj_in] and [proj_out] are both convolutions or both linear layers,
    as [use_linear] was at construction. *)
Inductive projections (R : Type) :=
  | Convs (proj_in proj_out : Conv2d.t R)
  | Linears (proj_in proj_out : Linear.t R).
Arguments Convs {R}. Arguments Linears {R}.

Record t (R : Type) := mk {
  in_channels : nat;
  norm : GroupNorm.t R;
  proj : projections R;
  transformer_blocks : list (BasicTransformerBlock.t R)
}.
Arguments mk {R}. Arguments in_channels {R}. Arguments norm {R}.
Arguments proj {R}. Arguments transformer_blocks {R}.

Definition use_linear {R} (self : t R) : bool :=
  match proj self with Linears _ _ => true | Convs _ _ => false end.

Section defs.
Context {R : Type} `{Torch R}.

Definition __init__ (init : string → nat → nat → R)
    (in_channels n_heads d_head depth : nat) (dropout : R)
    (context_dim : one_or_list (option nat))
    (disable_self_attn use_linear use_checkpoint : bool) : result (t R) :=
  let context_dim :=
    match context_dim with
    | NotList (Some n) => Some [Some n]
    | NotList None => None
    | IsList l => Some l
    end in
  let inner_dim := n_heads * d_head in
  norm ← Normalize in_channels;
  let proj_in_conv := Conv2d.__init__ init "proj_in" in_channels inner_dim in
  let proj_in_linear := Linear.__init__ init "proj_in" in_channels inner_dim true in
  transformer_blocks ←
    forM (λ d : nat,
            cd ← match context_dim with
                 | None => Raise TypeError
                 | Some l => match l !! d with
                             | Some cd => Ok cd
                             | None => Raise IndexError
                             end
                 end;
            BasicTransformerBlock.__init__ init
              ("transformer_blocks." +:+ pretty d) inner_dim n_heads d_head dropout
              cd true use_checkpoint disable_self_attn)
         (seq 0 depth);
  Ok (mk in_channels norm
        (if negb use_linear
         then Convs proj_in_conv
                (zero_module (Conv2d.__init__ init "proj_out" inner_dim in_channels))
         else Linears proj_in_linear
                (zero_module (Linear.__init__ init "proj_out" in_channels inner_dim true)))
        transformer_blocks).

(** [for i, block in enumerate(self.transformer_blocks): x = block(x, context=context[i], ...)] *)
Fixpoint run_blocks (i : nat) (blocks : list (BasicTransformerBlock.t R))
    (context : list (option (tensor3 R))) (x : tensor3 R)
    (self_attn_q_injected self_attn_k_injected self_attn_v_injected :
       option (tensor3 R))
    (injection_config : option (gmap string R))
    : result (list (BasicTransformerBlock.t R) * tensor3 R) :=
  match blocks with
  | [] => Ok ([], x)
  | block :: rest =>
      c ← match context !! i with Some c => Ok c | None => Raise IndexError end;
      '(block', x) ← BasicTransformerBlock.forward block x c self_attn_q_injected
                       self_attn_k_injected self_attn_v_injected injection_config;
      '(rest', x) ← run_blocks (S i) rest context x self_attn_q_injected
                      self_attn_k_injected self_attn_v_injected injection_config;
      Ok (block' :: rest', x)
  end.

Definition forward (self : t R) (x : tensor4 R)
    (context : one_or_list (option (tensor3 R)))
    (self_attn_q_injected self_attn_k_injected self_attn_v_injected :
       option (tensor3 R))
    (injection_config : option (gmap string R)) : result (t R * tensor4 R) :=
  let context := match context with IsList l => l | NotList c => [c] end in
  let h := dim2 x in
  let w := dim3 x in
  let x_in := x in
  x ← GroupNorm.forward (norm self) x;
  x ← match proj self with
      | Convs proj_in _ => Conv2d.forward proj_in x
      | Linears _ _ => Ok x
      end;
  let x := map grid_to_tokens x in
  x ← match proj self with
      | Linears proj_in _ => Linear.forward proj_in x
      | Convs _ _ => Ok x
      end;
  '(blocks', x) ← run_blocks 0 (transformer_blocks self) context x
                    self_attn_q_injected self_attn_k_injected self_attn_v_injected
                    injection_config;
  x ← match proj self with
      | Linears _ proj_out => Linear.forward proj_out x
      | Convs _ _ => Ok x
      end;
  x ← forM (tokens_to_grid h w) x;
  x ← match proj self with
      | Convs _ proj_out => Conv2d.forward proj_out x
      | Linears _ _ => Ok x
      end;
  y ← ew4 radd x x_in;
  Ok (mk (in_channels self) (norm self) (proj self) blocks', y).
End defs.
End SpatialTransformer.

(** ** An instance to run the embedding on

    Integer elements with exact arithmetic.  The kernels that need real
    numbers are replaced by shape-preserving stand-ins, so this instance is
    used only to evaluate what does not depend on their values: which tensors
    reach which operation, and which exception a call ends in. *)
Definition exact_Z (xformers : bool) : Torch Z := {|
  r0 := 0%Z;
  r1 := 1%Z;
  radd := Z.add;
  rsub := Z.sub;
  rmul := Z.mul;
  pow_neg_half := λ _, 1%Z;
  max_neg_value := (- 2 ^ 128)%Z;
  to_float := id;
  _ATTN_PRECISION := "fp32";
  F_softmax := id;
  F_gelu := id;
  F_layer_norm := λ w b row, row;
  F_group_norm := λ _ w b s, s;
  F_dropout := λ _ row, row;
  XFORMERS_IS_AVAILBLE := xformers;
  memory_efficient_attention := λ q k v, Ok q
|}.

Definition torch_Z : Torch Z := exact_Z false.

Definition T_gamma (T gamma : Z) : gmap string Z :=
  <["T" := T]> (<["gamma" := gamma]> ∅).

(** Initial parameters that differ from entry to entry. *)
Definition ramp : string → nat → nat → Z := λ _ j i, Z.of_nat (1 + j + 2 * i).

(** The attention layer [CrossAttention(2, heads=2, dim_head=1)] as its
    constructor builds it (two heads of width one on two channels), and a
    batch of two one-token inputs. *)
Definition attn_demo : CrossAttention.t Z :=
  CrossAttention.mk 1%Z 2
    (Linear.__init__ ramp "attn.to_q" 2 2 false)
    (Linear.__init__ ramp "attn.to_k" 2 2 false)
    (Linear.__init__ ramp "attn.to_v" 2 2 false)
    (Linear.__init__ ramp "attn.to_out.0" 2 2 true, Dropout.mk 0%Z)
    None None None None.
Definition x_demo : tensor3 Z := [[[3; 4]]; [[1; 2]]]%Z.
Definition q_demo : tensor3 Z := [[[5]]; [[6]]]%Z.
Definition k_demo : tensor3 Z := [[[2]]; [[9]]]%Z.
Definition v_demo : tensor3 Z := [[[3]]; [[4]]]%Z.

(** Two samples of one pixel of thirty-two channels, the least the group
    normalisation takes (it refuses a single value per group), and a context
    of one token for each. *)
Definition x32 : tensor4 Z := [replicate 32 [[1%Z]]; replicate 32 [[1%Z]]].
Definition c_demo : tensor3 Z := [[[1]]; [[1]]]%Z.

(** ** Vocabulary of the statements *)

(** Entry [(i, j, l)] of a tensor, when it has one. *)
Definition lookup3 {A} (t : tensor3 A) (i j l : nat) : option A :=
  m ← t !! i; row ← (m : mat A) !! j; (row : vec A) !! l.

(** Same extents on every axis. *)
Definition same_shape3 {A B} (a : tensor3 A) (b : tensor3 B) : Prop :=
  Forall2 (Forall2 (λ u w, length u = length w)) a b.

(** Every plane of every sample has the extents of the first one. *)
Definition regular4 {A} (x : tensor4 A) : Prop :=
  Forall (Forall (λ plane : mat A,
            length plane = dim2 x ∧ Forall (λ row, length row = dim3 x) plane)) x.

(** Every row of the tensor has [n] entries. *)
Definition rows_have {A} (n : nat) (t : tensor3 A) : Prop :=
  Forall (Forall (λ row, length row = n)) t.

(** A [c, h, w] sample of zeros. *)
Definition zeros3 {R} `{Torch R} (c h w : nat) : tensor3 R :=
  replicate c (replicate h (replicate w r0)).

(** The weight and bias of a linear layer have the declared extents. *)
Definition wf_linear {R} (l : Linear.t R) : Prop :=
  length (Linear.weight l) = Linear.out_features l
  ∧ ∀ b, Linear.bias l = Some b → length b = Linear.out_features l.

(** The rows a block returns are as wide as its last layers. *)
Definition block_width {R} (dim : nat) (b : BasicTransformerBlock.t R) : Prop :=
  LayerNorm.normalized_shape (BasicTransformerBlock.norm3 b) = dim
  ∧ wf_linear (FeedForward.net_2 (BasicTransformerBlock.ff b))
  ∧ Linear.out_features (FeedForward.net_2 (BasicTransformerBlock.ff b)) = dim.

(** A batch of matrices of [n] rows of [c] entries each. *)
Definition regular3 {A} (n c : nat) (t : tensor3 A) : Prop :=
  Forall (λ m : mat A, length m = n ∧ Forall (λ row, length row = c) m) t.

(** A sample of planes of [h] rows of [w] entries. *)
Definition regular_sample {A} (h w : nat) (s : tensor3 A) : Prop :=
  Forall (λ plane : mat A,
            length plane = h ∧ Forall (λ row, length row = w) plane) s.

(** The heads of one matrix, as [split_heads] cuts them. *)
Definition heads_of {A} (h d : nat) (m : mat A) : tensor3 A :=
  tabulate h (λ i, (λ row : vec A, take d (drop (i * d) row)) <$> m).

(** A tensor of extents [k, n, c], and a batch of [b] samples of extents
    [c, h, w]. *)
Definition has_shape {A} (k n c : nat) (t : tensor3 A) : Prop :=
  length t = k ∧ regular3 n c t.
Definition has_shape4 {A} (b c h w : nat) (x : tensor4 A) : Prop :=
  length x = b ∧ Forall (has_shape c h w) x.

(** An injected tensor has the extents [k, n, c]; without one, [otherwise]
    holds of what takes its place. *)
Definition injected_or {A} (t : option (tensor3 A)) (k n c : nat) (otherwise : Prop)
    : Prop :=
  match t with Some u => has_shape k n c u | None => otherwise end.

(** A configuration, when given, holds both keys. *)
Definition config_complete {R} (injection_config : option (gmap string R)) : Prop :=
  match injection_config with
  | Some cfg => is_Some (cfg !! "T") ∧ is_Some (cfg !! "gamma")
  | None => True
  end.

(** The list [context_dim] is after the constructor of the spatial
    transformer has wrapped it. *)
Definition context_dims (context_dim : one_or_list (option nat)) : list (option nat) :=
  match context_dim with
  | NotList (Some n) => [Some n]
  | NotList None => []
  | IsList l => l
  end.

(** Block [d] can attend its context: the context is there and as wide as
    the block was built for (without one the block attends its own rows, of
    width [n_heads * d_head]); and with [disable_self_attn] the first
    sublayer, which is never handed the context, was built for its own rows
    whenever it has to project keys or values. *)
Definition context_fits {A} (n_heads d_head : nat) (cds : list (option nat))
    (dsa : bool) (b : nat) (contexts : list (option (tensor3 A)))
    (k_injected v_injected : option (tensor3 A)) (d : nat) : Prop :=
  ∃ cd c, cds !! d = Some cd ∧ contexts !! d = Some c
    ∧ match c with
      | Some t => ∃ m2, m2 ≠ 0 ∧ has_shape b m2 (default_ cd (n_heads * d_head)) t
      | None => default_ cd (n_heads * d_head) = n_heads * d_head
      end
    ∧ (dsa = true → (k_injected = None ∨ v_injected = None) →
       default_ cd (n_heads * d_head) = n_heads * d_head).

(** One row through a linear layer: [y_j = sum_i x_i * w_ji (+ b_j)]. *)
Definition linear_row {R} `{Torch R} (l : Linear.t R) (x : vec R) : vec R :=
  let y := (λ w : vec R, vsum (zip_with rmul x w)) <$> Linear.weight l in
  match Linear.bias l with Some b => zip_with radd y b | None => y end.

(** Weight and bias of a linear layer have the declared extents. *)
Definition linear_shaped {R} (l : Linear.t R) : Prop :=
  wf_linear l ∧ Forall (λ w, length w = Linear.in_features l) (Linear.weight l).

(** The keys of a dictionary after one more assignment. *)
Definition keys_step {A} `{EqDecision A} (ks : list A) (k : A) : list A :=
  if decide (k ∈ ks) then ks else (ks ++ [k])%list.

(** The kernels keep the extents of their argument, as softmax, dropout and
    the normalisations of [torch] do. *)
Class ShapedKernels (R : Type) `{Torch R} : Prop := {
  softmax_length : ∀ row : vec R, length (F_softmax row) = length row;
  dropout_length : ∀ (p : R) (row : vec R), length (F_dropout p row) = length row;
  layer_norm_length :
    ∀ w b row : vec R, length (F_layer_norm w b row) = length row;
  group_norm_shape :
    ∀ (g : nat) (w b : vec R) (s : tensor3 R) (c h w' : nat),
      has_shape c h w' s → has_shape c h w' (F_group_norm g w b s)
}.

(** Exact element arithmetic: the identities of [0.] and [1.] that the
    statements about [gamma] rest on.  Floating-point numbers have them on
    finite values, up to the sign of zero. *)
Class ExactArith (R : Type) `{Torch R} : Prop := {
  mul_0_r : ∀ a : R, rmul a r0 = r0;
  mul_1_r : ∀ a : R, rmul a r1 = a;
  add_0_l : ∀ a : R, radd r0 a = a;
  add_0_r : ∀ a : R, radd a r0 = a;
  sub_1_0 : rsub r1 r0 = r1;
  sub_1_1 : rsub r1 r1 = r0
}.

(** * Properties *)

(** ** The error monad *)

Lemma bind_Ok {A B} (m : result A) (f : A → result B) (b : B) :
  m ≫= f = Ok b ↔ ∃ a, m = Ok a ∧ f a = Ok b.
Proof.
  destruct m as [a|e]; simpl; split.
  - intros Hf. by exists a.
  - by intros (a' & [= <-] & Hf).
  - discriminate.
  - by intros (a' & [=] & _).
Qed.

Lemma require_Ok (b : bool) (e : exn) (u : unit) : require b e = Ok u ↔ b = true.
Proof. destruct b, u; simpl; split; congruence. Qed.

Lemma not_returns_Raise {A} (e : exn) : ¬ returns (@Raise A e).
Proof. by intros [a [=]]. Qed.

Lemma not_returns_bind {A B} (m : result A) (f : A → result B) :
  (∀ a, m = Ok a → ¬ returns (f a)) → ¬ returns (m ≫= f).
Proof. intros Hf [b (a & Hm & Hb)%bind_Ok]. apply (Hf a Hm). by exists b. Qed.

(** Take a successful sequence of binds apart, one step at a time. *)
Ltac inv_ok H :=
  repeat match type of H with
  | _ ≫= _ = Ok _ =>
      let a := fresh "a" in let Ha := fresh "Hstep" in
      apply bind_Ok in H as (a & Ha & H); simpl in H
  | (let '(_, _) := ?p in _) = Ok _ => destruct p; simpl in H
  end.

Lemma forM_length {A B} (f : A → result B) xs ys :
  forM f xs = Ok ys → length ys = length xs.
Proof.
  revert ys. induction xs as [|x xs IH]; intros ys Hf; simpl in Hf.
  - by injection Hf as <-.
  - inv_ok Hf. injection Hf as <-. simpl. f_equal. by apply IH.
Qed.

Lemma forM_lookup {A B} (f : A → result B) xs ys i x :
  forM f xs = Ok ys → xs !! i = Some x → ∃ y, ys !! i = Some y ∧ f x = Ok y.
Proof.
  revert ys i. induction xs as [|x' xs IH]; intros ys i Hf Hx; [done|].
  simpl in Hf. inv_ok Hf. injection Hf as <-.
  destruct i as [|i]; simpl in *.
  - injection Hx as ->. eauto.
  - eauto.
Qed.

Lemma forM_pure {A B} (g : A → B) xs : forM (λ x, Ok (g x)) xs = Ok (g <$> xs).
Proof. induction xs as [|x xs IH]; [done|]. simpl. by rewrite IH. Qed.

(** ** Tensor operations *)

Section tensor_facts.
Context {R : Type} `{Torch R}.



Lemma lookup3_map3 {A B} (f : A → B) (t : tensor3 A) i j l :
  lookup3 (map3 f t) i j l = f <$> lookup3 t i j l.
Proof.
  unfold lookup3, map3. rewrite list_lookup_fmap.
  destruct (t !! i) as [m|]; [simpl|done]. rewrite list_lookup_fmap.
  destruct (m !! j) as [row|]; [simpl|done]. by rewrite list_lookup_fmap.
Qed.

Lemma map3_id_ext {A} (f : A → A) (t : tensor3 A) : (∀ a, f a = a) → map3 f t = t.
Proof.
  intros Hf. unfold map3.
  rewrite <- (list_fmap_id t) at 2. apply list_fmap_ext. intros _ m _.
  rewrite <- (list_fmap_id m) at 2. apply list_fmap_ext. intros _ row _.
  rewrite <- (list_fmap_id row) at 2. apply list_fmap_ext. intros _ a _. apply Hf.
Qed.

(** With equal extents nothing is broadcast: the operation is entrywise. *)
Lemma broadcast2_same {A B C} (f : A → B → result C) (P : A → B → Prop) (g : A → B → C) xs ys :
  Forall2 P xs ys → (∀ x y, P x y → f x y = Ok (g x y)) →
  broadcast2 f xs ys = Ok (zip_with g xs ys).
Proof.
  intros Hs Hf. unfold broadcast2.
  rewrite decide_True by by eapply Forall2_length.
  induction Hs as [|x y xs ys Hxy Hs IH]; [done|]. simpl.
  rewrite (Hf _ _ Hxy). simpl. by rewrite IH.
Qed.

Lemma ew3_same_shape (op : R → R → R) a b :
  same_shape3 a b →
  ew3 op a b = Ok (zip_with (zip_with (zip_with op)) a b).
Proof.
  intros Hs. unfold ew3. eapply broadcast2_same; [exact Hs|].
  intros m m' Hm. unfold ew2. eapply broadcast2_same; [exact Hm|].
  intros row row' Hr. simpl in Hr. unfold ew1.
  eapply (broadcast2_same _ (λ _ _, True)); [|done].
  clear -Hr. revert row' Hr.
  induction row as [|u row IH]; intros [|w row'] Hr; simpl in *; try done.
  constructor; [done|]. apply IH. congruence.
Qed.




Lemma zip3_map3_r {A B} (op : A → B → B) (f : R → A) (g : B → B) (a : tensor3 R)
    (c : tensor3 B) :
  same_shape3 a c → (∀ u w, op (f u) (g w) = w) →
  zip_with (zip_with (zip_with op)) (map3 f a) (map3 g c) = c.
Proof.
  intros Hs Hop. unfold map3.
  induction Hs as [|m m' a c Hm _ IH]; [done|]. simpl. f_equal; [|done].
  induction Hm as [|row row' m m' Hr _ IHm]; [done|]. simpl. f_equal; [|done].
  clear -Hr Hop. revert row' Hr.
  induction row as [|u row IHr]; intros [|w row'] Hr; simpl in *; try done.
  f_equal; [done|]. apply IHr. congruence.
Qed.

Lemma zip3_map3_l {A B} (op : A → B → A) (f : A → A) (g : R → B) (a : tensor3 A)
    (c : tensor3 R) :
  same_shape3 a c → (∀ u w, op (f u) (g w) = u) →
  zip_with (zip_with (zip_with op)) (map3 f a) (map3 g c) = a.
Proof.
  intros Hs Hop. unfold map3.
  induction Hs as [|m m' a c Hm _ IH]; [done|]. simpl. f_equal; [|done].
  induction Hm as [|row row' m m' Hr _ IHm]; [done|]. simpl. f_equal; [|done].
  clear -Hr Hop. revert row' Hr.
  induction row as [|u row IHr]; intros [|w row'] Hr; simpl in *; try done.
  f_equal; [done|]. apply IHr. congruence.
Qed.

Lemma same_shape3_map3 {A B C D} (f : A → B) (g : C → D) (a : tensor3 A) (c : tensor3 C) :
  same_shape3 a c → same_shape3 (map3 f a) (map3 g c).
Proof.
  unfold same_shape3, map3. intros Hs. apply Forall2_fmap.
  eapply Forall2_impl; [exact Hs|]. intros m m' Hm. apply Forall2_fmap.
  eapply Forall2_impl; [exact Hm|]. intros row row' Hr. simpl.
  by rewrite !length_fmap.
Qed.

(** The mix of the injected and the fresh query at its two ends. *)
Lemma mix_gamma_zero `{!ExactArith R} (q_in q_ : tensor3 R) :
  same_shape3 q_in q_ →
  ew3 radd (muls3 q_in r0) (muls3 q_ (rsub r1 r0)) = Ok q_.
Proof.
  intros Hs. unfold muls3.
  rewrite ew3_same_shape by by apply same_shape3_map3.
  f_equal. apply zip3_map3_r; [done|]. intros u w.
  by rewrite mul_0_r, sub_1_0, mul_1_r, add_0_l.
Qed.

Lemma mix_gamma_one `{!ExactArith R} (q_in q_ : tensor3 R) :
  same_shape3 q_in q_ →
  ew3 radd (muls3 q_in r1) (muls3 q_ (rsub r1 r1)) = Ok q_in.
Proof.
  intros Hs. unfold muls3.
  rewrite ew3_same_shape by by apply same_shape3_map3.
  f_equal. apply zip3_map3_l; [done|]. intros u w.
  by rewrite mul_1_r, sub_1_1, mul_0_r, add_0_r.
Qed.

Lemma muls3_one (t : tensor3 R) : (∀ a, rmul a r1 = a) → muls3 t r1 = t.
Proof. intros Hone. by apply map3_id_ext. Qed.

Lemma length_tabulate {A} (n : nat) (f : nat → A) : length (tabulate n f) = n.
Proof. unfold tabulate. by rewrite length_fmap, length_seq. Qed.

Lemma map_tabulate_const {A B} (g : A → B) (c : B) (n : nat) (f : nat → A) :
  (∀ k, g (f k) = c) → map g (tabulate n f) = replicate n c.
Proof.
  intros Hg. unfold tabulate. generalize 0. induction n as [|n IH]; intros k; [done|].
  simpl. rewrite Hg. f_equal. apply IH.
Qed.

Lemma forM_const {A B} (f : A → result B) (b : B) (xs : list A) :
  (∀ x, x ∈ xs → f x = Ok b) → forM f xs = Ok (replicate (length xs) b).
Proof.
  induction xs as [|x xs IH]; intros Hf; [done|]. simpl.
  rewrite Hf by left. simpl. rewrite IH; [done|]. intros z Hz. apply Hf. by right.
Qed.

Lemma forM_Forall2 {A B} (f : A → result B) (xs : list A) (ys : list B) :
  forM f xs = Ok ys → Forall2 (λ x y, f x = Ok y) xs ys.
Proof.
  revert ys. induction xs as [|x xs IH]; intros ys Hf; simpl in Hf.
  - injection Hf as <-. constructor.
  - inv_ok Hf. injection Hf as <-. constructor; [done|]. by apply IH.
Qed.

Lemma vsum_zeros `{!ExactArith R} (v : list R) : Forall (λ a, a = r0) v → vsum v = r0.
Proof.
  induction 1 as [|a v -> _ IH]; [done|].
  change (vsum (r0 :: v)) with (radd r0 (vsum v)). rewrite IH. apply add_0_l.
Qed.

Lemma dot_zeros `{!ExactArith R} (v : list R) :
  dot v (replicate (length v) r0) = Ok r0.
Proof.
  unfold dot, ew1, broadcast2. rewrite decide_True by by rewrite length_replicate.
  rewrite (forM_pure (λ p, rmul p.1 p.2)). simpl. f_equal. apply vsum_zeros.
  apply Forall_fmap, Forall_forall. intros [a b] Hab. simpl.
  apply elem_of_zip_r, elem_of_replicate in Hab as [-> _]. apply mul_0_r.
Qed.

Lemma length_pixel (s : tensor3 R) (y x : nat) : length (pixel s y x) = length s.
Proof. unfold pixel. by rewrite length_fmap. Qed.

(** A convolution whose parameters are zero maps every sample to zeros. *)
Lemma zero_conv_sample `{!ExactArith R} (c : Conv2d.t R) (s : tensor3 R) :
  Conv2d.weight c = replicate (Conv2d.out_channels c) (replicate (Conv2d.in_channels c) r0) →
  Conv2d.bias c = replicate (Conv2d.out_channels c) r0 →
  length s = Conv2d.in_channels c →
  Conv2d.forward_sample c s = Ok (zeros3 (Conv2d.out_channels c) (dim1 s) (dim2 s)).
Proof.
  intros Hw Hb Hs. unfold Conv2d.forward_sample.
  rewrite bool_decide_eq_true_2 by done. simpl.
  rewrite Hw, Hb, zip_with_replicate.
  erewrite forM_const.
  - rewrite length_replicate. reflexivity.
  - intros wb [-> _]%elem_of_replicate. simpl.
    erewrite forM_const; [by rewrite length_seq|]. intros y _.
    erewrite forM_const; [by rewrite length_seq|]. intros x _.
    rewrite <- Hs, <- (length_pixel s y x), dot_zeros. simpl.
    by rewrite add_0_l.
Qed.

Lemma zero_module_conv (init : string → nat → nat → R) (name : string) (cin cout : nat) :
  let c := zero_module (Conv2d.__init__ init name cin cout) in
  Conv2d.in_channels c = cin ∧ Conv2d.out_channels c = cout
  ∧ Conv2d.weight c = replicate cout (replicate cin r0)
  ∧ Conv2d.bias c = replicate cout r0.
Proof.
  simpl. split; [done|]. split; [done|]. unfold fresh_matrix, fresh_vector. split.
  - apply map_tabulate_const. intros j. by apply map_tabulate_const.
  - by apply map_tabulate_const.
Qed.

(** What [tokens_to_grid] returns has the extents asked for. *)
Lemma tokens_to_grid_shape (h w : nat) (m : list (list R)) s :
  tokens_to_grid h w m = Ok s →
  length s = dim1 m
  ∧ Forall (λ plane, length plane = h ∧ Forall (λ row, length row = w) plane) s.
Proof.
  unfold tokens_to_grid. intros Hs. inv_ok Hs. injection Hs as <-.
  unfold tabulate. rewrite length_fmap, length_seq. split; [done|].
  apply Forall_fmap, Forall_forall. intros c _. simpl.
  rewrite length_fmap, length_seq. split; [done|].
  apply Forall_fmap, Forall_forall. intros y _. simpl.
  by rewrite length_fmap, length_seq.
Qed.

Lemma regular_zeros_dims (s : tensor3 R) (h w : nat) :
  s ≠ [] →
  Forall (λ plane, length plane = h ∧ Forall (λ row, length row = w) plane) s →
  replicate (dim1 s) (replicate (dim2 s) r0) = replicate h (replicate w r0).
Proof.
  destruct s as [|plane s]; [done|]. intros _ Hs.
  apply Forall_cons in Hs as [[Hh Hw] _].
  unfold dim2, dim1. simpl. rewrite Hh.
  destruct plane as [|row plane]; simpl in *; [by subst h|].
  apply Forall_cons in Hw as [-> _]. done.
Qed.

(** Adding zeros of the right extents changes nothing. *)
Lemma ew3_zeros_l `{!ExactArith R} (c h w : nat) (s : tensor3 R) :
  length s = c →
  Forall (λ plane, length plane = h ∧ Forall (λ row, length row = w) plane) s →
  ew3 radd (zeros3 c h w) s = Ok s.
Proof.
  intros Hc Hs.
  assert (zeros3 c h w = map3 (λ _, r0) s) as ->.
  { unfold zeros3, map3. subst c. induction Hs as [|plane s [Hh Hw] _ IH]; [done|].
    simpl. f_equal; [|done]. subst h. clear -Hw.
    induction Hw as [|row plane Hr _ IH]; [done|]. simpl. f_equal; [|done].
    subst w. clear. induction row as [|a row IH]; [done|]. simpl. by f_equal. }
  assert (same_shape3 s s) as Hss.
  { apply Forall2_same_length_lookup. split; [done|]. intros i m m' Hm Hm'.
    rewrite Hm in Hm'. injection Hm' as <-.
    apply Forall2_same_length_lookup. split; [done|]. intros j r r' Hr Hr'.
    rewrite Hr in Hr'. by injection Hr' as <-. }
  pose proof (map3_id_ext id s (λ a, eq_refl)) as Hid.
  assert (ew3 radd (map3 (λ _, r0) s) (map3 id s) = Ok s) as E.
  { rewrite ew3_same_shape by by apply same_shape3_map3.
    f_equal. apply zip3_map3_r; [done|]. intros u a. apply add_0_l. }
  by rewrite Hid in E.
Qed.

Lemma broadcast2_absorb {A B} (f : A → B → result B) (zs : list A) (xs ys : list B) :
  broadcast2 f zs xs = Ok ys →
  (∀ z x, z ∈ zs → x ∈ xs → f z x = Ok x) →
  length ys = length xs → ys = xs.
Proof.
  unfold broadcast2. intros Hb Hf Hlen. case_decide as Hl.
  - clear Hlen. revert zs ys Hl Hb Hf.
    induction xs as [|x xs IH]; intros [|z zs] ys Hl Hb Hf; simpl in *; try done.
    + by injection Hb as <-.
    + rewrite (Hf z x) in Hb by apply list_elem_of_here. simpl in Hb. inv_ok Hb. injection Hb as <-.
      f_equal. apply (IH zs); [congruence|done|].
      intros z' x' Hz' Hx'. apply Hf; by right.
  - destruct zs as [|z [|z' zs]].
    + destruct xs as [|x [|x' xs]]; [done| |done].
      simpl in Hb. injection Hb as <-. done.
    + 
clear Hl Hlen. assert (∀ x, x ∈ xs → f z x = Ok x) as Hfz
        by (intros x Hx; apply Hf; [left|done]).
      clear Hf. revert ys Hb. induction xs as [|x xs IH]; intros ys Hb; simpl in Hb.
      * by injection Hb as <-.
      * rewrite (Hfz x) in Hb by apply list_elem_of_here. simpl in Hb. inv_ok Hb. injection Hb as <-.
        f_equal. apply IH; [|done]. intros x' Hx'. apply Hfz. by right.
    + destruct xs as [|x [|x' xs]]; [done| |done].
      apply forM_length in Hb. simpl in *. lia.
Qed.

Lemma broadcast2_elem {A B C} (f : A → B → result C) xs ys zs :
  broadcast2 f xs ys = Ok zs →
  Forall (λ z, ∃ x y, x ∈ xs ∧ y ∈ ys ∧ f x y = Ok z) zs.
Proof.
  unfold broadcast2. intros Hb. case_decide as Hl.
  - apply forM_Forall2 in Hb. apply Forall_forall. intros z Hz.
    apply list_elem_of_lookup in Hz as [i Hi].
    destruct (Forall2_lookup_r _ _ _ _ _ Hb Hi) as ([x y] & Hxy & Hf).
    exists x, y. apply list_elem_of_lookup_2 in Hxy.
    split; [by eapply elem_of_zip_l|]. split; [by eapply elem_of_zip_r|done].
  - destruct xs as [|x [|x' xs]].
    + destruct ys as [|y [|y' ys]]; [done| |done]. simpl in Hb. injection Hb as <-.
      constructor.
    + apply forM_Forall2 in Hb. apply Forall_forall. intros z Hz.
      apply list_elem_of_lookup in Hz as [i Hi].
      destruct (Forall2_lookup_r _ _ _ _ _ Hb Hi) as (y & Hy & Hf).
      exists x, y. split; [left|]. split; [by eapply list_elem_of_lookup_2|done].
    + destruct ys as [|y [|y' ys]]; [done| |done].
      apply forM_Forall2 in Hb. apply Forall_forall. intros z Hz.
      apply list_elem_of_lookup in Hz as [i Hi].
      destruct (Forall2_lookup_r _ _ _ _ _ Hb Hi) as (x0 & Hx0 & Hf).
      exists x0, y. split; [by eapply list_elem_of_lookup_2|]. split; [left|done].
Qed.

Lemma ew1_length (op : R → R → R) (a b c : list R) :
  ew1 op a b = Ok c → length a = length b → length c = length a.
Proof.
  unfold ew1, broadcast2. intros Hc Hl. rewrite decide_True in Hc by done.
  apply forM_length in Hc. rewrite Hc, length_zip_with. lia.
Qed.

Lemma ew3_rows_have (op : R → R → R) (n : nat) a b c :
  ew3 op a b = Ok c → rows_have n a → rows_have n b → rows_have n c.
Proof.
  intros Hc Ha Hb. unfold rows_have in *. rewrite Forall_forall in Ha, Hb.
  apply broadcast2_elem in Hc. eapply Forall_impl; [exact Hc|].
  intros cm (am & bm & Ham & Hbm & Hcm). simpl in Hcm.
  specialize (Ha am Ham). specialize (Hb bm Hbm). rewrite Forall_forall in Ha, Hb.
  apply broadcast2_elem in Hcm. eapply Forall_impl; [exact Hcm|].
  intros cr (ar & br & Har & Hbr & Hcr). simpl in Hcr.
  apply ew1_length in Hcr; rewrite ?(Ha ar Har), ?(Hb br Hbr) in *; done.
Qed.

Lemma ew4_nil_l (op : R → R → R) (x y : list (list (list (list R)))) :
  ew4 op [] x = Ok y → y = [].
Proof.
  unfold ew4, broadcast2. case_decide; simpl.
  - destruct x; [|done]. by intros [= <-].
  - destruct x as [|s [|s' x]]; [done| |done]. by intros [= <-].
Qed.

Lemma expand_to_lookup {A B C} (f : A → B → result C) xs ms zs i x m :
  expand_to f xs ms = Ok zs → xs !! i = Some x → ms !! i = Some m →
  ∃ z, zs !! i = Some z ∧ f x m = Ok z.
Proof.
  unfold expand_to. intros Hz Hx Hm. case_decide as Hl.
  - eapply (forM_lookup _ _ _ i (x, m)) in Hz; [done|].
    rewrite lookup_zip_with, Hx. simpl. by rewrite Hm.
  - destruct ms as [|m0 [|m1 ms]]; [done| |done].
    destruct i; [|done]. injection Hm as ->.
    by apply (forM_lookup _ _ _ 0 x) in Hz.
Qed.

Lemma expand_to_lookup_one {A B C} (f : A → B → result C) xs zs i x m :
  expand_to f xs [m] = Ok zs → xs !! i = Some x →
  ∃ z, zs !! i = Some z ∧ f x m = Ok z.
Proof.
  unfold expand_to. intros Hz Hx. case_decide as Hl.
  - destruct xs as [|x0 [|x1 xs]]; [done| |done]. destruct i; [|done].
    injection Hx as ->. by apply (forM_lookup _ _ _ 0 (x, m)) in Hz.
  - by apply (forM_lookup _ _ _ i x) in Hz.
Qed.

(** Row [i] of the repeated mask is row [i / h] of the mask. *)
Lemma repeat_mask_lookup (h : nat) (mask : list (list bool)) (i : nat) row :
  h ≠ 0 → mask !! (i `div` h) = Some row → repeat_mask h mask !! i = Some [row].
Proof.
  intros Hh. unfold repeat_mask. revert i.
  induction mask as [|r mask IH]; intros i Hi; [done|].
  change ((r :: mask) ≫= λ row, replicate h [row])
    with (replicate h [r] ++ (mask ≫= λ row : list bool, replicate h [row]))%list.
  destruct (decide (i < h)) as [Hlt|Hge].
  - rewrite Nat.div_small in Hi by done. injection Hi as ->.
    rewrite lookup_app_l by by rewrite length_replicate.
    by apply lookup_replicate_2.
  - rewrite lookup_app_r by (rewrite length_replicate; lia). rewrite length_replicate.
    apply IH. replace i with ((i - h) + 1 * h) in Hi by lia.
    rewrite Nat.div_add in Hi by done. by rewrite Nat.add_1_r in Hi.
Qed.

(** [masked_fill_]: an entry whose mask bit is false becomes the fill value,
    an entry whose mask bit is true stays. *)
Lemma masked_fill_not_lookup (h : nat) (mask : list (list bool))
    (sim out : tensor3 R) (value : R) i j l s row (keep : bool) :
  h ≠ 0 →
  masked_fill_not sim (repeat_mask h mask) value = Ok out →
  lookup3 sim i j l = Some s →
  mask !! (i `div` h) = Some row → row !! l = Some keep →
  lookup3 out i j l = Some (if keep then s else value).
Proof.
  intros Hh Hout Hs Hrow Hkeep. unfold masked_fill_not in Hout. unfold lookup3 in *.
  destruct (sim !! i) as [sm|] eqn:Hi; [simpl in Hs|done].
  destruct (expand_to_lookup _ _ _ _ _ _ _ Hout Hi (repeat_mask_lookup _ _ _ _ Hh Hrow))
    as (om & -> & Hom). simpl.
  destruct (sm !! j) as [sr|] eqn:Hj; [simpl in Hs|done].
  destruct (expand_to_lookup_one _ _ _ _ _ _ Hom Hj) as (or & -> & Hor). simpl.
  destruct (expand_to_lookup _ _ _ _ _ _ _ Hor Hs Hkeep) as (z & -> & [= <-]). done.
Qed.
End tensor_facts.

(** ** Layers *)

Section layers.
Context {R : Type} `{Torch R}.

Lemma wf_linear_init (init : string → nat → nat → R) name i o b :
  wf_linear (Linear.__init__ init name i o b).
Proof.
  split; simpl; [apply length_tabulate|]. destruct b; [|done].
  intros v [= <-]. apply length_tabulate.
Qed.

Lemma forward_row_in (l : Linear.t R) (v o : list R) :
  Linear.forward_row l v = Ok o → length v = Linear.in_features l.
Proof.
  unfold Linear.forward_row. intros (u & Hu%require_Ok & _)%bind_Ok.
  by apply bool_decide_eq_true_1 in Hu.
Qed.

Lemma forward_row_out (l : Linear.t R) (v o : list R) :
  wf_linear l → Linear.forward_row l v = Ok o → length o = Linear.out_features l.
Proof.
  intros [Hw Hb]. unfold Linear.forward_row. intros Hf.
  apply bind_Ok in Hf as (u & _ & Hf). apply bind_Ok in Hf as (y & Hy & Hf).
  apply forM_length in Hy. destruct (Linear.bias l) as [b|].
  - apply ew1_length in Hf; [congruence|]. rewrite (Hb b); congruence.
  - injection Hf as <-. congruence.
Qed.

Lemma linear_forward_in (l : Linear.t R) x y :
  Linear.forward l x = Ok y → rows_have (Linear.in_features l) x.
Proof.
  unfold Linear.forward. intros Hf%forM_Forall2.
  induction Hf as [|m m' x x' Hm _ IH]; constructor; [|done].
  apply forM_Forall2 in Hm. clear -Hm.
  induction Hm as [|v o m m' Hv _ IH]; constructor; [|done].
  by eapply forward_row_in.
Qed.

Lemma linear_forward_out (l : Linear.t R) x y :
  wf_linear l → Linear.forward l x = Ok y → rows_have (Linear.out_features l) y.
Proof.
  intros Hwf. unfold Linear.forward. intros Hf%forM_Forall2.
  induction Hf as [|m m' x x' Hm _ IH]; constructor; [|done].
  apply forM_Forall2 in Hm. clear -Hm Hwf.
  induction Hm as [|v o m m' Hv _ IH]; constructor; [|done].
  by eapply forward_row_out.
Qed.

Lemma layer_norm_in (ln : LayerNorm.t R) x y :
  LayerNorm.forward ln x = Ok y → rows_have (LayerNorm.normalized_shape ln) x.
Proof.
  unfold LayerNorm.forward. intros Hf%forM_Forall2.
  induction Hf as [|m m' x x' Hm _ IH]; constructor; [|done].
  apply forM_Forall2 in Hm. clear -Hm.
  induction Hm as [|v o m m' Hv _ IH]; constructor; [|done].
  apply bind_Ok in Hv as (u & Hu%require_Ok & _). by apply bool_decide_eq_true_1 in Hu.
Qed.

Lemma group_norm_channels (n : GroupNorm.t R) (x x' : tensor4 R) :
  GroupNorm.forward n x = Ok x' →
  Forall (λ s, length s = GroupNorm.num_channels n) x.
Proof.
  unfold GroupNorm.forward. intros Hf. apply bind_Ok in Hf as (u & _ & Hf).
  apply forM_Forall2 in Hf. clear u.
  induction Hf as [|s s' x x' Hs _ IH]; constructor; [|done].
  apply bind_Ok in Hs as (u & Hu%require_Ok & _). by apply bool_decide_eq_true_1 in Hu.
Qed.

Lemma forward_sample_channels (c : Conv2d.t R) (s o : tensor3 R) :
  Conv2d.forward_sample c s = Ok o → length s = Conv2d.in_channels c.
Proof.
  unfold Conv2d.forward_sample. intros (u & Hu%require_Ok & _)%bind_Ok.
  by apply bool_decide_eq_true_1 in Hu.
Qed.
End layers.

(** ** The reference attention engine *)

Section cross_attention.
Context {R : Type} `{Torch R}.
Import CrossAttention.

Implicit Types (self : CrossAttention.t R) (x : tensor3 R) (fr : frame R).
Implicit Types (context q_injected k_injected v_injected : option (tensor3 R)).
Implicit Types (mask : option (list (list bool))).
Implicit Types (injection_config : option (gmap string R)).

(** What a returning call of [forward] has computed, local by local. *)
Lemma forward_frame_inv self x context mask q_injected k_injected v_injected
    injection_config fr :
  forward_frame self x context mask q_injected k_injected v_injected
    injection_config = Ok fr →
  match injection_config with
  | Some cfg => getitem cfg "T" = Ok (f_attn_matrix_scale fr)
                ∧ getitem cfg "gamma" = Ok (f_q_mix fr)
  | None => f_attn_matrix_scale fr = r1 ∧ f_q_mix fr = r0
  end
  ∧ match q_injected with
    | None => project (to_q self) (heads self) x = Ok (f_q fr)
    | Some q_uncond => ∃ q_in q_,
        cat_repeat (dim0 x) q_uncond = Ok q_in
        ∧ project (to_q self) (heads self) x = Ok q_
        ∧ ew3 radd (muls3 q_in (f_q_mix fr)) (muls3 q_ (rsub r1 (f_q_mix fr)))
          = Ok (f_q fr)
    end
  ∧ match k_injected with
    | None => project (to_k self) (heads self) (default_ context x) = Ok (f_k fr)
    | Some k_uncond => cat_repeat (dim0 x) k_uncond = Ok (f_k fr)
    end
  ∧ match v_injected with
    | None => project (to_v self) (heads self) (default_ context x) = Ok (f_v fr)
    | Some v_uncond => cat_repeat (dim0 x) v_uncond = Ok (f_v fr)
    end
  ∧ similarity (f_q fr) (f_k fr) = Ok (f_sim_qk fr)
  ∧ f_sim_T fr = (if exists_ q_injected || exists_ k_injected
                  then muls3 (f_sim_qk fr) (f_attn_matrix_scale fr)
                  else f_sim_qk fr)
  ∧ f_sim_scaled fr = muls3 (f_sim_T fr) (scale self)
  ∧ match mask with
    | Some mask => masked_fill_not (f_sim_scaled fr) (repeat_mask (heads self) mask)
                     max_neg_value
    | None => Ok (f_sim_scaled fr)
    end = Ok (f_sim_masked fr)
  ∧ f_attn fr = map (map F_softmax) (f_sim_masked fr)
  ∧ ∃ out, einsum_bij_bjd (f_attn fr) (f_v fr) = Ok out
           ∧ merge_heads (heads self) out = Ok (f_out fr).
Proof.
  unfold forward_frame. intros Hf.
  apply bind_Ok in Hf as ([T gamma] & Hcfg & Hf).
  apply bind_Ok in Hf as (qq & Hq & Hf).
  apply bind_Ok in Hf as (kk & Hk & Hf).
  apply bind_Ok in Hf as (vv & Hv & Hf).
  apply bind_Ok in Hf as (sim & Hsim & Hf).
  apply bind_Ok in Hf as (simm & Hmask & Hf).
  apply bind_Ok in Hf as (o & Ho & Hf).
  apply bind_Ok in Hf as (o' & Ho' & Hf).
  injection Hf as <-. simpl.
  split.
  { destruct injection_config as [cfg|]; [|by injection Hcfg as <- <-].
    inv_ok Hcfg. by injection Hcfg as <- <-. }
  split.
  { destruct q_injected as [q_uncond|]; [|done]. inv_ok Hq. eauto. }
  split; [by destruct k_injected|].
  split; [by destruct v_injected|].
  repeat (split; [done|]). eauto.
Qed.

(** The state a returning call leaves on the module. *)
Lemma forward_state self x context mask q_injected k_injected v_injected
    injection_config self' y :
  forward self x context mask q_injected k_injected v_injected injection_config
    = Ok (self', y) →
  ∃ fr, forward_frame self x context mask q_injected k_injected v_injected
          injection_config = Ok fr
        ∧ q self' = Some (f_q fr) ∧ k self' = Some (f_k fr)
        ∧ v self' = Some (f_v fr) ∧ attn self' = Some (f_attn fr).
Proof.
  unfold forward. intros Hf. inv_ok Hf. injection Hf as <- <-. eauto 10.
Qed.


(** C3 (as the code has it). Whenever [q_injected] or [k_injected] is given,
    the similarity matrix is multiplied by [attn_matrix_scale], which is
    [injection_config['T']] when a configuration is given, and every entry
    is multiplied alike; when neither is given, also when [v_injected] alone
    is, the similarity matrix is left as the product gave it. *)
Theorem sim_scaled_by_T_when_q_or_k_injected self x context mask q_injected
    k_injected v_injected injection_config fr :
  forward_frame self x context mask q_injected k_injected v_injected
    injection_config = Ok fr →
  similarity (f_q fr) (f_k fr) = Ok (f_sim_qk fr)
  ∧ (∀ cfg, injection_config = Some cfg →
       cfg !! "T" = Some (f_attn_matrix_scale fr))
  ∧ (is_Some q_injected ∨ is_Some k_injected →
       f_sim_T fr = muls3 (f_sim_qk fr) (f_attn_matrix_scale fr)
       ∧ ∀ i j l, lookup3 (f_sim_T fr) i j l
                  = (λ s, rmul s (f_attn_matrix_scale fr))
                      <$> lookup3 (f_sim_qk fr) i j l)
  ∧ (q_injected = None → k_injected = None → f_sim_T fr = f_sim_qk fr)
  ∧ f_sim_scaled fr = muls3 (f_sim_T fr) (scale self).
Proof.
  intros (Hcfg & _ & _ & _ & Hsim & HT & Hscaled & _)%forward_frame_inv.
  split; [done|]. split; [|split; [|split; [|done]]].
  - intros cfg ->. destruct Hcfg as [HTcfg _]. unfold getitem in HTcfg.
    destruct (cfg !! "T"); [|done]. by injection HTcfg as ->.
  - intros Hinj.
    assert (exists_ q_injected || exists_ k_injected = true) as Hb.
    { destruct Hinj as [[? ->]|[? ->]]; simpl; [done|]. apply orb_true_r. }
    rewrite Hb in HT. split; [done|]. intros i j l.
    rewrite HT. unfold muls3. by rewrite lookup3_map3.
  - by intros -> ->.
Qed.

(** C2 (as the code has it). With exact arithmetic and an injected query of
    the shape of the projected one, [gamma = 0] leaves purely the fresh
    projection of [x] as the query, and [gamma = 1] leaves purely the
    injected query, repeated over the batch. *)
Theorem gamma_endpoints `{!ExactArith R} self x context mask q_uncond k_injected
    v_injected cfg fr q_in q_fresh :
  forward_frame self x context mask (Some q_uncond) k_injected v_injected
    (Some cfg) = Ok fr →
  cat_repeat (dim0 x) q_uncond = Ok q_in →
  project (to_q self) (heads self) x = Ok q_fresh →
  same_shape3 q_in q_fresh →
  (cfg !! "gamma" = Some r0 → f_q fr = q_fresh)
  ∧ (cfg !! "gamma" = Some r1 → f_q fr = q_in).
Proof.
  intros ([_ Hgamma] & (q_in' & q_' & Hcat' & Hproj' & Hmix) & _)%forward_frame_inv
    Hcat Hproj Hs.
  rewrite Hcat in Hcat'. injection Hcat' as <-.
  rewrite Hproj in Hproj'. injection Hproj' as <-.
  unfold getitem in Hgamma.
  split; intros Hg; rewrite Hg in Hgamma; injection Hgamma as Hgamma;
    rewrite <- Hgamma in Hmix.
  - rewrite mix_gamma_zero in Hmix by done. by injection Hmix.
  - rewrite mix_gamma_one in Hmix by done. by injection Hmix.
Qed.

(** C9. With [T = 1.0] in the configuration, and [x * 1.0 = x] on elements,
    the multiplication of the similarity matrix is a no-op: the scores of a
    call that takes the scale path are those of a call with neither query
    nor key injected that multiplies the same [Q] and [K], at every later
    stage up to the attention probabilities. *)
Theorem T_one_scores_unchanged self x x' context context' mask q_injected
    k_injected v_injected v_injected' cfg injection_config' fr fr' :
  (∀ a : R, rmul a r1 = a) →
  cfg !! "T" = Some r1 →
  forward_frame self x context mask q_injected k_injected v_injected (Some cfg)
    = Ok fr →
  forward_frame self x' context' mask None None v_injected' injection_config'
    = Ok fr' →
  f_q fr = f_q fr' → f_k fr = f_k fr' →
  f_sim_T fr = f_sim_qk fr
  ∧ f_sim_T fr = f_sim_T fr'
  ∧ f_sim_scaled fr = f_sim_scaled fr'
  ∧ f_sim_masked fr = f_sim_masked fr'
  ∧ f_attn fr = f_attn fr'.
Proof.
  intros Hone HT
    ([HTcfg _] & _ & _ & _ & Hsim & HsT & Hsc & Hm & Ha & _)%forward_frame_inv
    (_ & _ & _ & _ & Hsim' & HsT' & Hsc' & Hm' & Ha' & _)%forward_frame_inv Hq Hk.
  unfold getitem in HTcfg. rewrite HT in HTcfg. injection HTcfg as HTcfg.
  rewrite <- HTcfg, muls3_one in HsT by done.
  assert (f_sim_T fr = f_sim_qk fr) as E1 by by destruct (_ || _).
  simpl in HsT'. rewrite Hq, Hk, Hsim' in Hsim. injection Hsim as Hsim.
  assert (f_sim_T fr = f_sim_T fr') as E2 by congruence.
  assert (f_sim_scaled fr = f_sim_scaled fr') as E3 by congruence.
  assert (f_sim_masked fr = f_sim_masked fr') as E4.
  { rewrite E3 in Hm. rewrite Hm' in Hm. by injection Hm. }
  repeat split; congruence.
Qed.

(** C10, with its conditions.  Without an [injection_config] the mixing
    weight is [0.] and the scale [1.0].  For a batch that is not empty (the
    replication of [q_injected] returns), an injected query that, replicated
    over the batch, has the extents of the projected one, and exact
    arithmetic on finite values, a [q_injected] changes nothing: the call
    computes the locals, the module state and the output of the call without
    [q_injected], and the query is the fresh projection of [x]. *)
Theorem q_injected_without_config_is_ignored `{!ExactArith R} self x context mask
    q_uncond k_injected v_injected q_in q_fresh :
  cat_repeat (dim0 x) q_uncond = Ok q_in →
  project (to_q self) (heads self) x = Ok q_fresh →
  same_shape3 q_in q_fresh →
  forward_frame self x context mask (Some q_uncond) k_injected v_injected None
    = forward_frame self x context mask None k_injected v_injected None
  ∧ forward self x context mask (Some q_uncond) k_injected v_injected None
    = forward self x context mask None k_injected v_injected None
  ∧ ∀ fr, forward_frame self x context mask (Some q_uncond) k_injected v_injected
            None = Ok fr →
          f_q_mix fr = r0 ∧ f_attn_matrix_scale fr = r1 ∧ f_q fr = q_fresh.
Proof.
  intros Hcat Hproj Hs.
  assert (forward_frame self x context mask (Some q_uncond) k_injected v_injected None
          = forward_frame self x context mask None k_injected v_injected None) as E.
  { unfold forward_frame. simpl. rewrite Hcat, Hproj. simpl.
    rewrite mix_gamma_zero by done. simpl.
    destruct (match k_injected with Some _ => _ | None => _ end) as [kk|]; [simpl|done].
    destruct (match v_injected with Some _ => _ | None => _ end) as [vv|]; [simpl|done].
    destruct (similarity q_fresh kk) as [sim|]; [simpl|done].
    rewrite muls3_one by apply mul_1_r.
    by destruct (exists_ k_injected). }
  split; [done|]. split; [unfold forward; by rewrite E|].
  intros fr Hfr. pose proof Hfr as ([HT Hg] & _)%forward_frame_inv.
  do 2 (split; [done|]).
  rewrite E in Hfr. apply forward_frame_inv in Hfr as (_ & Hq & _).
  simpl in Hq. rewrite Hproj in Hq. by injection Hq.
Qed.

(** X8. The part of the masking that does not depend on the softmax kernel:
    with a mask, the scores handed to softmax keep the scaled score where
    the mask is true and hold [max_neg_value] where it is false; the flag of
    score [(i, j, l)] is flag [l] of row [i div heads] of the mask, the same
    for every query [j]. *)
Lemma masked_scores_filled self x context (m : list (list bool)) q_injected k_injected
    v_injected injection_config fr i j l s row (keep : bool) :
  forward_frame self x context (Some m) q_injected k_injected v_injected
    injection_config = Ok fr →
  heads self ≠ 0 →
  lookup3 (f_sim_scaled fr) i j l = Some s →
  m !! (i `div` heads self) = Some row → row !! l = Some keep →
  lookup3 (f_sim_masked fr) i j l = Some (if keep then s else max_neg_value)
  ∧ f_attn fr = map (map F_softmax) (f_sim_masked fr).
Proof.
  intros (_ & _ & _ & _ & _ & _ & _ & Hm & Ha & _)%forward_frame_inv Hh Hs Hrow Hkeep.
  split; [|done]. by eapply masked_fill_not_lookup.
Qed.
End cross_attention.

(** ** Runs of the reference engine on integers *)

Lemma exact_Z_arith (xformers : bool) : @ExactArith Z (exact_Z xformers).
Proof. split; simpl; intros; lia. Qed.

Section cross_attention_runs.
Import CrossAttention.
Local Existing Instance exact_Z_arith.
Local Open Scope Z_scope.
Local Existing Instance torch_Z.

Example attn_demo_built : __init__ ramp "attn" 2 None 2 1 0 = Ok attn_demo.
Proof. reflexivity. Qed.

(** A head width of zero has no scale: the constructor ends in
    [ZeroDivisionError]. *)
Example zero_head_width_raises :
  __init__ ramp "attn" 2 None 2 0 0 = Raise ZeroDivisionError.
Proof. reflexivity. Qed.


Lemma gamma_zero_is_the_fresh_query :
  ∃ fr0 fr1 q_in q_fresh,
    forward_frame attn_demo x_demo None None (Some q_demo) None None
      (Some (T_gamma 1 0)) = Ok fr0
    ∧ forward_frame attn_demo x_demo None None (Some q_demo) None None
        (Some (T_gamma 1 1)) = Ok fr1
    ∧ cat_repeat (dim0 x_demo) q_demo = Ok q_in
    ∧ project (to_q attn_demo) (heads attn_demo) x_demo = Ok q_fresh
    ∧ q_in = [[[5]]; [[6]]; [[5]]; [[6]]]
    ∧ q_fresh = [[[15]]; [[22]]; [[7]]; [[10]]]
    ∧ f_q fr0 = q_fresh ∧ f_q fr0 ≠ q_in
    ∧ f_q fr1 = q_in ∧ f_q fr1 ≠ q_fresh.
Proof.
  eexists _, _, _, _.
  do 4 (split; [vm_compute; reflexivity|]).
  repeat split; done.
Qed.

Lemma gamma_endpoints_witness :
  ∃ fr0 fr1 q_in q_fresh,
    forward_frame attn_demo x_demo None None (Some q_demo) None None
      (Some (T_gamma 1 0)) = Ok fr0
    ∧ forward_frame attn_demo x_demo None None (Some q_demo) None None
        (Some (T_gamma 1 1)) = Ok fr1
    ∧ cat_repeat (dim0 x_demo) q_demo = Ok q_in
    ∧ project (to_q attn_demo) (heads attn_demo) x_demo = Ok q_fresh
    ∧ same_shape3 q_in q_fresh
    ∧ T_gamma 1 0 !! "gamma" = Some r0 ∧ f_q fr0 = q_fresh
    ∧ T_gamma 1 1 !! "gamma" = Some r1 ∧ f_q fr1 = q_in.
Proof.
  eexists _, _, _, _.
  do 4 (split; [vm_compute; reflexivity|]).
  assert (same_shape3 (A := Z) (B := Z)
            [[[5]]; [[6]]; [[5]]; [[6]]] [[[15]]; [[22]]; [[7]]; [[10]]]) as Hs
    by (repeat constructor).
  split; [exact Hs|]. split; [reflexivity|]. split; [|split; [reflexivity|]].
  - apply (gamma_endpoints (H := torch_Z) attn_demo x_demo None None q_demo None None
             (T_gamma 1 0) _ [[[5]]; [[6]]; [[5]]; [[6]]]);
      [vm_compute; reflexivity ..|exact Hs|reflexivity].
  - apply (gamma_endpoints (H := torch_Z) attn_demo x_demo None None q_demo None None
             (T_gamma 1 1) _ _ [[[15]]; [[22]]; [[7]]; [[10]]]);
      [vm_compute; reflexivity ..|exact Hs|reflexivity].
Defined.

Lemma v_injected_alone_leaves_sim_unscaled :
  ∃ fr,
    forward_frame attn_demo x_demo None None None None (Some v_demo)
      (Some (T_gamma 2 1)) = Ok fr
    ∧ T_gamma 2 1 !! "T" = Some 2
    ∧ similarity (f_q fr) (f_k fr) = Ok [[[225]]; [[484]]; [[49]]; [[100]]]
    ∧ f_sim_T fr = [[[225]]; [[484]]; [[49]]; [[100]]]
    ∧ f_sim_T fr ≠ muls3 [[[225]]; [[484]]; [[49]]; [[100]]] 2.
Proof.
  eexists. split; [vm_compute; reflexivity|]. repeat split; done.
Qed.

Lemma sim_scaled_by_T_when_q_or_k_injected_witness :
  ∃ fr,
    forward_frame attn_demo x_demo None None None (Some k_demo) None
      (Some (T_gamma 2 1)) = Ok fr
    ∧ f_sim_qk fr = [[[30]]; [[198]]; [[14]]; [[90]]]
    ∧ f_sim_T fr = [[[60]]; [[396]]; [[28]]; [[180]]]
    ∧ similarity (f_q fr) (f_k fr) = Ok (f_sim_qk fr)
    ∧ (∀ cfg, Some (T_gamma 2 1) = Some cfg →
         cfg !! "T" = Some (f_attn_matrix_scale fr))
    ∧ (is_Some (@None (tensor3 Z)) ∨ is_Some (Some k_demo) →
         f_sim_T fr = muls3 (f_sim_qk fr) (f_attn_matrix_scale fr)
         ∧ ∀ i j l, lookup3 (f_sim_T fr) i j l
                    = (λ s, rmul s (f_attn_matrix_scale fr))
                        <$> lookup3 (f_sim_qk fr) i j l)
    ∧ (@None (tensor3 Z) = None → Some k_demo = None → f_sim_T fr = f_sim_qk fr)
    ∧ f_sim_scaled fr = muls3 (f_sim_T fr) (scale attn_demo).
Proof.
  eexists. split; [vm_compute; reflexivity|]. do 2 (split; [reflexivity|]).
  apply (sim_scaled_by_T_when_q_or_k_injected (H := torch_Z) attn_demo x_demo None
           None None (Some k_demo) None (Some (T_gamma 2 1))).
  vm_compute. reflexivity.
Defined.

(** The key projected from the first input, injected back. *)
Lemma T_one_scores_unchanged_witness :
  ∃ fr fr',
    (∀ a : Z, rmul a r1 = a)
    ∧ T_gamma 1 0 !! "T" = Some r1
    ∧ forward_frame attn_demo [[[3; 4]]] None None None (Some [[[15]]; [[22]]]) None
        (Some (T_gamma 1 0)) = Ok fr
    ∧ forward_frame attn_demo [[[3; 4]]] None None None None None None = Ok fr'
    ∧ f_q fr = f_q fr' ∧ f_k fr = f_k fr'
    ∧ f_sim_T fr = f_sim_qk fr
    ∧ f_sim_T fr = f_sim_T fr'
    ∧ f_sim_scaled fr = f_sim_scaled fr'
    ∧ f_sim_masked fr = f_sim_masked fr'
    ∧ f_attn fr = f_attn fr'.
Proof.
  eexists _, _.
  split; [intros a; simpl; lia|]. split; [reflexivity|].
  do 2 (split; [vm_compute; reflexivity|]). do 2 (split; [reflexivity|]).
  apply (T_one_scores_unchanged (H := torch_Z) attn_demo [[[3; 4]]] [[[3; 4]]] None
           None None None (Some [[[15]]; [[22]]]) None None (T_gamma 1 0) None);
    [intros a; simpl; lia|reflexivity|vm_compute; reflexivity ..].
Defined.

(** C10, where it fails as stated: an injected query of two rows per head
    on an input of one token.  Without a configuration its values are
    weighted by zero, but its extents still reach the query through
    broadcasting: the query kept on the module and the output have two rows
    where the call without [q_injected] has one. *)
Lemma q_injected_of_other_extents_is_not_ignored :
  ∃ self1 y1 self0 y0,
    forward attn_demo [[[3; 4]]] None None (Some [[[5]; [6]]; [[7]; [8]]]) None None
      None = Ok (self1, y1)
    ∧ forward attn_demo [[[3; 4]]] None None None None None None = Ok (self0, y0)
    ∧ q self1 = Some [[[15]; [15]]; [[22]; [22]]]
    ∧ q self0 = Some [[[15]]; [[22]]]
    ∧ length <$> y1 = [2%nat]
    ∧ length <$> y0 = [1%nat]
    ∧ y1 ≠ y0.
Proof.
  eexists _, _, _, _.
  do 2 (split; [vm_compute; reflexivity|]).
  repeat split; done.
Qed.

Lemma q_injected_without_config_is_ignored_witness :
  ∃ q_in q_fresh y,
    cat_repeat (dim0 x_demo) q_demo = Ok q_in
    ∧ project (to_q attn_demo) (heads attn_demo) x_demo = Ok q_fresh
    ∧ same_shape3 q_in q_fresh
    ∧ forward attn_demo x_demo None None None None None None = Ok y
    ∧ forward_frame attn_demo x_demo None None (Some q_demo) None None None
      = forward_frame attn_demo x_demo None None None None None None
    ∧ forward attn_demo x_demo None None (Some q_demo) None None None
      = forward attn_demo x_demo None None None None None None
    ∧ ∀ fr, forward_frame attn_demo x_demo None None (Some q_demo) None None None
            = Ok fr →
            f_q_mix fr = r0 ∧ f_attn_matrix_scale fr = r1 ∧ f_q fr = q_fresh.
Proof.
  eexists _, _, _.
  do 2 (split; [vm_compute; reflexivity|]).
  assert (same_shape3 (A := Z) (B := Z)
            [[[5]]; [[6]]; [[5]]; [[6]]] [[[15]]; [[22]]; [[7]]; [[10]]]) as Hs
    by (repeat constructor).
  split; [exact Hs|]. split; [vm_compute; reflexivity|].
  eapply (q_injected_without_config_is_ignored (H := torch_Z) attn_demo x_demo None
            None q_demo None None); [vm_compute; reflexivity ..|exact Hs].
Defined.
End cross_attention_runs.

(** ** The memory-efficient engine *)

Section memory_efficient.
Context {R : Type} `{Torch R}.
Import MemoryEfficientCrossAttention.

(** C7. [MemoryEfficientCrossAttention.forward] with a mask never returns an
    output.  Whenever the same call without the mask returns, the masked call
    raises [NotImplementedError]; and an exception of another kind is one the
    call without the mask raises as well, so the mask is never dropped. *)
Theorem forward_with_mask_raises (self : t R) (x : tensor3 R)
    (context : option (tensor3 R)) (mask : list (list bool)) :
  ¬ returns (forward self x context (Some mask))
  ∧ (returns (forward self x context None) →
     forward self x context (Some mask) = Raise NotImplementedError)
  ∧ (∀ e, forward self x context (Some mask) = Raise e →
          e ≠ NotImplementedError → forward self x context None = Raise e).
Proof.
  unfold forward.
  destruct (Linear.forward (to_q self) x) as [qq|e0]; simpl;
    [|by split_and!; [apply not_returns_Raise|intros []|]].
  destruct (Linear.forward (to_k self) (default_ context x)) as [kk|e0]; simpl;
    [|by split_and!; [apply not_returns_Raise|intros []|]].
  destruct (Linear.forward (to_v self) (default_ context x)) as [vv|e0]; simpl;
    [|by split_and!; [apply not_returns_Raise|intros []|]].
  destruct (to_heads self (dim0 qq) qq) as [qh|e0]; simpl;
    [|by split_and!; [apply not_returns_Raise|intros []|]].
  destruct (to_heads self (dim0 qq) kk) as [kh|e0]; simpl;
    [|by split_and!; [apply not_returns_Raise|intros []|]].
  destruct (to_heads self (dim0 qq) vv) as [vh|e0]; simpl;
    [|by split_and!; [apply not_returns_Raise|intros []|]].
  destruct (if XFORMERS_IS_AVAILBLE then _ else _) as [out|e0]; simpl;
    [|by split_and!; [apply not_returns_Raise|intros []|]].
  split_and!; [apply not_returns_Raise|done|by intros e [= <-]].
Qed.
End memory_efficient.

Lemma forward_with_mask_raises_witness :
  let self := @MemoryEfficientCrossAttention.__init__ Z ramp "attn" 2 None 2 1 0%Z in
  returns (@MemoryEfficientCrossAttention.forward Z (exact_Z true) self x_demo None None)
  ∧ @MemoryEfficientCrossAttention.forward Z (exact_Z true) self x_demo None
      (Some [[true]; [false]]) = Raise NotImplementedError.
Proof.
  intros self.
  assert (returns (@MemoryEfficientCrossAttention.forward Z (exact_Z true) self x_demo
                     None None)) as Hret
    by (eexists; vm_compute; reflexivity).
  split; [exact Hret|].
  exact (proj1 (proj2 (forward_with_mask_raises (H := exact_Z true) self x_demo None
                         [[true]; [false]])) Hret).
Defined.

(** ** Transformer block *)

Section transformer_block.
Context {R : Type} `{Torch R}.
Import BasicTransformerBlock.

Implicit Types (self : BasicTransformerBlock.t R) (x : tensor3 R).
Implicit Types (context q_injected k_injected v_injected : option (tensor3 R)).
Implicit Types (injection_config : option (gmap string R)).

(** X12. The first sublayer is called on the normalised input alone:
    whatever [disable_self_attn] and [context] are, its keys and values are
    projected from that input (or injected), never from the external
    context. *)
Lemma attn1_attends_own_input self x context q_injected k_injected v_injected
    injection_config self' y a :
  _forward self (x, context, q_injected, k_injected, v_injected, injection_config)
    = Ok (self', y) →
  attn1 self = Softmax a →
  ∃ n1 a' fr,
    LayerNorm.forward (norm1 self) x = Ok n1
    ∧ attn1 self' = Softmax a'
    ∧ CrossAttention.forward_frame a n1 None None q_injected k_injected v_injected
        injection_config = Ok fr
    ∧ CrossAttention.k a' = Some (CrossAttention.f_k fr)
    ∧ CrossAttention.v a' = Some (CrossAttention.f_v fr)
    ∧ (k_injected = None →
       CrossAttention.project (CrossAttention.to_k a) (CrossAttention.heads a) n1
       = Ok (CrossAttention.f_k fr))
    ∧ (v_injected = None →
       CrossAttention.project (CrossAttention.to_v a) (CrossAttention.heads a) n1
       = Ok (CrossAttention.f_v fr)).
Proof.
  unfold _forward. intros Hf Ha. rewrite Ha in Hf. simpl in Hf.
  apply bind_Ok in Hf as (n1 & Hn1 & Hf).
  apply bind_Ok in Hf as ([a1' x_] & Hcall & Hf).
  apply bind_Ok in Hcall as ([m' y1] & Hfw & Hcall). injection Hcall as <- <-.
  apply forward_state in Hfw as (fr & Hfr & _ & Hk & Hv & _).
  inv_ok Hf. injection Hf as <- <-. simpl.
  exists n1, m', fr. do 5 (split; [done|]).
  apply forward_frame_inv in Hfr as (_ & _ & Hkk & Hvv & _).
  split; intros ->; done.
Qed.

(** X13. The second sublayer is called with the external context and
    without any injection: its keys and values are projected from the
    context, or from its own normalised input when there is none, and its
    queries from that input. *)
Lemma attn2_attends_context self x context q_injected k_injected v_injected
    injection_config self' y a :
  _forward self (x, context, q_injected, k_injected, v_injected, injection_config)
    = Ok (self', y) →
  attn2 self = Softmax a →
  ∃ n2 a' fr,
    attn2 self' = Softmax a'
    ∧ CrossAttention.forward_frame a n2 context None None None None None = Ok fr
    ∧ CrossAttention.k a' = Some (CrossAttention.f_k fr)
    ∧ CrossAttention.v a' = Some (CrossAttention.f_v fr)
    ∧ CrossAttention.project (CrossAttention.to_k a) (CrossAttention.heads a)
        (default_ context n2) = Ok (CrossAttention.f_k fr)
    ∧ CrossAttention.project (CrossAttention.to_v a) (CrossAttention.heads a)
        (default_ context n2) = Ok (CrossAttention.f_v fr)
    ∧ CrossAttention.project (CrossAttention.to_q a) (CrossAttention.heads a) n2
      = Ok (CrossAttention.f_q fr).
Proof.
  unfold _forward. intros Hf Ha. rewrite Ha in Hf. simpl in Hf.
  apply bind_Ok in Hf as (n1 & Hn1 & Hf).
  apply bind_Ok in Hf as ([a1' x_] & Hcall & Hf).
  apply bind_Ok in Hf as (x1 & Hx1 & Hf).
  apply bind_Ok in Hf as (n2 & Hn2 & Hf).
  apply bind_Ok in Hf as ([a2' y2] & Hcall2 & Hf).
  apply bind_Ok in Hcall2 as ([m' y2'] & Hfw & Hcall2). injection Hcall2 as <- <-.
  apply forward_state in Hfw as (fr & Hfr & _ & Hk & Hv & _).
  inv_ok Hf. injection Hf as <- <-. simpl.
  exists n2, m', fr. do 4 (split; [done|]).
  by apply forward_frame_inv in Hfr as (_ & Hq & Hkk & Hvv & _).
Qed.

(** With the fused kernels available the first sublayer cannot be called at
    all: the memory-efficient engine takes no injection keywords. *)
Lemma xformers_block_raises self x context q_injected k_injected v_injected
    injection_config m :
  attn1 self = SoftmaxXformers m →
  ¬ returns (forward self x context q_injected k_injected v_injected
               injection_config).
Proof.
  unfold forward, checkpoint, _forward. intros ->.
  apply not_returns_bind. intros n1 _. simpl. apply not_returns_Raise.
Qed.

Lemma block_forward_rows (dim : nat) (b b' : BasicTransformerBlock.t R) x context
    q_injected k_injected v_injected injection_config t :
  block_width dim b →
  BasicTransformerBlock.forward b x context q_injected k_injected v_injected
    injection_config = Ok (b', t) →
  rows_have dim t ∧ block_width dim b'.
Proof.
  intros (Hn & Hwf & Hout). unfold BasicTransformerBlock.forward, checkpoint,
    BasicTransformerBlock._forward. intros Hf.
  apply bind_Ok in Hf as (n1 & _ & Hf).
  apply bind_Ok in Hf as ([a1 x_] & _ & Hf).
  apply bind_Ok in Hf as (x1 & _ & Hf).
  apply bind_Ok in Hf as (n2 & _ & Hf).
  apply bind_Ok in Hf as ([a2 y2] & _ & Hf).
  apply bind_Ok in Hf as (x2 & _ & Hf).
  apply bind_Ok in Hf as (n3 & Hn3 & Hf).
  apply bind_Ok in Hf as (y3 & Hy3 & Hf).
  apply bind_Ok in Hf as (x3 & Hx3 & [= <- <-]).
  split; [|done].
  apply layer_norm_in in Hn3. rewrite Hn in Hn3.
  unfold FeedForward.forward in Hy3. apply bind_Ok in Hy3 as (g & _ & Hy3).
  apply linear_forward_out in Hy3; [|done]. rewrite Hout in Hy3.
  by eapply ew3_rows_have.
Qed.

Lemma block_init_width (init : string → nat → nat → R) name dim n_heads d_head dropout
    context_dim gated_ff ckpt dsa b :
  BasicTransformerBlock.__init__ init name dim n_heads d_head dropout context_dim
    gated_ff ckpt dsa = Ok b →
  block_width dim b.
Proof.
  unfold BasicTransformerBlock.__init__. intros Hb.
  apply bind_Ok in Hb as (u & _ & Hb). apply bind_Ok in Hb as (cls & _ & Hb).
  apply bind_Ok in Hb as (a1 & _ & Hb). apply bind_Ok in Hb as (a2 & _ & [= <-]).
  split; [done|]. split; [apply wf_linear_init|done].
Qed.

Lemma run_blocks_rows (dim : nat) i blocks contexts t q_injected k_injected v_injected
    injection_config blocks' t' :
  Forall (block_width dim) blocks → rows_have dim t →
  SpatialTransformer.run_blocks i blocks contexts t q_injected k_injected v_injected
    injection_config = Ok (blocks', t') →
  rows_have dim t'.
Proof.
  intros Hbs. revert i t blocks' t'.
  induction Hbs as [|b blocks Hb _ IH]; intros i t blocks' t' Ht Hr; simpl in Hr.
  - by injection Hr as <- <-.
  - apply bind_Ok in Hr as (c & _ & Hr).
    apply bind_Ok in Hr as ([b1 t1] & Hb1 & Hr).
    apply bind_Ok in Hr as ([rest t2] & Hrest & [= <- <-]).
    apply (block_forward_rows dim) in Hb1 as [Ht1 _]; [|done].
    by eapply IH.
Qed.
End transformer_block.

Section transformer_block_runs.
Import BasicTransformerBlock.
Local Existing Instance torch_Z.
Local Open Scope Z_scope.

(** C4, where the code departs from it.  A block built with
    [disable_self_attn=True] for a context of width 2 has a first sublayer
    whose key projection expects that width, but [_forward] calls the
    sublayer without the context: it projects the block's own input of
    width 1 and the call ends in a shape error, while the sublayer called
    with the context returns. *)
Theorem disable_self_attn_context_not_passed :
  ∃ blk a1 n1,
    __init__ ramp "block" 1 1 1 0 (Some 2%nat) true true true = Ok blk
    ∧ disable_self_attn blk = true
    ∧ attn1 blk = Softmax a1
    ∧ Linear.in_features (CrossAttention.to_k a1) = 2%nat
    ∧ LayerNorm.forward (norm1 blk) [[[3]]] = Ok n1
    ∧ CrossAttention.forward a1 n1 None None None None None None
      = Raise RuntimeError
    ∧ forward blk [[[3]]] (Some [[[1; 2]]]) None None None None = Raise RuntimeError
    ∧ returns (CrossAttention.forward a1 n1 (Some [[[1; 2]]]) None None None None None).
Proof.
  eexists _, _, _. split; [vm_compute; reflexivity|].
  do 2 (split; [reflexivity|]). split; [reflexivity|].
  split; [vm_compute; reflexivity|]. do 2 (split; [vm_compute; reflexivity|]).
  eexists. vm_compute. reflexivity.
Qed.

(** The same block built without [disable_self_attn] runs, and its two
    sublayers attend over the input and over the context. *)
Example self_attn_block_runs :
  ∃ blk blk' y a1 a2,
    __init__ ramp "block" 1 1 1 0 (Some 2%nat) true true false = Ok blk
    ∧ forward blk [[[3]]] (Some [[[1; 2]]]) None None None None = Ok (blk', y)
    ∧ attn1 blk' = Softmax a1 ∧ CrossAttention.k a1 = Some [[[3]]]
    ∧ attn2 blk' = Softmax a2 ∧ CrossAttention.k a2 = Some [[[7]]].
Proof.
  eexists _, _, _, _, _. split; [vm_compute; reflexivity|].
  split; [vm_compute; reflexivity|]. repeat split; reflexivity.
Qed.
End transformer_block_runs.

(** ** Spatial transformer *)

Section spatial_transformer.
Context {R : Type} `{Torch R}.
Import SpatialTransformer.

Implicit Types (self : SpatialTransformer.t R) (x : tensor4 R).
Implicit Types (blocks : list (BasicTransformerBlock.t R)).
Implicit Types (contexts : list (option (tensor3 R))).
Implicit Types (q_injected k_injected v_injected : option (tensor3 R)).
Implicit Types (injection_config : option (gmap string R)).

(** The loop reads [context[i]] for every block: it returns only if the
    list of contexts reaches as far as the blocks do. *)
Lemma run_blocks_in_range i blocks contexts (t : tensor3 R) q_injected k_injected
    v_injected injection_config :
  returns (run_blocks i blocks contexts t q_injected k_injected v_injected
             injection_config) →
  i + length blocks ≤ length contexts ∨ blocks = [].
Proof.
  revert i t. induction blocks as [|block rest IH]; intros i t [r Hr]; [by right|].
  left. simpl in Hr.
  apply bind_Ok in Hr as (c & Hc & Hr).
  apply bind_Ok in Hr as ([block' t'] & Hb & Hr).
  apply bind_Ok in Hr as ([rest' t''] & Hrest & Hr).
  destruct (contexts !! i) as [c'|] eqn:Hi; [|done].
  apply lookup_lt_Some in Hi.
  destruct (IH (S i) t') as [Hle| ->]; [by eexists|simpl; lia|simpl; lia].
Qed.

(** C6 (as the code has it). A context that is not a list is wrapped into a
    one-element list.  Block [i] consumes entry [i] of the list, so the
    first block receives the single context, a transformer of depth one
    calls its block with exactly that context, and with two or more blocks
    the call does not return. *)
Theorem single_context_serves_first_block_only self x
    (c : option (tensor3 R)) q_injected k_injected v_injected injection_config :
  forward self x (NotList c) q_injected k_injected v_injected injection_config
  = forward self x (IsList [c]) q_injected k_injected v_injected injection_config
  ∧ (∀ block rest contexts (t : tensor3 R) i,
       run_blocks i (block :: rest) contexts t q_injected k_injected v_injected
         injection_config
       = (ci ← match contexts !! i with Some ci => Ok ci | None => Raise IndexError end;
          '(block', t') ← BasicTransformerBlock.forward block t ci q_injected
                            k_injected v_injected injection_config;
          '(rest', t'') ← run_blocks (S i) rest contexts t' q_injected k_injected
                            v_injected injection_config;
          Ok (block' :: rest', t'')))
  ∧ (∀ block (t : tensor3 R),
       run_blocks 0 [block] [c] t q_injected k_injected v_injected injection_config
       = ('(block', t') ← BasicTransformerBlock.forward block t c q_injected
                            k_injected v_injected injection_config;
          Ok ([block'], t')))
  ∧ (2 ≤ length (transformer_blocks self) →
     ¬ returns (forward self x (NotList c) q_injected k_injected v_injected
                  injection_config)).
Proof.
  split; [done|]. split; [done|]. split.
  - intros block t. simpl.
    destruct (BasicTransformerBlock.forward _ _ _ _ _ _ _) as [[block' t']|e]; done.
  - intros Hlen. unfold forward.
    apply not_returns_bind. intros x1 _. apply not_returns_bind. intros x2 _.
    apply not_returns_bind. intros x3 _. apply not_returns_bind.
    intros [blocks' t] Hrun.
    destruct (run_blocks_in_range 0 (transformer_blocks self) [c] x3 q_injected
                k_injected v_injected injection_config) as [Hle|Hnil];
      [by eexists|simpl in Hle; lia|].
    rewrite Hnil in Hlen. simpl in Hlen. lia.
Qed.

(** A convolutional transformer whose output projection is zero returns its
    input, whenever it returns a batch of the extent of the input. *)
Lemma zero_proj_out_is_identity `{!ExactArith R} (self self' : SpatialTransformer.t R)
    (proj_in proj_out : Conv2d.t R) (x y : tensor4 R)
    (context : one_or_list (option (tensor3 R)))
    (q_injected k_injected v_injected : option (tensor3 R))
    (injection_config : option (gmap string R)) :
  SpatialTransformer.forward self x context q_injected k_injected v_injected
    injection_config = Ok (self', y) →
  SpatialTransformer.proj self = SpatialTransformer.Convs proj_in proj_out →
  Conv2d.weight proj_out
  = replicate (Conv2d.out_channels proj_out) (replicate (Conv2d.in_channels proj_out) r0) →
  Conv2d.bias proj_out = replicate (Conv2d.out_channels proj_out) r0 →
  Conv2d.in_channels proj_out ≠ 0 →
  Conv2d.out_channels proj_out = GroupNorm.num_channels (SpatialTransformer.norm self) →
  regular4 x →
  length y = length x →
  y = x.
Proof.
  intros Hfw Hproj Hw Hb Hin Hout Hreg Hlen.
  unfold SpatialTransformer.forward in Hfw. rewrite Hproj in Hfw.
  apply bind_Ok in Hfw as (x1 & Hx1 & Hfw).
  apply bind_Ok in Hfw as (x2 & _ & Hfw).
  apply bind_Ok in Hfw as (x4 & _ & Hfw).
  apply bind_Ok in Hfw as ([blocks' x5] & _ & Hfw).
  apply bind_Ok in Hfw as (x5' & [= <-] & Hfw).
  apply bind_Ok in Hfw as (x6 & Hx6 & Hfw).
  apply bind_Ok in Hfw as (x7 & Hx7 & Hfw).
  apply bind_Ok in Hfw as (y' & Hy & [= _ <-]).
  apply group_norm_channels in Hx1.
  assert (Forall (λ o, o = zeros3 (Conv2d.out_channels proj_out) (dim2 x) (dim3 x)) x7)
    as Hzeros.
  { apply forM_Forall2 in Hx6. apply forM_Forall2 in Hx7.
    clear -Hx6 Hx7 Hw Hb Hin ExactArith0. revert x5 Hx6.
    induction Hx7 as [|s o x6 x7 Hs _ IH]; intros x5 Hx6; [constructor|].
    apply Forall2_cons_inv_r in Hx6 as (m & x5' & Hm & Hx6' & ->).
    constructor; [|by eapply IH].
    pose proof (forward_sample_channels _ _ _ Hs) as Hlen.
    rewrite zero_conv_sample in Hs by done.
    injection Hs as <-. apply tokens_to_grid_shape in Hm as [_ Hshape].
    unfold zeros3. f_equal.
    apply regular_zeros_dims; [|done]. intros ->. simpl in Hlen. congruence. }
  apply (broadcast2_absorb (ew3 radd) x7); [exact Hy| |done].
  intros z s Hz Hs.
  rewrite Forall_forall in Hzeros. rewrite (Hzeros z Hz).
  rewrite Forall_forall in Hx1. unfold regular4 in Hreg. rewrite Forall_forall in Hreg.
  apply ew3_zeros_l; [rewrite Hout; by apply Hx1|by apply Hreg].
Qed.

(** At construction the convolutional transformer is such a one. *)
Theorem fresh_conv_transformer_is_identity `{!ExactArith R}
    (init : string → nat → nat → R) (in_channels n_heads d_head depth : nat)
    (dropout : R) (context_dim : one_or_list (option nat))
    (disable_self_attn use_checkpoint : bool)
    (self self' : SpatialTransformer.t R) (x y : tensor4 R)
    (context : one_or_list (option (tensor3 R)))
    (q_injected k_injected v_injected : option (tensor3 R))
    (injection_config : option (gmap string R)) :
  SpatialTransformer.__init__ init in_channels n_heads d_head depth dropout context_dim
    disable_self_attn false use_checkpoint = Ok self →
  n_heads * d_head ≠ 0 →
  regular4 x →
  SpatialTransformer.forward self x context q_injected k_injected v_injected
    injection_config = Ok (self', y) →
  length y = length x →
  y = x.
Proof.
  intros Hinit Hinner Hreg Hfw Hlen.
  unfold SpatialTransformer.__init__, Normalize, GroupNorm.__init__ in Hinit.
  apply bind_Ok in Hinit as (norm & Hnorm & Hinit).
  apply bind_Ok in Hnorm as (u & _ & [= <-]).
  apply bind_Ok in Hinit as (blocks & _ & [= <-]).
  destruct (zero_module_conv init "proj_out" (n_heads * d_head) in_channels)
    as (Hin & Hout & Hw & Hb).
  by eapply (zero_proj_out_is_identity _ _ _ _ _ _ _ _ _ _ _ Hfw).
Qed.

(** With [use_linear] and as many channels as the attention is not wide, no
    call on a grid with pixels returns anything: the rows the blocks return
    are [n_heads * d_head] wide and the output projection takes [in_channels]. *)
Theorem fresh_linear_transformer_returns_nothing
    (init : string → nat → nat → R) (in_channels n_heads d_head depth : nat)
    (dropout : R) (context_dim : one_or_list (option nat))
    (disable_self_attn use_checkpoint : bool)
    (self self' : SpatialTransformer.t R) (x y : tensor4 R)
    (context : one_or_list (option (tensor3 R)))
    (q_injected k_injected v_injected : option (tensor3 R))
    (injection_config : option (gmap string R)) :
  SpatialTransformer.__init__ init in_channels n_heads d_head depth dropout context_dim
    disable_self_attn true use_checkpoint = Ok self →
  in_channels ≠ n_heads * d_head →
  dim2 x * dim3 x ≠ 0 →
  SpatialTransformer.forward self x context q_injected k_injected v_injected
    injection_config = Ok (self', y) →
  y = [].
Proof.
  intros Hinit Hne Hpix Hfw.
  unfold SpatialTransformer.__init__ in Hinit.
  apply bind_Ok in Hinit as (norm & _ & Hinit).
  apply bind_Ok in Hinit as (blocks & Hblocks & [= <-]).
  assert (Forall (block_width (n_heads * d_head)) blocks) as Hbs.
  { apply forM_Forall2 in Hblocks. clear -Hblocks.
    induction Hblocks as [|d b ds bs Hb _ IH]; constructor; [|done].
    apply bind_Ok in Hb as (cd & _ & Hb). by eapply block_init_width. }
  unfold SpatialTransformer.forward in Hfw. simpl in Hfw.
  apply bind_Ok in Hfw as (x1 & _ & Hfw).
  apply bind_Ok in Hfw as (x4 & Hx4 & Hfw).
  apply bind_Ok in Hfw as ([blocks' x5] & Hrun & Hfw). simpl in Hfw.
  apply bind_Ok in Hfw as (x5o & Hx5o & Hfw).
  apply bind_Ok in Hfw as (x6 & Hx6 & Hfw).
  apply bind_Ok in Hfw as (y' & Hy & [= _ <-]).
  apply linear_forward_out in Hx4; [|apply wf_linear_init]. simpl in Hx4.
  apply (run_blocks_rows (n_heads * d_head)) in Hrun; [|done..].
  pose proof (linear_forward_in _ _ _ Hx5o) as Hin. simpl in Hin.
  assert (x5o = []) as ->; [|simpl in Hx6; injection Hx6 as <-; by eapply ew4_nil_l].
  unfold Linear.forward in Hx5o. apply forM_Forall2 in Hx5o.
  destruct Hx5o as [|m mo x5 x5o Hm _]; [done|]. exfalso.
  apply Forall_cons in Hrun as [Hrun _]. apply Forall_cons in Hin as [Hin _].
  destruct m as [|row m].
  - simpl in Hm. injection Hm as <-. simpl in Hx6.
    apply bind_Ok in Hx6 as (s & Hs & _). unfold tokens_to_grid in Hs.
    apply bind_Ok in Hs as (u & Hu%require_Ok & _).
    apply bool_decide_eq_true_1 in Hu. simpl in Hu. lia.
  - apply Forall_cons in Hrun as [Hrun _]. apply Forall_cons in Hin as [Hin _]. congruence.
Qed.
End spatial_transformer.

Section spatial_transformer_runs.
Import SpatialTransformer.
Local Existing Instance torch_Z.
Local Open Scope Z_scope.

(** Two blocks and a single context, on a batch of two samples of one
    pixel: the second block finds no entry; with the context listed twice
    the call returns. *)
Lemma single_context_depth_two_raises :
  ∃ st,
    __init__ ramp 32 1 1 2 0 (IsList [Some 1%nat; Some 1%nat]) false false true = Ok st
    ∧ length (transformer_blocks st) = 2%nat
    ∧ forward st x32 (NotList (Some c_demo)) None None None None = Raise IndexError
    ∧ returns (forward st x32 (IsList [Some c_demo; Some c_demo]) None None None None).
Proof.
  eexists. split; [vm_compute; reflexivity|]. split; [reflexivity|].
  split; [vm_compute; reflexivity|]. eexists. vm_compute. reflexivity.
Qed.

(** C5, where the code departs from it.  With [use_linear] the output
    projection is built as [nn.Linear(in_channels, inner_dim)]: zeroed, but
    taking rows of [in_channels] entries while the blocks hand it rows of
    [inner_dim] entries.  For 32 channels and one head of width one, on a
    batch of two samples of one pixel, the fresh transformer raises a shape
    error instead of returning [x]; the convolutional one, built with the
    extents the other way round, returns [x]. *)
Theorem use_linear_fresh_transformer_raises :
  ∃ st proj_in proj_out st_conv conv_in conv_out,
    __init__ ramp 32 1 1 1 0 (NotList (Some 1%nat)) false true true = Ok st
    ∧ proj st = Linears proj_in proj_out
    ∧ Linear.in_features proj_out = 32%nat ∧ Linear.out_features proj_out = 1%nat
    ∧ Linear.weight proj_out = [replicate 32 0] ∧ Linear.bias proj_out = Some [0]
    ∧ forward st x32 (NotList (Some c_demo)) None None None None = Raise RuntimeError
    ∧ __init__ ramp 32 1 1 1 0 (NotList (Some 1%nat)) false false true = Ok st_conv
    ∧ proj st_conv = Convs conv_in conv_out
    ∧ Conv2d.in_channels conv_out = 1%nat ∧ Conv2d.out_channels conv_out = 32%nat
    ∧ snd <$> forward st_conv x32 (NotList (Some c_demo)) None None None None
      = Ok x32.
Proof.
  eexists _, _, _, _, _, _. split; [vm_compute; reflexivity|].
  split; [reflexivity|]. do 4 (split; [reflexivity|]).
  split; [vm_compute; reflexivity|]. split; [vm_compute; reflexivity|].
  split; [reflexivity|]. do 2 (split; [reflexivity|]).
  vm_compute. reflexivity.
Qed.

(** With as many channels as the attention is wide the linear transformer
    is the identity at initialisation too. *)
Example use_linear_square_is_identity :
  ∃ st,
    __init__ ramp 32 2 16 1 0 (NotList (Some 1%nat)) false true true = Ok st
    ∧ snd <$> forward st x32 (NotList (Some c_demo)) None None None None = Ok x32.
Proof.
  eexists. split; [vm_compute; reflexivity|]. vm_compute. reflexivity.
Qed.
End spatial_transformer_runs.

(** * Further properties *)

(** ** Cutting and joining lists *)

Section chunks_facts.
Context {R : Type} `{Torch R}.

Lemma tabulate_lookup {A} (n : nat) (f : nat → A) (i : nat) :
  i < n → tabulate n f !! i = Some (f i).
Proof.
  intros Hi. unfold tabulate. rewrite list_lookup_fmap, lookup_seq_lt by done. done.
Qed.

Lemma tabulate_ext {A} (n : nat) (f g : nat → A) :
  (∀ i, i < n → f i = g i) → tabulate n f = tabulate n g.
Proof.
  intros Hfg. unfold tabulate. apply list_fmap_ext. intros i k Hk.
  apply lookup_seq in Hk as [-> Hk]. by apply Hfg.
Qed.

Lemma tabulate_lookup_id {A} (l : list A) (d : A) :
  tabulate (length l) (λ i, default d (l !! i)) = l.
Proof.
  apply list_eq. intros i. destruct (decide (i < length l)) as [Hi|Hi].
  - rewrite tabulate_lookup by done. destruct (lookup_lt_is_Some_2 l i Hi) as [x Hx].
    by rewrite Hx.
  - rewrite (lookup_ge_None_2 l) by lia. apply lookup_ge_None_2.
    rewrite length_tabulate. lia.
Qed.

(** Cutting a concatenation of [k] pieces of [n] entries gives the pieces back. *)
Lemma chunks_mjoin {A} (n : nat) (ls : list (list A)) :
  Forall (λ l, length l = n) ls → chunks (length ls) n (mjoin ls) = ls.
Proof.
  induction 1 as [|l ls Hl _ IH]; [done|]. simpl.
  rewrite take_app_length', drop_app_length' by done. by rewrite IH.
Qed.

Lemma chunks_length {A} (k n : nat) (l : list A) : length (chunks k n l) = k.
Proof. revert l. induction k as [|k IH]; intros l; simpl; [done|]. by rewrite IH. Qed.

Lemma chunks_lookup {A} (k n : nat) (l : list A) (j : nat) :
  j < k → chunks k n l !! j = Some (take n (drop (j * n) l)).
Proof.
  revert l j. induction k as [|k IH]; intros l j Hj; [lia|].
  destruct j as [|j]; simpl; [done|].
  rewrite IH by lia. by rewrite drop_drop.
Qed.

Lemma chunks_Forall_length {A} (k n : nat) (l : list A) :
  length l = k * n → Forall (λ c, length c = n) (chunks k n l).
Proof.
  revert l. induction k as [|k IH]; intros l Hl; simpl; constructor.
  - rewrite length_take. lia.
  - apply IH. rewrite length_drop. lia.
Qed.

Lemma mjoin_chunks {A} (k n : nat) (l : list A) :
  length l = k * n → mjoin (chunks k n l) = l.
Proof.
  revert l. induction k as [|k IH]; intros l Hl; simpl.
  - symmetry. apply nil_length_inv. lia.
  - rewrite IH by (rewrite length_drop; lia). apply take_drop.
Qed.

Lemma length_mjoin_const {A} (n : nat) (ls : list (list A)) :
  Forall (λ l, length l = n) ls → length (mjoin ls) = length ls * n.
Proof.
  induction 1 as [|l ls Hl _ IH]; [done|]. simpl. rewrite length_app, IH. lia.
Qed.

Lemma bind_mjoin {A B} (f : A → list B) (l : list A) : l ≫= f = mjoin (f <$> l).
Proof.
  induction l as [|x l IH]; [done|].
  change ((x :: l) ≫= f) with ((f x ++ (l ≫= f))%list). by rewrite IH.
Qed.

Lemma chunks_tabulate {A} (k n : nat) (l : list A) :
  chunks k n l = tabulate k (λ j, take n (drop (j * n) l)).
Proof.
  apply list_eq. intros j. destruct (decide (j < k)) as [Hj|Hj].
  - by rewrite chunks_lookup, tabulate_lookup.
  - rewrite !lookup_ge_None_2; [done|rewrite length_tabulate; lia|rewrite chunks_length; lia].
Qed.

Lemma heads_of_rows (h d : nat) (m : list (list R)) :
  Forall (λ row, length row = h * d) m →
  tabulate (length m) (λ i, heads_of h d m ≫= λ hm : list (list R), default [] (hm !! i)) = m.
Proof.
  intros Hm. trans (tabulate (length m) (λ i, default [] (m !! i)));
    [|apply tabulate_lookup_id].
  apply tabulate_ext. intros i Hi.
  destruct (lookup_lt_is_Some_2 m i Hi) as [r Hr]. rewrite Hr. simpl.
  rewrite bind_mjoin. unfold heads_of, tabulate. rewrite <- list_fmap_compose.
  erewrite list_fmap_ext; [|intros j k _; simpl; by rewrite list_lookup_fmap, Hr].
  simpl. fold (tabulate h (λ j, take d (drop (j * d) r))).
  rewrite <- chunks_tabulate. apply mjoin_chunks.
  rewrite Forall_forall in Hm. apply Hm. by eapply list_elem_of_lookup_2.
Qed.

Lemma split_heads_Ok (h d n c : nat) (t : tensor3 R) :
  h ≠ 0 → c = h * d → regular3 n c t →
  split_heads h t = Ok (t ≫= heads_of h (dim2 t `div` h)).
Proof.
  intros Hh -> Ht. unfold split_heads.
  assert (dim2 t `mod` h = 0) as Hmod.
  { unfold dim2, dim1. destruct t as [|[|r m] t]; simpl; try by apply Nat.Div0.mod_0_l.
    apply Forall_cons in Ht as [[_ Hm] _]. apply Forall_cons in Hm as [-> _].
    by rewrite Nat.mul_comm, Nat.Div0.mod_mul. }
  rewrite bool_decide_eq_true_2 by done. done.
Qed.

(** X1. Splitting the last axis into heads and merging the heads again,
    as the two [rearrange] calls of [CrossAttention.forward] do, gives back
    the tensor: for [h] heads and a regular batch of rows of [h * d] entries
    both calls succeed and their composition is the identity. *)
Theorem merge_split_heads (h d n c : nat) (t : tensor3 R) :
  h ≠ 0 → c = h * d → regular3 n c t →
  split_heads h t ≫= merge_heads h = Ok t.
Proof.
  intros Hh Hc Ht. rewrite (split_heads_Ok h d n c) by done. simpl.
  set (d' := dim2 t `div` h). unfold merge_heads.
  assert (length (t ≫= heads_of h d') = length t * h) as Hlen.
  { rewrite bind_mjoin. rewrite (length_mjoin_const h), length_fmap; [done|].
    apply Forall_fmap, Forall_forall. intros m _. apply length_tabulate. }
  rewrite Hlen, Nat.Div0.mod_mul, bool_decide_eq_true_2 by done. simpl. f_equal.
  rewrite Nat.div_mul by done. rewrite bind_mjoin.
  rewrite <- (length_fmap (heads_of h d') t) at 1.
  rewrite chunks_mjoin
    by (apply Forall_fmap, Forall_forall; intros m _; apply length_tabulate).
  rewrite <- list_fmap_compose. rewrite <- (list_fmap_id t) at 2.
  apply list_fmap_ext. intros i m Hm. simpl.
  unfold regular3 in Ht. rewrite Forall_forall in Ht.
  destruct (Ht m (list_elem_of_lookup_2 _ _ _ Hm)) as [Hn Hrows].
  assert (dim1 (mjoin (heads_of h d' <$> t)) = n) as ->.
  { destruct t as [|m0 t]; [done|]. simpl.
    destruct (Ht m0 ltac:(left)) as [Hn0 _].
    unfold dim1, heads_of, tabulate. destruct h as [|h]; [done|]. simpl.
    by rewrite length_fmap. }
  rewrite <- Hn. apply heads_of_rows.
  destruct m as [|r m']; [constructor|].
  assert (d' = d) as ->; [|by subst c].
  unfold d'. assert (dim2 t = c) as ->; [|subst c; by rewrite Nat.mul_comm, Nat.div_mul].
  destruct t as [|m0 t]; [done|]. destruct (Ht m0 ltac:(left)) as [Hn0 Hr0].
  unfold dim2, dim1. simpl. destruct m0 as [|r0 m0]; [simpl in *; congruence|].
  simpl. by apply Forall_cons in Hr0 as [-> _].
Qed.
End chunks_facts.

(** ** Heads of the memory-efficient engine *)

Section heads_layout.
Context {R : Type} `{Torch R}.
Import MemoryEfficientCrossAttention.

Lemma fmap_mjoin {A B} (f : A → B) (x : list (list A)) :
  f <$> mjoin x = mjoin ((λ m : list A, f <$> m) <$> x).
Proof. induction x as [|m x IH]; [done|]. simpl. by rewrite fmap_app, IH. Qed.

Lemma chunks_fmap_mjoin {A B} (n : nat) (f : A → B) (x : list (list A)) :
  Forall (λ m, length m = n) x →
  chunks (length x) n (f <$> mjoin x) = (λ m : list A, f <$> m) <$> x.
Proof.
  intros Hx. rewrite fmap_mjoin.
  rewrite <- (length_fmap (λ m : list A, f <$> m) x).
  apply chunks_mjoin. apply Forall_fmap. eapply Forall_impl; [exact Hx|].
  intros m Hm. simpl. by rewrite length_fmap.
Qed.

Lemma mjoin_mjoin {A} (w : list (list (list A))) :
  mjoin (mjoin w) = mjoin (mjoin <$> w).
Proof.
  induction w as [|l w IH]; [done|]. simpl. by rewrite join_app, IH.
Qed.

Lemma chunks_app {A} (a b n : nat) (l1 l2 : list A) :
  length l1 = a * n → (chunks (a + b) n (l1 ++ l2) = chunks a n l1 ++ chunks b n l2)%list.
Proof.
  revert l1. induction a as [|a IH]; intros l1 Hl; simpl.
  - by rewrite (nil_length_inv l1).
  - simpl in Hl. rewrite take_app_le, drop_app_le by lia.
    rewrite IH by (rewrite length_drop; lia). done.
Qed.

(** Cutting the concatenated rows into pieces of [d] cuts every row. *)
Lemma chunks_rows {A} (h d : nat) (rows : list (list A)) :
  Forall (λ r, length r = h * d) rows →
  chunks (length rows * h) d (mjoin rows) = mjoin (chunks h d <$> rows).
Proof.
  induction 1 as [|r rows Hr _ IH]; [done|]. simpl.
  by rewrite chunks_app, IH.
Qed.

Lemma regular3_rows {A} (n c : nat) (x : list (list (list A))) :
  regular3 n c x →
  Forall (λ m, length m = n) x ∧ Forall (λ r, length r = c) (mjoin x)
  ∧ length (mjoin x) = length x * n.
Proof.
  intros Hx. split; [|split].
  - eapply Forall_impl; [exact Hx|]. by intros m [].
  - apply Forall_forall. intros r (m & Hr & Hm)%list_elem_of_join.
    unfold regular3 in Hx. rewrite Forall_forall in Hx.
    destruct (Hx m Hm) as [_ Hrows]. rewrite Forall_forall in Hrows. by apply Hrows.
  - apply length_mjoin_const. eapply Forall_impl; [exact Hx|]. by intros m [].
Qed.

(** [reshape(b, n, h, d)] of a regular [b, n, h*d] tensor cuts every row. *)
Lemma reshape4_rows (h d n : nat) (x : tensor3 R) :
  regular3 n (h * d) x →
  reshape4 (length x) n h d (flatten3 x)
  = Ok ((λ m : list (list R), chunks h d <$> m) <$> x).
Proof.
  intros Hx. destruct (regular3_rows _ _ _ Hx) as (Hn & Hc & Hl).
  unfold reshape4, flatten3.
  rewrite bool_decide_eq_true_2
    by (rewrite (length_mjoin_const (h * d)) by done; rewrite Hl; lia).
  simpl. f_equal.
  rewrite <- Hl, chunks_rows by done.
  rewrite <- (length_fmap (chunks h d) (mjoin x)) at 1.
  rewrite chunks_mjoin
    by (apply Forall_fmap, Forall_forall; intros r _; apply chunks_length).
  by apply chunks_fmap_mjoin.
Qed.

(** [reshape(k, n, d)] of the row-major entries of a regular [k, n, d] tensor. *)
Lemma reshape3_flatten (n d : nat) (q : tensor3 R) :
  regular3 n d q → reshape3 (length q) n d (flatten3 q) = Ok q.
Proof.
  intros Hq. destruct (regular3_rows _ _ _ Hq) as (Hn & Hc & Hl).
  unfold reshape3, flatten3.
  rewrite bool_decide_eq_true_2
    by (rewrite (length_mjoin_const d) by done; rewrite Hl; lia).
  simpl. f_equal. rewrite <- Hl, chunks_mjoin by done. by apply chunks_mjoin.
Qed.

Lemma heads_of_regular (h d n : nat) (x : tensor3 R) :
  regular3 n (h * d) x → regular3 n d (x ≫= heads_of h d).
Proof.
  intros Hx. unfold regular3 in *. rewrite Forall_forall in Hx.
  apply Forall_forall. intros q (m & Hq & Hm)%list_elem_of_bind.
  destruct (Hx m Hm) as [Hn Hrows]. unfold heads_of, tabulate in Hq.
  apply list_elem_of_fmap in Hq as (j & -> & Hj%elem_of_seq).
  rewrite length_fmap. split; [done|].
  apply Forall_fmap. eapply Forall_impl; [exact Hrows|]. intros r Hr. simpl.
  rewrite length_take, length_drop, Hr. nia.
Qed.

Lemma length_bind_heads_of (h d : nat) (x : tensor3 R) :
  length (x ≫= heads_of h d) = length x * h.
Proof.
  rewrite bind_mjoin, (length_mjoin_const h), length_fmap; [done|].
  apply Forall_fmap, Forall_forall. intros m _. apply length_tabulate.
Qed.

(** X2. The reshape-permute-reshape of the memory-efficient engine lays
    the heads out as the [rearrange] of the reference engine does: on a
    regular batch of rows of [heads * dim_head] entries the two give the
    same tensor. *)
Theorem to_heads_is_split_heads (self : t R) (n : nat) (x : tensor3 R) :
  heads self ≠ 0 → n ≠ 0 →
  regular3 n (heads self * dim_head self) x →
  to_heads self (length x) x = split_heads (heads self) x.
Proof.
  intros Hh Hn Hx. set (h := heads self) in *. set (d := dim_head self) in *.
  rewrite (split_heads_Ok h d n (h * d)) by done.
  destruct x as [|m0 x0] eqn:Ex; [by destruct h|]. rewrite <- Ex in *.
  assert (dim1 x = n) as Hd1.
  { rewrite Ex in *. apply Forall_cons in Hx as [[Hm0 _] _]. done. }
  assert (dim2 x `div` h = d) as ->.
  { rewrite Ex in *. apply Forall_cons in Hx as [[Hm0 Hr0] _].
    unfold dim2, dim1. simpl. destruct m0 as [|r0 m0]; [simpl in Hm0; lia|].
    apply Forall_cons in Hr0 as [Hr0 _]. simpl. rewrite Hr0.
    by rewrite Nat.mul_comm, Nat.div_mul. }
  unfold to_heads. fold h d. rewrite Hd1, reshape4_rows by done. simpl.
  assert (permute_0213 ((λ m : list (list R), chunks h d <$> m) <$> x)
          = heads_of h d <$> x) as ->.
  { unfold permute_0213. rewrite <- list_fmap_compose. apply list_fmap_ext.
    intros i m Hm. simpl. unfold regular3 in Hx. rewrite Forall_forall in Hx.
    destruct (Hx m (list_elem_of_lookup_2 _ _ _ Hm)) as [Hlen _].
    assert (dim1 (chunks h d <$> m) = h) as ->.
    { destruct m as [|r m]; [simpl in Hlen; lia|]. unfold dim1. simpl.
      apply chunks_length. }
    unfold heads_of. apply tabulate_ext. intros j Hj.
    rewrite <- list_fmap_compose. apply list_fmap_ext. intros k r _. simpl.
    by rewrite chunks_lookup. }
  change (flatten4 (heads_of h d <$> x)) with (flatten3 (mjoin (heads_of h d <$> x))).
  rewrite <- bind_mjoin, <- (length_bind_heads_of h d x).
  apply reshape3_flatten. by apply heads_of_regular.
Qed.

Lemma chunks_Forall {A} (P : A → Prop) (k n : nat) (l : list A) :
  Forall P l → Forall (Forall P) (chunks k n l).
Proof.
  revert l. induction k as [|k IH]; intros l Hl; simpl; constructor.
  - by apply Forall_take.
  - apply IH. by apply Forall_drop.
Qed.

(** X3. The way back of the memory-efficient engine agrees with the
    [rearrange] of the reference engine that merges the heads. *)
Theorem from_heads_is_merge_heads (self : t R) (b n : nat) (out : tensor3 R) :
  heads self ≠ 0 → n ≠ 0 →
  regular3 n (dim_head self) out → length out = b * heads self →
  from_heads self b out = merge_heads (heads self) out.
Proof.
  intros Hh Hn Hout Hlen. set (h := heads self) in *. set (d := dim_head self) in *.
  destruct (regular3_rows _ _ _ Hout) as (Hrows & Hc & Hl).
  unfold merge_heads. rewrite Hlen, Nat.Div0.mod_mul, bool_decide_eq_true_2 by done.
  simpl. rewrite Nat.div_mul by done.
  destruct (decide (b = 0)) as [->|Hb].
  { simpl in Hlen. apply nil_length_inv in Hlen as ->. by destruct h. }
  assert (dim1 out = n) as Hd1.
  { destruct out as [|m0 out]; [simpl in Hlen; nia|].
    by apply Forall_cons in Hrows as [Hm0 _]. }
  unfold from_heads. fold h d. rewrite Hd1. unfold reshape4, flatten3.
  rewrite bool_decide_eq_true_2
    by (rewrite (length_mjoin_const d) by done; rewrite Hl, Hlen; lia).
  simpl.
  replace (b * h * n) with (length (mjoin out)) by (rewrite Hl, Hlen; lia).
  rewrite chunks_mjoin by done. rewrite <- Hlen, chunks_mjoin by done.
  (* the groups of [h] matrices *)
  set (groups := chunks b h out).
  assert (Forall (λ grp, length grp = h
            ∧ Forall (λ m : list (list R),
                        length m = n ∧ Forall (λ r, length r = d) m) grp) groups)
    as Hgroups.
  { apply Forall_and. split; [apply chunks_Forall_length; lia|].
    by apply chunks_Forall. }
  assert (permute_0213 groups
          = (λ grp : tensor3 R,
               tabulate n (λ i, (λ m : list (list R), default [] (m !! i)) <$> grp))
              <$> groups) as ->.
  { unfold permute_0213. apply list_fmap_ext. intros k grp Hk.
    rewrite Forall_forall in Hgroups.
    destruct (Hgroups grp (list_elem_of_lookup_2 _ _ _ Hk)) as [Hg Hms].
    destruct grp as [|m1 grp]; [simpl in Hg; lia|].
    apply Forall_cons in Hms as [[Hm1 _] _]. unfold dim1. simpl. by rewrite Hm1. }
  unfold reshape3, flatten4.
  set (P := (λ grp : tensor3 R, tabulate n _) <$> groups).
  assert (Forall (λ p : tensor3 R, length p = n
            ∧ Forall (λ w : list (list R),
                        length w = h ∧ Forall (λ r, length r = d) w) p) P) as HP.
  { apply Forall_fmap. eapply Forall_impl; [exact Hgroups|].
    intros grp [Hg Hms]. simpl. rewrite length_tabulate. split; [done|].
    apply Forall_forall. intros w Hw. unfold tabulate in Hw.
    apply list_elem_of_fmap in Hw as (i & -> & Hi%elem_of_seq).
    rewrite length_fmap. split; [done|]. apply Forall_fmap.
    eapply Forall_impl; [exact Hms|]. intros m [Hm Hr]. simpl.
    destruct (lookup_lt_is_Some_2 m i ltac:(lia)) as [r Hri]. rewrite Hri. simpl.
    rewrite Forall_forall in Hr. apply Hr. by eapply list_elem_of_lookup_2. }
  assert (length P = b) as HPlen
    by (unfold P, groups; by rewrite length_fmap, chunks_length).
  assert (Forall (λ p : tensor3 R, length p = n) P) as HPn
    by (eapply Forall_impl; [exact HP|]; by intros p []).
  assert (Forall (λ w : list (list R), length (mjoin w) = h * d) (mjoin P)) as HW.
  { apply Forall_forall. intros w (p & Hw & Hp)%list_elem_of_join.
    rewrite Forall_forall in HP. destruct (HP p Hp) as [_ Hws].
    rewrite Forall_forall in Hws. destruct (Hws w Hw) as [Hwh Hwd].
    by rewrite (length_mjoin_const d), Hwh. }
  assert (length (mjoin P) = b * n) as HWlen
    by (rewrite (length_mjoin_const n), HPlen by done; done).
  rewrite mjoin_mjoin.
  rewrite bool_decide_eq_true_2.
  2:{ rewrite (length_mjoin_const (h * d)), length_fmap, HWlen; [lia|].
      by apply Forall_fmap. }
  simpl. f_equal.
  rewrite <- HWlen, <- (length_fmap mjoin (mjoin P)).
  rewrite chunks_mjoin by by apply Forall_fmap.
  rewrite <- HPlen, chunks_fmap_mjoin by done.
  unfold P. rewrite <- list_fmap_compose. apply list_fmap_ext. intros k grp _. simpl.
  unfold tabulate. rewrite <- list_fmap_compose. apply list_fmap_ext. intros j i _.
  simpl. by rewrite bind_mjoin.
Qed.
End heads_layout.

(** ** Grids and token sequences *)

Section grid_tokens.
Context {R : Type} `{Torch R}.

Lemma mjoin_lookup_const {A} (n : nat) (ls : list (list A)) (y x : nat) :
  Forall (λ l, length l = n) ls → x < n →
  mjoin ls !! (y * n + x) = ls !! y ≫= (.!! x).
Proof.
  intros Hls Hx. revert y. induction Hls as [|l ls Hl _ IH]; intros y; [done|].
  destruct y as [|y]; simpl.
  - by rewrite lookup_app_l by lia.
  - rewrite lookup_app_r by lia. rewrite <- IH. f_equal. lia.
Qed.

Lemma grid_to_tokens_eq (s : tensor3 R) :
  grid_to_tokens s
  = mjoin (tabulate (dim1 s) (λ y, tabulate (dim2 s) (λ x, pixel s y x))).
Proof. unfold grid_to_tokens. by rewrite bind_mjoin. Qed.

Lemma regular_sample_dims (h w : nat) (s : tensor3 R) :
  s ≠ [] → h ≠ 0 → regular_sample h w s → dim1 s = h ∧ dim2 s = w.
Proof.
  intros Hs Hh Hreg. destruct s as [|p s]; [done|].
  apply Forall_cons in Hreg as [[Hp Hrows] _]. unfold dim2, dim1. simpl.
  split; [done|]. destruct p as [|r p]; [simpl in Hp; lia|].
  by apply Forall_cons in Hrows as [Hr _].
Qed.

(** Pixel [(y, x)] is token [y * w + x]. *)
Lemma grid_to_tokens_lookup (h w : nat) (s : tensor3 R) (y x : nat) :
  s ≠ [] → regular_sample h w s → y < h → x < w →
  grid_to_tokens s !! (y * w + x) = Some (pixel s y x).
Proof.
  intros Hs Hreg Hy Hx.
  destruct (regular_sample_dims h w s) as [Hd1 Hd2]; [done|lia|done|].
  rewrite grid_to_tokens_eq, Hd1, Hd2.
  rewrite (mjoin_lookup_const w); [|apply Forall_forall|done].
  - rewrite tabulate_lookup by done. simpl. by rewrite tabulate_lookup.
  - intros l Hl. unfold tabulate in Hl. apply list_elem_of_fmap in Hl as (k & -> & _).
    apply length_tabulate.
Qed.

Lemma length_grid_to_tokens (h w : nat) (s : tensor3 R) :
  s ≠ [] → h ≠ 0 → regular_sample h w s → length (grid_to_tokens s) = h * w.
Proof.
  intros Hs Hh Hreg.
  destruct (regular_sample_dims h w s) as [Hd1 Hd2]; [done..|].
  rewrite grid_to_tokens_eq, Hd1, Hd2, (length_mjoin_const w), length_tabulate; [done|].
  apply Forall_forall. intros l Hl. unfold tabulate in Hl.
  apply list_elem_of_fmap in Hl as (k & -> & _). apply length_tabulate.
Qed.

(** X4. The two [rearrange] calls of [SpatialTransformer.forward] are
    inverse to each other: flattening a sample of [h] by [w] pixels to
    tokens and cutting the tokens back with the same [h] and [w] recovers
    the sample, and pixel [(y, x)] is token [y * w + x]. *)
Theorem tokens_to_grid_to_tokens (h w : nat) (s : tensor3 R) :
  s ≠ [] → h ≠ 0 → w ≠ 0 → regular_sample h w s →
  tokens_to_grid h w (grid_to_tokens s) = Ok s
  ∧ ∀ y x, y < h → x < w → grid_to_tokens s !! (y * w + x) = Some (pixel s y x).
Proof.
  intros Hs Hh Hw Hreg. split; [|intros y x Hy Hx; by apply (grid_to_tokens_lookup h w)].
  unfold tokens_to_grid.
  rewrite (length_grid_to_tokens h w), bool_decide_eq_true_2 by done. simpl. f_equal.
  assert (dim1 (grid_to_tokens s) = length s) as ->.
  { unfold dim1.
    pose proof (grid_to_tokens_lookup h w s 0 0 Hs Hreg ltac:(lia) ltac:(lia)) as H0.
    simpl in H0. rewrite <- head_lookup in H0. rewrite H0. simpl.
    apply length_pixel. }
  apply list_eq. intros c. destruct (decide (c < length s)) as [Hc|Hc].
  2:{ rewrite (lookup_ge_None_2 s c) by lia. apply lookup_ge_None_2.
      rewrite length_tabulate. lia. }
  rewrite tabulate_lookup by done.
  destruct (lookup_lt_is_Some_2 s c Hc) as [plane Hplane]. rewrite Hplane. f_equal.
  pose proof Hreg as Hreg'. unfold regular_sample in Hreg. rewrite Forall_forall in Hreg.
  destruct (Hreg plane (list_elem_of_lookup_2 _ _ _ Hplane)) as [Hph Hrows].
  apply list_eq. intros y. destruct (decide (y < h)) as [Hy|Hy].
  2:{ rewrite (lookup_ge_None_2 plane y) by lia. apply lookup_ge_None_2.
      rewrite length_tabulate. lia. }
  rewrite tabulate_lookup by done.
  destruct (lookup_lt_is_Some_2 plane y ltac:(lia)) as [row Hrow]. rewrite Hrow. f_equal.
  rewrite Forall_forall in Hrows.
  pose proof (Hrows row (list_elem_of_lookup_2 _ _ _ Hrow)) as Hrw.
  apply list_eq. intros x. destruct (decide (x < w)) as [Hx|Hx].
  2:{ rewrite (lookup_ge_None_2 row x) by lia. apply lookup_ge_None_2.
      rewrite length_tabulate. lia. }
  rewrite tabulate_lookup by done.
  rewrite (grid_to_tokens_lookup h w) by done. simpl.
  unfold pixel. rewrite list_lookup_fmap, Hplane. simpl. rewrite Hrow. simpl.
  destruct (lookup_lt_is_Some_2 row x ltac:(lia)) as [a Ha]. by rewrite Ha.
Qed.
End grid_tokens.

(** ** More on the error monad and on broadcasting *)

Section monad_more.
Context {R : Type} `{Torch R}.

Lemma forM_returns {A B} (f : A → result B) (xs : list A) :
  returns (forM f xs) ↔ Forall (λ a, returns (f a)) xs.
Proof.
  induction xs as [|a xs IH]; simpl.
  - split; [constructor|]. intros _. by eexists.
  - split.
    + intros [ys Hys]. apply bind_Ok in Hys as (y & Hy & Hys).
      apply bind_Ok in Hys as (ys' & Hys' & _).
      constructor; [by eexists|]. apply IH. by eexists.
    + intros [[y Hy] [ys Hys]%IH]%Forall_cons. rewrite Hy. simpl. rewrite Hys.
      by eexists.
Qed.

Lemma forM_raises_only {A B} (e : exn) (f : A → result B) (xs : list A) :
  Forall (λ a, returns (f a) ∨ f a = Raise e) xs →
  Exists (λ a, f a = Raise e) xs →
  forM f xs = Raise e.
Proof.
  induction 1 as [|a xs Hx _ IH]; intros Hex; [by apply Exists_nil in Hex|].
  simpl. destruct Hx as [[y Hy]|Hx]; [|by rewrite Hx].
  rewrite Hy. simpl. apply Exists_cons in Hex as [Hex|Hex]; [congruence|].
  by rewrite IH.
Qed.

Lemma forM_fmap_Ok {A B} (f : A → result B) (g : A → B) (xs : list A) :
  Forall (λ a, f a = Ok (g a)) xs → forM f xs = Ok (g <$> xs).
Proof.
  induction 1 as [|a xs Ha _ IH]; [done|]. simpl. by rewrite Ha, IH.
Qed.

Lemma forM_shape {A B} (f : A → result B) (P : A → Prop) (Q : B → Prop) (xs : list A) :
  (∀ a, P a → ∃ c, f a = Ok c ∧ Q c) → Forall P xs →
  ∃ ys, forM f xs = Ok ys ∧ length ys = length xs ∧ Forall Q ys.
Proof.
  intros Hf Hxs. induction Hxs as [|a xs Ha _ (ys & Hys & Hl & HQ)].
  - exists []. by repeat split.
  - destruct (Hf a Ha) as (c & Hc & Hq). exists (c :: ys). simpl.
    rewrite Hc. simpl. rewrite Hys. simpl. split; [done|]. split; [by rewrite Hl|].
    by constructor.
Qed.

Lemma Forall2_of_Forall {A B} (P : A → Prop) (Q : B → Prop) (xs : list A) (ys : list B) :
  length xs = length ys → Forall P xs → Forall Q ys →
  Forall2 (λ a b, P a ∧ Q b) xs ys.
Proof.
  intros Hl Hx. revert ys Hl. induction Hx as [|a xs Ha _ IH]; intros [|b ys] Hl Hy;
    simpl in *; try done; try constructor.
  - split; [done|]. by apply Forall_cons in Hy as [Hb Hy].
  - apply Forall_cons in Hy as [Hb Hy]. apply IH; [lia|done].
Qed.

Lemma broadcast2_shape {A B C} (f : A → B → result C) (P : A → Prop) (P' : B → Prop)
    (Q : C → Prop) (xs : list A) (ys : list B) :
  length xs = length ys → Forall P xs → Forall P' ys →
  (∀ a c, P a → P' c → ∃ r, f a c = Ok r ∧ Q r) →
  ∃ rs, broadcast2 f xs ys = Ok rs ∧ length rs = length xs ∧ Forall Q rs.
Proof.
  intros Hl Hx Hy Hf. unfold broadcast2. rewrite decide_True by done.
  revert ys Hl Hy. induction Hx as [|a xs Ha _ IH]; intros [|c ys] Hl Hy; simpl in *;
    try done.
  - exists []. by repeat split.
  - apply Forall_cons in Hy as [Hc Hy].
    destruct (Hf a c Ha Hc) as (r & Hr & Hq).
    destruct (IH ys ltac:(lia) Hy) as (rs & Hrs & Hlen & HQ).
    exists (r :: rs). rewrite Hr. simpl. rewrite Hrs. simpl.
    split; [done|]. split; [by rewrite Hlen|]. by constructor.
Qed.

Lemma zip_with_fmap_same {A B C D} (op : B → C → D) (f : A → B) (g : A → C) (l : list A) :
  zip_with op (f <$> l) (g <$> l) = (λ a, op (f a) (g a)) <$> l.
Proof. induction l as [|a l IH]; [done|]. simpl. f_equal. apply IH. Qed.

Lemma zip_with_snd {A B} (xs : list A) (ys : list B) :
  length xs = length ys → zip_with (λ _ b, b) xs ys = ys.
Proof.
  revert ys. induction xs as [|a xs IH]; intros [|b ys] Hl; simpl in *; try done.
  f_equal. apply IH. congruence.
Qed.
End monad_more.

(** ** The reference engine: configuration, empty batches, recorded features *)

Section cross_attention_more.
Context {R : Type} `{Torch R}.
Import CrossAttention.

Implicit Types (self : CrossAttention.t R) (x : tensor3 R) (fr : frame R).
Implicit Types (context q_injected k_injected v_injected : option (tensor3 R)).
Implicit Types (mask : option (list (list bool))).

(** X5. A configuration handed to [CrossAttention.forward] must hold both
    keys ['T'] and ['gamma']: when one is missing the call raises [KeyError]
    before anything is projected, whatever the other arguments are, also
    when nothing is injected and neither value would be used. *)
Theorem missing_config_key_raises self x context mask q_injected k_injected v_injected
    (cfg : gmap string R) :
  cfg !! "T" = None ∨ cfg !! "gamma" = None →
  forward self x context mask q_injected k_injected v_injected (Some cfg)
  = Raise KeyError.
Proof.
  intros Hcfg. unfold forward, forward_frame, getitem.
  destruct (cfg !! "T") as [T|]; [|done].
  destruct Hcfg as [?| ->]; done.
Qed.

(** X6. On an empty batch [b = x.shape[0]] is zero, so [torch.cat([t] * b)]
    gets an empty list: as soon as one of the three tensors is injected the
    call does not return. *)
Theorem empty_batch_injection_never_returns self context mask q_injected k_injected
    v_injected (injection_config : option (gmap string R)) :
  exists_ q_injected || exists_ k_injected || exists_ v_injected = true →
  ¬ returns (forward self [] context mask q_injected k_injected v_injected
               injection_config).
Proof.
  intros Hinj [[self' y] Hf]. apply forward_state in Hf as (fr & Hfr & _).
  apply forward_frame_inv in Hfr as (_ & Hq & Hk & Hv & _).
  destruct q_injected as [qi|]; [by destruct Hq as (? & ? & ? & _)|].
  destruct k_injected as [ki|]; [done|].
  destruct v_injected as [vi|]; done.
Qed.

(** X7. Record, then inject.  After a returning call without injection on
    a batch of one, the keys and values left on the module can be injected
    into a second call on the same input: with [T = 1] (or no
    configuration) the second call returns the same output and leaves the
    same state, whatever context it is given, since the context is not read
    when both are injected. *)
Theorem inject_recorded_kv self x context context' mask
    (injection_config : option (gmap string R)) self' y :
  forward self x context mask None None None None = Ok (self', y) →
  length x = 1 →
  (∀ a : R, rmul a r1 = a) →
  match injection_config with
  | Some cfg => cfg !! "T" = Some r1 ∧ is_Some (cfg !! "gamma")
  | None => True
  end →
  forward self' x context' mask None (k self') (v self') injection_config
  = Ok (self', y).
Proof.
  intros Hf Hb Hmul Hcfg.
  unfold forward in Hf. apply bind_Ok in Hf as (fr & Hfr & Hf).
  apply bind_Ok in Hf as (o & Ho & [= <- <-]).
  unfold forward_frame in Hfr. simpl in Hfr.
  apply bind_Ok in Hfr as (qq & Hq & Hfr).
  apply bind_Ok in Hfr as (kk & Hk & Hfr).
  apply bind_Ok in Hfr as (vv & Hv & Hfr).
  apply bind_Ok in Hfr as (sim & Hsim & Hfr).
  apply bind_Ok in Hfr as (simm & Hmask & Hfr).
  apply bind_Ok in Hfr as (o1 & Ho1 & Hfr).
  apply bind_Ok in Hfr as (o2 & Ho2 & [= <-]). simpl in *.
  unfold forward, forward_frame. simpl.
  assert ((match injection_config with
           | Some cfg => T ← getitem cfg "T"; gamma ← getitem cfg "gamma"; Ok (T, gamma)
           | None => Ok (r1, r0)
           end) = Ok (r1, default r0 (injection_config ≫= (.!! "gamma")))) as ->.
  { destruct injection_config as [cfg|]; [|done]. destruct Hcfg as [HT [g Hg]].
    unfold getitem. simpl. by rewrite HT, Hg. }
  simpl. rewrite Hq. simpl. unfold dim0. rewrite Hb. simpl. rewrite !app_nil_r. simpl.
  rewrite Hsim. simpl. rewrite (muls3_one sim Hmul). rewrite Hmask. simpl.
  rewrite Ho1. simpl. rewrite Ho2. simpl. rewrite Ho. done.
Qed.
End cross_attention_more.

(** ** The memory-efficient engine without its kernels *)

Section memory_efficient_more.
Context {R : Type} `{Torch R}.
Import MemoryEfficientCrossAttention.

End memory_efficient_more.

(** ** Transformer block: construction and widths *)

Section transformer_block_more.
Context {R : Type} `{Torch R}.
Import BasicTransformerBlock.

Implicit Types (self : BasicTransformerBlock.t R) (x : tensor3 R).
Implicit Types (context q_injected k_injected v_injected : option (tensor3 R)).
Implicit Types (injection_config : option (gmap string R)).

Lemma attention_modes_softmax :
  ATTENTION_MODES !! "softmax" = Some cls_CrossAttention.
Proof. reflexivity. Qed.

Lemma attention_modes_xformers :
  ATTENTION_MODES !! "softmax-xformers" = Some cls_MemoryEfficientCrossAttention.
Proof. reflexivity. Qed.

Lemma int_pow_neg_half_Ok (n : nat) :
  n ≠ 0 → int_pow_neg_half n = Ok (pow_neg_half n).
Proof. intros Hn. unfold int_pow_neg_half. by rewrite bool_decide_eq_true_2. Qed.

Lemma int_pow_neg_half_zero : int_pow_neg_half 0 = Raise ZeroDivisionError.
Proof. reflexivity. Qed.

(** Both modes are in [ATTENTION_MODES]; what the constructor of a block
    returns is made of the two engines, the feed-forward net and the norms. *)
Lemma block_init_inv (init : string → nat → nat → R) name dim n_heads d_head dropout
    context_dim gated_ff ckpt dsa blk :
  __init__ init name dim n_heads d_head dropout context_dim gated_ff ckpt dsa = Ok blk →
  let cls := if XFORMERS_IS_AVAILBLE then cls_MemoryEfficientCrossAttention
             else cls_CrossAttention in
  ∃ a1 a2,
    new cls init (name +:+ ".attn1") dim (if dsa then context_dim else None)
      n_heads d_head dropout = Ok a1
    ∧ new cls init (name +:+ ".attn2") dim context_dim n_heads d_head dropout = Ok a2
    ∧ blk = mk dsa a1
              (FeedForward.__init__ init (name +:+ ".ff") dim None 4 gated_ff dropout)
              a2 (LayerNorm.__init__ dim) (LayerNorm.__init__ dim)
              (LayerNorm.__init__ dim) ckpt.
Proof.
  unfold __init__. intros Hb. simpl.
  destruct XFORMERS_IS_AVAILBLE.
  - rewrite attention_modes_xformers in Hb. simpl in Hb. injection Hb as <-.
    by eexists _, _.
  - rewrite attention_modes_softmax in Hb. simpl in Hb.
    apply bind_Ok in Hb as (a1 & Ha1 & Hb). apply bind_Ok in Hb as (a2 & Ha2 & [= <-]).
    by exists a1, a2.
Qed.

(** The only way for the constructor of a block to fail is the scale
    [dim_head ** -0.5] of the reference engine. *)
Lemma BasicTransformerBlock_init_returns (init : string → nat → nat → R) name dim n_heads d_head dropout
    context_dim gated_ff ckpt dsa :
  returns (__init__ init name dim n_heads d_head dropout context_dim gated_ff ckpt dsa)
  ↔ XFORMERS_IS_AVAILBLE = true ∨ d_head ≠ 0.
Proof.
  unfold __init__. destruct XFORMERS_IS_AVAILBLE.
  - rewrite attention_modes_xformers. simpl. split; [by left|by eexists].
  - rewrite attention_modes_softmax. simpl. unfold CrossAttention.__init__.
    destruct d_head as [|d].
    + rewrite int_pow_neg_half_zero. simpl.
      split; [by intros ?%not_returns_Raise|by intros [?|?]].
    + rewrite int_pow_neg_half_Ok by done. simpl. split; [by right|by eexists].
Qed.

Lemma BasicTransformerBlock_init_zero_head (init : string → nat → nat → R) name dim n_heads dropout
    context_dim gated_ff ckpt dsa :
  XFORMERS_IS_AVAILBLE = false →
  __init__ init name dim n_heads 0 dropout context_dim gated_ff ckpt dsa
  = Raise ZeroDivisionError.
Proof.
  intros Hx. unfold __init__. rewrite Hx, attention_modes_softmax. reflexivity.
Qed.

Lemma layer_norm_shaped (dim : nat) (x : tensor3 R) :
  rows_have dim x →
  LayerNorm.forward (LayerNorm.__init__ dim) x
  = Ok (map (map (F_layer_norm (replicate dim r1) (replicate dim r0))) x).
Proof.
  intros Hx. unfold LayerNorm.forward. apply forM_fmap_Ok.
  eapply Forall_impl; [exact Hx|]. intros m Hm. simpl in Hm.
  apply forM_fmap_Ok. eapply Forall_impl; [exact Hm|]. intros row Hrow. simpl in *.
  by rewrite bool_decide_eq_true_2.
Qed.

(** X11. Where [xformers] is installed every block is built on the
    memory-efficient engine, and [_forward] calls its first sublayer with
    the injection keywords, which that engine does not take: no call of the
    block returns, and on rows of the width of the block it raises
    [TypeError]. *)
Theorem xformers_block_never_returns (init : string → nat → nat → R) name dim n_heads
    d_head dropout context_dim gated_ff ckpt dsa blk x context q_injected k_injected
    v_injected injection_config :
  XFORMERS_IS_AVAILBLE = true →
  __init__ init name dim n_heads d_head dropout context_dim gated_ff ckpt dsa = Ok blk →
  ¬ returns (forward blk x context q_injected k_injected v_injected injection_config)
  ∧ (rows_have dim x →
     forward blk x context q_injected k_injected v_injected injection_config
     = Raise TypeError).
Proof.
  intros Hx Hinit. apply block_init_inv in Hinit as (a1 & a2 & Ha1 & _ & ->).
  rewrite Hx in Ha1. injection Ha1 as <-. split.
  - by eapply xformers_block_raises.
  - intros Hrows. unfold forward, checkpoint, _forward. simpl.
    by rewrite layer_norm_shaped.
Qed.

(** X14. A block works on rows of its own width only: whenever a call
    returns, the rows of the input and the rows of the output are [dim]
    wide. *)
Theorem block_keeps_width (init : string → nat → nat → R) name dim n_heads d_head dropout
    context_dim gated_ff ckpt dsa blk blk' x y context q_injected k_injected v_injected
    injection_config :
  __init__ init name dim n_heads d_head dropout context_dim gated_ff ckpt dsa = Ok blk →
  forward blk x context q_injected k_injected v_injected injection_config = Ok (blk', y) →
  rows_have dim x ∧ rows_have dim y.
Proof.
  intros Hinit Hf. split.
  - apply block_init_inv in Hinit as (a1 & a2 & _ & _ & ->).
    unfold forward, checkpoint, _forward in Hf.
    apply bind_Ok in Hf as (n1 & Hn1 & _). by apply layer_norm_in in Hn1.
  - apply block_init_width in Hinit.
    by destruct (block_forward_rows dim blk blk' x context q_injected k_injected
                   v_injected injection_config y Hinit Hf).
Qed.
End transformer_block_more.

(** ** Spatial transformer: construction, channels, contexts *)

Section spatial_transformer_more.
Context {R : Type} `{Torch R}.
Import SpatialTransformer.

Implicit Types (self : SpatialTransformer.t R) (x : tensor4 R).
Implicit Types (blocks : list (BasicTransformerBlock.t R)).
Implicit Types (contexts : list (option (tensor3 R))).
Implicit Types (q_injected k_injected v_injected : option (tensor3 R)).
Implicit Types (injection_config : option (gmap string R)).

(** The blocks are built one after the other, each with its own entry of
    [context_dim]. *)
Lemma init_blocks_returns (init : string → nat → nat → R) (inner n_heads d_head : nat)
    (dropout : R) (cds : option (list (option nat))) (ckpt dsa : bool) (depth : nat) :
  returns (forM (λ d : nat,
                   cd ← match cds with
                        | None => Raise TypeError
                        | Some l => match l !! d with
                                    | Some cd => Ok cd
                                    | None => Raise IndexError
                                    end
                        end;
                   BasicTransformerBlock.__init__ init
                     ("transformer_blocks." +:+ pretty d) inner n_heads d_head dropout
                     cd true ckpt dsa)
                (seq 0 depth))
  ↔ depth = 0 ∨ ((∃ l, cds = Some l ∧ depth ≤ length l)
                  ∧ (XFORMERS_IS_AVAILBLE = true ∨ d_head ≠ 0)).
Proof.
  rewrite forM_returns, Forall_forall. split.
  - intros Hall. destruct depth as [|depth]; [by left|]. right. split.
    + destruct cds as [l|].
      * exists l. split; [done|].
        destruct (Hall depth) as [b Hb]; [apply elem_of_seq; lia|].
        apply bind_Ok in Hb as (c & Hc & _).
        destruct (l !! depth) eqn:Hl; [|done]. apply lookup_lt_Some in Hl. lia.
      * destruct (Hall 0) as [b Hb]; [apply elem_of_seq; lia|].
        by apply bind_Ok in Hb as (c & Hc & _).
    + destruct (Hall 0) as [b Hb]; [apply elem_of_seq; lia|].
      apply bind_Ok in Hb as (c & _ & Hb).
      eapply BasicTransformerBlock_init_returns. by eexists.
  - intros [->|[(l & -> & Hl) Hhead]] d Hd; [by apply elem_of_nil in Hd|].
    apply elem_of_seq in Hd.
    destruct (lookup_lt_is_Some_2 l d) as [c ->]; [lia|]. simpl.
    by apply BasicTransformerBlock_init_returns.
Qed.

(** X16. When the constructor of the spatial transformer returns.  It
    returns only if the number of channels is a multiple of the 32 groups of
    [Normalize], [context_dim] reaches as far as the blocks (a list of at
    least [depth] entries, a single number for a depth of at most one, and
    with the default [None] no block at all) and, with a block to build, the
    scale [dim_head ** -0.5] of the reference engine exists: [d_head] is
    not zero, or [xformers] is installed.  With positive extents and the
    default [dropout=0.] it does return under these conditions.  With
    channels, an entry of [context_dim] for the first block, no [xformers]
    and [d_head = 0] it ends in [ZeroDivisionError]. *)
Theorem spatial_transformer_init_conditions (init : string → nat → nat → R)
    (in_channels n_heads d_head depth : nat) (dropout : R)
    (context_dim : one_or_list (option nat))
    (disable_self_attn use_linear use_checkpoint : bool) :
  (returns (__init__ init in_channels n_heads d_head depth dropout context_dim
              disable_self_attn use_linear use_checkpoint)
   → in_channels `mod` 32 = 0
     ∧ depth ≤ length (context_dims context_dim)
     ∧ (depth = 0 ∨ XFORMERS_IS_AVAILBLE = true ∨ d_head ≠ 0))
  ∧ (in_channels `mod` 32 = 0 ∧ in_channels ≠ 0 ∧ n_heads ≠ 0 ∧ d_head ≠ 0
     ∧ Forall (λ cd, cd ≠ Some 0) (context_dims context_dim)
     ∧ depth ≤ length (context_dims context_dim)
     → returns (__init__ init in_channels n_heads d_head depth r0 context_dim
                  disable_self_attn use_linear use_checkpoint))
  ∧ (in_channels `mod` 32 = 0 ∧ in_channels ≠ 0 ∧ depth ≠ 0
     ∧ context_dims context_dim ≠ []
     ∧ XFORMERS_IS_AVAILBLE = false ∧ d_head = 0
     → __init__ init in_channels n_heads d_head depth dropout context_dim
         disable_self_attn use_linear use_checkpoint = Raise ZeroDivisionError).
Proof.
  unfold __init__, Normalize, GroupNorm.__init__.
  destruct (decide (in_channels `mod` 32 = 0)) as [Hm|Hm].
  2:{ rewrite bool_decide_eq_false_2 by done. simpl.
      split; [by intros ?%not_returns_Raise|]. split; [by intros [? _]|by intros [? _]]. }
  rewrite bool_decide_eq_true_2 by done. simpl.
  set (cd := match context_dim with
             | NotList (Some n) => Some [Some n]
             | NotList None => None
             | IsList l => Some l
             end).
  assert ((∃ l, cd = Some l ∧ depth ≤ length l) ∨ depth = 0
          ↔ depth ≤ length (context_dims context_dim)) as Hcd.
  { subst cd. destruct context_dim as [[n|]|l']; simpl; split.
    - intros [(l & [= <-] & Hl)| ->]; [done|lia].
    - intros Hl. left. by eexists.
    - intros [(l & [=] & _)| ->]. done.
    - intros Hl. right. lia.
    - intros [(l & [= <-] & Hl)| ->]; [done|lia].
    - intros Hl. left. by eexists. }
  split; [|split].
  - intros [st Hst]. split; [done|]. apply bind_Ok in Hst as (bs & Hbs & _).
    destruct (proj1 (init_blocks_returns init (n_heads * d_head) n_heads d_head dropout
                       cd use_checkpoint disable_self_attn depth))
      as [->|[Hl Hhead]]; [by eexists|split; [lia|by left]|].
    split; [apply Hcd; by left|by right].
  - intros (_ & _ & _ & Hd & _ & Hl).
    destruct (proj2 (init_blocks_returns init (n_heads * d_head) n_heads d_head r0
                       cd use_checkpoint disable_self_attn depth)) as [bs Hbs].
    { destruct (proj2 Hcd Hl) as [Hex| ->]; [|by left]. right. split; [done|by right]. }
    rewrite Hbs. by eexists.
  - intros (_ & _ & Hd & Hnil & Hx & ->).
    destruct depth as [|depth]; [done|]. simpl.
    assert (∃ c l, cd = Some (c :: l)) as (c & l & ->).
    { subst cd. destruct context_dim as [[n|]|[|c l]]; [by eexists _, _|done..|by eexists _, _]. }
    simpl. by rewrite BasicTransformerBlock_init_zero_head.
Qed.

(** X17. The normalisation is the first thing [forward] does.  A batch with
    a sample of another number of channels than the transformer was built
    for does not get past it, in both projection modes and whatever the
    other arguments are: the call ends in [ValueError] where group
    normalisation finds a single value per group,
    [(b * c) // 32 * h * w = 1], and in [RuntimeError] otherwise. *)
Theorem spatial_transformer_wrong_channels_raise (init : string → nat → nat → R)
    (in_channels n_heads d_head depth : nat) (dropout : R)
    (context_dim : one_or_list (option nat))
    (disable_self_attn use_linear use_checkpoint : bool) self x
    (context : one_or_list (option (tensor3 R))) q_injected k_injected v_injected
    injection_config :
  __init__ init in_channels n_heads d_head depth dropout context_dim
    disable_self_attn use_linear use_checkpoint = Ok self →
  Exists (λ s, length s ≠ in_channels) x →
  forward self x context q_injected k_injected v_injected injection_config
  = Raise (if bool_decide ((dim0 x * dim1 x) `div` 32 * dim2 x * dim3 x = 1)
           then ValueError else RuntimeError).
Proof.
  intros Hinit Hex. unfold __init__, Normalize, GroupNorm.__init__ in Hinit.
  apply bind_Ok in Hinit as (norm & Hnorm & Hinit).
  apply bind_Ok in Hnorm as (u & _ & [= <-]).
  apply bind_Ok in Hinit as (blocks & _ & [= <-]).
  unfold forward, GroupNorm.forward, GroupNorm.values_per_group.
  cbn [norm GroupNorm.num_groups GroupNorm.num_channels].
  destruct (bool_decide _); [done|]. cbn [negb require mbind result_bind].
  rewrite (forM_raises_only RuntimeError); [done| |].
  - apply Forall_forall. intros s _.
    destruct (decide (length s = in_channels)) as [Hs|Hs].
    + left. rewrite bool_decide_eq_true_2 by done. by eexists.
    + right. by rewrite bool_decide_eq_false_2.
  - eapply Exists_impl; [exact Hex|]. intros s Hs. simpl.
    by rewrite bool_decide_eq_false_2.
Qed.

Lemma run_blocks_app i blocks contexts (extra : list (option (tensor3 R)))
    (t : tensor3 R) q_injected k_injected v_injected injection_config :
  i + length blocks ≤ length contexts →
  run_blocks i blocks (contexts ++ extra) t q_injected k_injected v_injected
    injection_config
  = run_blocks i blocks contexts t q_injected k_injected v_injected injection_config.
Proof.
  revert i t. induction blocks as [|block rest IH]; intros i t Hlen; [done|].
  simpl in *. rewrite lookup_app_l by lia.
  destruct (contexts !! i) as [c|]; [|done]. simpl.
  destruct (BasicTransformerBlock.forward _ _ _ _ _ _ _) as [[block' t']|e]; [|done].
  simpl. rewrite IH by lia. done.
Qed.

(** X18. A list of contexts must hold one entry for every block, or the
    call does not return; entries past the last block are never read, so
    a longer list gives the same result. *)
Theorem context_list_coverage self x (l extra : list (option (tensor3 R)))
    q_injected k_injected v_injected injection_config :
  (returns (forward self x (IsList l) q_injected k_injected v_injected
              injection_config) →
   length (transformer_blocks self) ≤ length l)
  ∧ (length (transformer_blocks self) ≤ length l →
     forward self x (IsList (l ++ extra)) q_injected k_injected v_injected
       injection_config
     = forward self x (IsList l) q_injected k_injected v_injected injection_config).
Proof.
  split.
  - intros [[self' y] Hf]. unfold forward in Hf.
    apply bind_Ok in Hf as (x1 & _ & Hf). apply bind_Ok in Hf as (x2 & _ & Hf).
    apply bind_Ok in Hf as (x3 & _ & Hf).
    apply bind_Ok in Hf as ([blocks' t] & Hrun & _).
    destruct (run_blocks_in_range 0 (transformer_blocks self) l x3 q_injected
                k_injected v_injected injection_config) as [Hle| ->];
      [by eexists|done|simpl; lia].
  - intros Hlen. unfold forward.
    destruct (GroupNorm.forward _ _) as [x1|]; [|done]. simpl.
    destruct (match proj self with Convs proj_in _ => _ | Linears _ _ => _ end)
      as [x2|]; [|done]. simpl.
    destruct (match proj self with Linears proj_in _ => _ | Convs _ _ => _ end)
      as [x3|]; [|done]. simpl.
    by rewrite run_blocks_app.
Qed.

(** X19. Where [xformers] is installed a spatial transformer with at least
    one block cannot be called: its first block does not return. *)
Theorem xformers_transformer_never_returns (init : string → nat → nat → R)
    (in_channels n_heads d_head depth : nat) (dropout : R)
    (context_dim : one_or_list (option nat))
    (disable_self_attn use_linear use_checkpoint : bool) self x
    (context : one_or_list (option (tensor3 R))) q_injected k_injected v_injected
    injection_config :
  XFORMERS_IS_AVAILBLE = true →
  depth ≠ 0 →
  __init__ init in_channels n_heads d_head depth dropout context_dim
    disable_self_attn use_linear use_checkpoint = Ok self →
  ¬ returns (forward self x context q_injected k_injected v_injected injection_config).
Proof.
  intros Hx Hd Hinit. unfold __init__ in Hinit.
  apply bind_Ok in Hinit as (norm & _ & Hinit).
  apply bind_Ok in Hinit as (blocks & Hblocks & [= <-]).
  apply forM_Forall2 in Hblocks.
  destruct depth as [|depth]; [done|]. simpl in Hblocks.
  apply Forall2_cons_inv_l in Hblocks as (blk & rest & Hblk & _ & ->).
  apply bind_Ok in Hblk as (cd & _ & Hblk).
  apply block_init_inv in Hblk as (a1 & a2 & Ha1 & _ & ->).
  rewrite Hx in Ha1. injection Ha1 as <-.
  unfold forward. simpl.
  do 3 (apply not_returns_bind; intros ? _).
  apply not_returns_bind. intros [blocks' t] Hrun. exfalso.
  simpl in Hrun. apply bind_Ok in Hrun as (c & _ & Hrun).
  apply bind_Ok in Hrun as ([blk' t'] & Hf & _).
  eapply xformers_block_raises; [|by eexists]. reflexivity.
Qed.

(** X20. In linear mode the output projection is built as
    [nn.Linear(in_channels, inner_dim)], while the blocks hand it rows of
    [inner_dim = n_heads * d_head] entries: unless the two numbers agree, no
    call on a grid with pixels returns an output that is not empty. *)
Theorem use_linear_width_mismatch_no_output (init : string → nat → nat → R)
    (in_channels n_heads d_head depth : nat) (dropout : R)
    (context_dim : one_or_list (option nat))
    (disable_self_attn use_checkpoint : bool) self x
    (context : one_or_list (option (tensor3 R))) q_injected k_injected v_injected
    injection_config :
  __init__ init in_channels n_heads d_head depth dropout context_dim
    disable_self_attn true use_checkpoint = Ok self →
  in_channels ≠ n_heads * d_head →
  dim2 x * dim3 x ≠ 0 →
  match forward self x context q_injected k_injected v_injected injection_config with
  | Ok (_, y) => y = []
  | Raise _ => True
  end.
Proof.
  intros Hinit Hne Hpix.
  destruct (forward self x context q_injected k_injected v_injected injection_config)
    as [[self' y]|e] eqn:Hf; [|done].
  by eapply fresh_linear_transformer_returns_nothing.
Qed.
End spatial_transformer_more.

(** ** Linear layers in closed form *)

Section linear_facts.
Context {R : Type} `{Torch R}.

Lemma ew1_same (op : R → R → R) (a b : list R) :
  length a = length b → ew1 op a b = Ok (zip_with op a b).
Proof.
  intros Hl. unfold ew1, broadcast2. rewrite decide_True by done.
  rewrite (forM_pure (λ p, op p.1 p.2)). f_equal.
  clear Hl. revert b. induction a as [|u a IH]; intros [|w b]; simpl; try done.
  by rewrite <- IH.
Qed.

Lemma dot_same (a b : list R) :
  length a = length b → dot a b = Ok (vsum (zip_with rmul a b)).
Proof. intros Hl. unfold dot. by rewrite ew1_same. Qed.

Lemma linear_shaped_init (init : string → nat → nat → R) name i o b :
  linear_shaped (Linear.__init__ init name i o b).
Proof.
  split; [apply wf_linear_init|]. simpl. unfold fresh_matrix, tabulate.
  apply Forall_fmap, Forall_forall. intros j _. simpl.
  by rewrite length_fmap, length_seq.
Qed.

Lemma length_linear_row (l : Linear.t R) (x : list R) :
  linear_shaped l → length (linear_row l x) = Linear.out_features l.
Proof.
  intros [[Hw Hb] _]. unfold linear_row. destruct (Linear.bias l) as [b|].
  - rewrite length_zip_with, length_fmap, Hw, (Hb b) by done. lia.
  - by rewrite length_fmap.
Qed.

Lemma forward_row_shaped (l : Linear.t R) (x : list R) :
  linear_shaped l → length x = Linear.in_features l →
  Linear.forward_row l x = Ok (linear_row l x).
Proof.
  intros [[Hw Hb] Hrows] Hx. unfold Linear.forward_row, linear_row.
  rewrite bool_decide_eq_true_2 by done. simpl.
  rewrite (forM_fmap_Ok _ (λ w : list R, vsum (zip_with rmul x w))).
  2:{ eapply Forall_impl; [exact Hrows|]. intros w Hlen. simpl in Hlen.
      apply dot_same. congruence. }
  simpl. destruct (Linear.bias l) as [b|]; [|done].
  apply ew1_same. rewrite length_fmap, Hw. symmetry. by apply Hb.
Qed.

Lemma linear_forward_shaped (l : Linear.t R) (x : tensor3 R) :
  linear_shaped l → rows_have (Linear.in_features l) x →
  Linear.forward l x = Ok (map (map (linear_row l)) x).
Proof.
  intros Hl Hx. unfold Linear.forward. apply forM_fmap_Ok.
  eapply Forall_impl; [exact Hx|]. intros m Hm. simpl in Hm.
  apply forM_fmap_Ok. eapply Forall_impl; [exact Hm|]. intros row Hrow.
  by apply forward_row_shaped.
Qed.

Lemma regular3_rows_have {A} (n c : nat) (t : tensor3 A) :
  regular3 n c t → rows_have c t.
Proof.
  unfold regular3, rows_have. intros Ht. eapply Forall_impl; [exact Ht|].
  by intros m [_ Hm].
Qed.

Lemma regular3_map_rows {A B} (f : list A → list B) (n c c' : nat) (t : tensor3 A) :
  (∀ row, length row = c → length (f row) = c') →
  regular3 n c t → regular3 n c' (map (map f) t).
Proof.
  intros Hf Ht. unfold regular3 in *. apply Forall_fmap.
  eapply Forall_impl; [exact Ht|]. intros m [Hm Hrows]. simpl.
  split; [by rewrite length_map|]. apply Forall_fmap.
  eapply Forall_impl; [exact Hrows|]. intros row Hrow. by apply Hf.
Qed.

(** A layer whose parameters are zero returns zeros. *)
Lemma linear_row_zero `{!ExactArith R} (init : string → nat → nat → R) name i o b
    (x : list R) :
  length x = i →
  linear_row (zero_module (Linear.__init__ init name i o b)) x = replicate o r0.
Proof.
  intros Hx. unfold linear_row. simpl.
  assert (map (map (λ _ : R, r0)) (fresh_matrix init (name +:+ ".weight") o i)
          = replicate o (replicate i r0)) as ->.
  { unfold fresh_matrix. apply map_tabulate_const. intros j.
    by apply map_tabulate_const. }
  rewrite fmap_replicate.
  assert (vsum (zip_with rmul x (replicate i r0)) = r0) as ->.
  { apply vsum_zeros, Forall_forall. intros a Ha.
    apply elem_of_lookup_zip_with in Ha as (k & u & w & -> & _ & Hw).
    apply lookup_replicate in Hw as [-> _]. apply mul_0_r. }
  destruct b; simpl; [|done].
  assert (map (λ _ : R, r0) (fresh_vector init (name +:+ ".bias") o) = replicate o r0)
    as -> by by apply map_tabulate_const.
  rewrite zip_with_replicate. by rewrite add_0_l.
Qed.

Lemma regular3_map3 {A B} (f : A → B) (n c : nat) (t : tensor3 A) :
  regular3 n c t → regular3 n c (map3 f t).
Proof.
  intros Ht. apply (regular3_map_rows (fmap f) n c c t); [|done].
  intros row Hrow. by rewrite length_fmap.
Qed.

Lemma linear_forward_regular (l : Linear.t R) (n : nat) (x : tensor3 R) :
  linear_shaped l → regular3 n (Linear.in_features l) x →
  Linear.forward l x = Ok (map (map (linear_row l)) x)
  ∧ regular3 n (Linear.out_features l) (map (map (linear_row l)) x).
Proof.
  intros Hl Hx. split.
  - apply linear_forward_shaped; [done|]. by eapply regular3_rows_have.
  - eapply regular3_map_rows; [|exact Hx]. intros row _. by apply length_linear_row.
Qed.
End linear_facts.

(** ** Zeroed modules *)

Section zero_module_facts.
Context {R : Type} `{Torch R}.

Lemma linear_shaped_zero (l : Linear.t R) :
  linear_shaped l → linear_shaped (zero_module l).
Proof.
  intros [[Hw Hb] Hrows]. split; [split|]; simpl.
  - by rewrite length_map.
  - intros b Hbias. destruct (Linear.bias l) as [b0|]; [|done].
    injection Hbias as <-. rewrite length_map. by apply Hb.
  - apply Forall_fmap. eapply Forall_impl; [exact Hrows|]. intros w Hlen. simpl.
    by rewrite length_map.
Qed.

(** X22. [zero_module] sets every parameter to zero, so the module returns
    zeros whatever it is given: a zeroed linear layer maps every row it
    accepts to [n_out] zeros, and a zeroed 1x1 convolution maps a sample of
    [n_in] channels to [n_out] planes of zeros of the same height and width
    (over exact element arithmetic). *)
Theorem zero_module_outputs_zero `{!ExactArith R} (init : string → nat → nat → R) (name : string)
    (n_in n_out : nat) (bias : bool) :
  (∀ x y, Linear.forward (zero_module (Linear.__init__ init name n_in n_out bias)) x
          = Ok y →
          y = map (map (λ _, replicate n_out r0)) x)
  ∧ (∀ s, length s = n_in →
          Conv2d.forward_sample (zero_module (Conv2d.__init__ init name n_in n_out)) s
          = Ok (zeros3 n_out (dim1 s) (dim2 s))).
Proof.
  split.
  - intros x y Hf. pose proof (linear_forward_in _ _ _ Hf) as Hin.
    rewrite linear_forward_shaped in Hf;
      [|apply linear_shaped_zero, linear_shaped_init|done].
    injection Hf as <-.
    apply list_eq. intros k. rewrite !list_lookup_fmap.
    destruct (x !! k) as [m|] eqn:Hm; [|done]. simpl. f_equal.
    apply list_eq. intros j. rewrite !list_lookup_fmap.
    destruct (m !! j) as [row|] eqn:Hrow; [|done]. simpl. f_equal.
    apply linear_row_zero.
    unfold rows_have in Hin. rewrite Forall_forall in Hin.
    specialize (Hin m (list_elem_of_lookup_2 _ _ _ Hm)). rewrite Forall_forall in Hin.
    exact (Hin row (list_elem_of_lookup_2 _ _ _ Hrow)).
  - intros s Hs.
    destruct (zero_module_conv init name n_in n_out) as (Hin & Hout & Hw & Hb).
    rewrite zero_conv_sample; rewrite ?Hin, ?Hout; done.
Qed.
End zero_module_facts.

(** ** Feed-forward *)

Section feed_forward.
Context {R : Type} `{Torch R}.

Lemma ew3_map_rows (op : R → R → R) (f g : list R → list R) (p : tensor3 R) :
  Forall (Forall (λ row, length (f row) = length (g row))) p →
  ew3 op (map (map f) p) (map (map g) p)
  = Ok (map (map (λ row, zip_with op (f row) (g row))) p).
Proof.
  intros Hfg. rewrite ew3_same_shape.
  - f_equal. rewrite zip_with_fmap_same. apply list_fmap_ext. intros k m _.
    rewrite zip_with_fmap_same. done.
  - unfold same_shape3. apply Forall2_fmap, Forall_Forall2_diag.
    eapply Forall_impl; [exact Hfg|]. intros m Hm. simpl.
    apply Forall2_fmap, Forall_Forall2_diag. exact Hm.
Qed.

Lemma regular3_dim2 {A} (n c : nat) (p : tensor3 A) (m : list (list A)) (row : list A) :
  regular3 n c p → m ∈ p → row ∈ m → dim2 p = c.
Proof.
  intros Hp Hm Hrow. unfold regular3 in Hp.
  destruct p as [|m0 p]; [by apply elem_of_nil in Hm|].
  rewrite Forall_forall in Hp.
  destruct (Hp m Hm) as [Hn _]. destruct (Hp m0) as [Hn0 Hrows0]; [left|].
  unfold dim2, dim1. simpl. destruct m0 as [|r0' m0]; simpl in *.
  - destruct m; [by apply elem_of_nil in Hrow|]. simpl in Hn. congruence.
  - by apply Forall_cons in Hrows0 as [? _].
Qed.

Lemma map_rows_ext {A B} (f g : list A → list B) (p : tensor3 A) :
  (∀ m row, m ∈ p → row ∈ m → f row = g row) → map (map f) p = map (map g) p.
Proof.
  intros Hfg. apply list_fmap_ext. intros k m Hm. apply list_fmap_ext.
  intros j row Hrow. eapply Hfg; by eapply list_elem_of_lookup_2.
Qed.

(** [GEGLU.forward] in closed form. *)
Lemma geglu_forward_closed (init : string → nat → nat → R) (name : string)
    (dim_in dim_out n : nat) (x : tensor3 R) :
  regular3 n dim_in x →
  let self := GEGLU.__init__ init name dim_in dim_out in
  ∃ p, Linear.forward (GEGLU.proj self) x = Ok p
       ∧ regular3 n (dim_out * 2) p
       ∧ GEGLU.forward self x
         = Ok (map (map (λ row : list R,
                           zip_with rmul (take dim_out row)
                             (F_gelu <$> drop dim_out row))) p)
       ∧ ∀ y, GEGLU.forward self x = Ok y → regular3 n dim_out y.
Proof.
  intros Hx self.
  set (l := GEGLU.proj self).
  assert (linear_shaped l) as Hl by apply linear_shaped_init.
  exists (map (map (linear_row l)) x).
  assert (regular3 n (dim_out * 2) (map (map (linear_row l)) x)) as Hp.
  { eapply regular3_map_rows; [|exact Hx]. intros row _.
    by rewrite length_linear_row. }
  assert (Linear.forward l x = Ok (map (map (linear_row l)) x)) as Hfw.
  { apply linear_forward_shaped; [done|]. by eapply regular3_rows_have. }
  split; [done|]. split; [done|].
  assert (GEGLU.forward self x
          = Ok (map (map (λ row : list R,
                  zip_with rmul (take dim_out row) (F_gelu <$> drop dim_out row)))
                  (map (map (linear_row l)) x))) as Hg.
  { unfold GEGLU.forward. fold l. rewrite Hfw. unfold mbind, result_bind.
    cbv beta iota zeta.
    set (p := map (map (linear_row l)) x) in *.
    set (half := (dim2 p + 1) `div` 2).
    assert (∀ m row, m ∈ p → row ∈ m → half = dim_out) as Hhalf.
    { intros m row Hm Hrow. unfold half.
      rewrite (regular3_dim2 _ _ _ _ _ Hp Hm Hrow).
      replace (dim_out * 2 + 1) with (1 + dim_out * 2) by lia.
      rewrite Nat.div_add by lia. done. }
    rewrite (map_rows_ext (take half) (take dim_out) p)
      by (intros m row Hm Hrow; by rewrite (Hhalf m row)).
    rewrite (map_rows_ext (drop half) (drop dim_out) p)
      by (intros m row Hm Hrow; by rewrite (Hhalf m row)).
    unfold map3.
    assert (((λ m : list (list R), (λ row : list R, F_gelu <$> row) <$> m)
               <$> map (map (drop dim_out)) p)
            = map (map (λ row : list R, F_gelu <$> drop dim_out row)) p) as ->.
    { rewrite <- list_fmap_compose. apply list_fmap_ext. intros k m _. simpl.
      by rewrite <- list_fmap_compose. }
    apply ew3_map_rows.
    eapply Forall_impl; [exact Hp|]. intros m [_ Hrows]. simpl.
    eapply Forall_impl; [exact Hrows|]. intros row Hrow. simpl in *.
    rewrite length_fmap, length_take, length_drop. lia. }
  split; [done|]. intros y Hy. rewrite Hg in Hy. injection Hy as <-.
  eapply regular3_map_rows; [|exact Hp]. intros row Hrow.
  rewrite length_zip_with, length_fmap, length_take, length_drop. lia.
Qed.

(** X23. [GEGLU(dim_in, dim_out)] on a batch of rows of [dim_in] entries
    always returns: the projection gives rows of [2 * dim_out] entries, and
    entry [l] of an output row is entry [l] of the projected row times the
    GELU of entry [l + dim_out]; the output rows have [dim_out] entries. *)
Theorem geglu_gates (init : string → nat → nat → R) (name : string)
    (dim_in dim_out n : nat) (x : tensor3 R) :
  regular3 n dim_in x →
  let self := GEGLU.__init__ init name dim_in dim_out in
  ∃ p, Linear.forward (GEGLU.proj self) x = Ok p
       ∧ regular3 n (dim_out * 2) p
       ∧ GEGLU.forward self x
         = Ok (map (map (λ row : list R,
                           zip_with rmul (take dim_out row)
                             (F_gelu <$> drop dim_out row))) p)
       ∧ ∀ y, GEGLU.forward self x = Ok y → regular3 n dim_out y.
Proof. apply geglu_forward_closed. Qed.

(** The feed-forward layer on rows of width [dim]. *)
Lemma feed_forward_shape (init : string → nat → nat → R) (name : string)
    (dim : nat) (dim_out : option nat) (mult : nat) (glu : bool) (dropout : R)
    (n : nat) (x : tensor3 R) :
  (∀ p row, length (F_dropout p row) = length row) →
  let self := FeedForward.__init__ init name dim dim_out mult glu dropout in
  (regular3 n dim x →
   ∃ y, FeedForward.forward self x = Ok y ∧ length y = length x
        ∧ regular3 n (default_ dim_out dim) y)
  ∧ (returns (FeedForward.forward self x) → rows_have dim x).
Proof.
  intros Hdrop self. split.
  - intros Hx. unfold FeedForward.forward.
    assert (∃ g, match FeedForward.net_0 self with
                 | FeedForward.LinearGELU lin => map3 F_gelu <$> Linear.forward lin x
                 | FeedForward.Gated g => GEGLU.forward g x
                 end = Ok g ∧ length g = length x ∧ regular3 n (dim * mult) g)
      as (g & -> & Hlen & Hg).
    { unfold self, FeedForward.__init__. destruct glu; simpl.
      - destruct (geglu_forward_closed init (name +:+ ".net.0") dim (dim * mult) n x Hx)
          as (p & Hp & _ & Hgf & Hreg).
        eexists. split; [exact Hgf|]. split; [|by apply Hreg].
        rewrite length_map. apply forM_length in Hp. done.
      - destruct (linear_forward_regular
                    (Linear.__init__ init (name +:+ ".net.0.0") dim (dim * mult) true)
                    n x (linear_shaped_init _ _ _ _ _) Hx) as [-> Hreg].
        simpl. eexists. split; [done|]. split; [|by apply regular3_map3].
        unfold map3. by rewrite length_fmap, length_map. }
    unfold mbind, result_bind. cbv beta iota.
    assert (regular3 n (dim * mult) (Dropout.forward (FeedForward.net_1 self) g)) as Hd.
    { unfold Dropout.forward. eapply regular3_map_rows; [|exact Hg].
      intros row Hrow. by rewrite Hdrop. }
    destruct (linear_forward_regular (FeedForward.net_2 self) n _
                (linear_shaped_init _ _ _ _ _) Hd) as [-> Hreg].
    eexists. split; [done|]. split; [|exact Hreg].
    unfold Dropout.forward. by rewrite !length_map.
  - intros [y Hy]. unfold FeedForward.forward in Hy.
    apply bind_Ok in Hy as (g & Hg & _). unfold self, FeedForward.__init__ in Hg.
    destruct glu; simpl in Hg.
    + unfold GEGLU.forward in Hg. apply bind_Ok in Hg as (p & Hp & _).
      by apply linear_forward_in in Hp.
    + destruct (Linear.forward _ x) as [p|] eqn:Hp; [|done].
      by apply linear_forward_in in Hp.
Qed.

End feed_forward.

(** ** Extents through the tensor operations *)

Section shapes.
Context {R : Type} `{Torch R}.

Lemma has_shape_map3 {A B} (f : A → B) (k n c : nat) (t : tensor3 A) :
  has_shape k n c t → has_shape k n c (map3 f t).
Proof.
  intros [Hl Ht]. split; [|by apply regular3_map3].
  unfold map3. by rewrite length_fmap.
Qed.

Lemma has_shape_map_rows {A B} (f : list A → list B) (k n c c' : nat) (t : tensor3 A) :
  (∀ row, length row = c → length (f row) = c') →
  has_shape k n c t → has_shape k n c' (map (map f) t).
Proof.
  intros Hf [Hl Ht]. split; [by rewrite length_map|]. by eapply regular3_map_rows.
Qed.

Lemma has_shape_same {A B} (k n c : nat) (a : tensor3 A) (b : tensor3 B) :
  has_shape k n c a → has_shape k n c b → same_shape3 a b.
Proof.
  intros [Hla Ha] [Hlb Hb]. unfold same_shape3.
  pose proof (Forall2_of_Forall _ _ a b ltac:(congruence) Ha Hb) as Hab.
  eapply Forall2_impl; [exact Hab|].
  intros ma mb [[Hna Hra] [Hnb Hrb]]. simpl in *.
  pose proof (Forall2_of_Forall _ _ ma mb ltac:(congruence) Hra Hrb) as Hr.
  eapply Forall2_impl; [exact Hr|].
  intros ra rb [Hca Hcb]. simpl in *. congruence.
Qed.

Lemma has_shape_zip3 {A B C} (op : A → B → C) (k n c : nat) (a : tensor3 A) (b : tensor3 B) :
  has_shape k n c a → has_shape k n c b →
  has_shape k n c (zip_with (zip_with (zip_with op)) a b).
Proof.
  intros [Hla Ha] [Hlb Hb]. split; [rewrite length_zip_with; lia|].
  unfold regular3 in *. apply Forall_forall. intros m Hm.
  apply elem_of_lookup_zip_with in Hm as (i & ma & mb & -> & Hma & Hmb).
  rewrite Forall_forall in Ha. rewrite Forall_forall in Hb.
  destruct (Ha ma (list_elem_of_lookup_2 _ _ _ Hma)) as [Hna Hra].
  destruct (Hb mb (list_elem_of_lookup_2 _ _ _ Hmb)) as [Hnb Hrb].
  split; [rewrite length_zip_with; lia|].
  apply Forall_forall. intros r Hr.
  apply elem_of_lookup_zip_with in Hr as (j & ra & rb & -> & Hra' & Hrb').
  rewrite Forall_forall in Hra. rewrite Forall_forall in Hrb.
  rewrite length_zip_with, (Hra ra), (Hrb rb); [lia|by eapply list_elem_of_lookup_2..].
Qed.

Lemma has_shape_cat (b k n c : nat) (t : tensor3 R) :
  has_shape k n c t → has_shape (b * k) n c (mjoin (replicate b t)).
Proof.
  intros [Hl Ht]. split.
  - rewrite (length_mjoin_const k), length_replicate; [done|].
    apply Forall_forall. by intros l [-> _]%elem_of_replicate.
  - unfold regular3 in *. apply Forall_forall.
    intros m (l & Hm & [-> _]%elem_of_replicate)%list_elem_of_join.
    rewrite Forall_forall in Ht. by apply Ht.
Qed.

(** The projection into heads of a well-shaped batch. *)
Lemma project_shape (lin : Linear.t R) (h d b n : nat) (x : tensor3 R) :
  linear_shaped lin → Linear.out_features lin = h * d → h ≠ 0 →
  has_shape b n (Linear.in_features lin) x →
  ∃ q, CrossAttention.project lin h x = Ok q ∧ has_shape (b * h) n d q.
Proof.
  intros Hlin Hout Hh [Hb Hx]. unfold CrossAttention.project.
  destruct (linear_forward_regular lin n x Hlin Hx) as [-> Hy]. simpl.
  rewrite Hout in Hy.
  set (y := map (map (linear_row lin)) x) in *.
  rewrite (split_heads_Ok h d n (h * d)) by done.
  assert (y ≫= heads_of h (dim2 y `div` h) = y ≫= heads_of h d) as ->.
  { rewrite !bind_mjoin. f_equal. apply list_fmap_ext. intros i m Hm.
    destruct m as [|row m]; [unfold heads_of; by apply tabulate_ext|].
    f_equal. rewrite (regular3_dim2 n (h * d) y (row :: m) row);
      [by rewrite Nat.mul_comm, Nat.div_mul|done|by eapply list_elem_of_lookup_2|left]. }
  eexists. split; [done|]. split.
  - rewrite length_bind_heads_of. unfold y. by rewrite length_map, Hb.
  - by apply heads_of_regular.
Qed.

(** The similarity of queries and keys of the same width. *)
Lemma einsum_bid_bjd_shape (k n m d : nat) (q kk : tensor3 R) :
  has_shape k n d q → has_shape k m d kk →
  ∃ sim, einsum_bid_bjd q kk = Ok sim ∧ has_shape k n m sim.
Proof.
  intros [Hlq Hq] [Hlk Hk]. unfold einsum_bid_bjd.
  set (g := λ (qm km : list (list R)),
              (λ qi : list R, (λ kj : list R, vsum (zip_with rmul qi kj)) <$> km) <$> qm).
  rewrite (broadcast2_same _
             (λ qm km, (length qm = n ∧ Forall (λ row, length row = d) qm)
                       ∧ (length km = m ∧ Forall (λ row, length row = d) km)) g).
  - eexists. split; [done|]. split; [rewrite length_zip_with; lia|].
    unfold regular3 in *. apply Forall_forall. intros s Hs.
    apply elem_of_lookup_zip_with in Hs as (i & qm & km & -> & Hqm & Hkm).
    rewrite Forall_forall in Hq, Hk.
    destruct (Hq qm (list_elem_of_lookup_2 _ _ _ Hqm)) as [Hn _].
    destruct (Hk km (list_elem_of_lookup_2 _ _ _ Hkm)) as [Hm _].
    unfold g. rewrite length_fmap. split; [done|].
    apply Forall_fmap, Forall_forall. intros qi _. simpl. by rewrite length_fmap.
  - apply Forall2_of_Forall; [congruence|exact Hq|exact Hk].
  - intros qm km [[_ Hqm] [_ Hkm]]. unfold g. apply forM_fmap_Ok.
    eapply Forall_impl; [exact Hqm|]. intros qi Hqi. simpl in Hqi.
    apply forM_fmap_Ok. eapply Forall_impl; [exact Hkm|]. intros kj Hkj. simpl in Hkj.
    apply dot_same. congruence.
Qed.

(** The weighted sum of the values. *)
Lemma einsum_bij_bjd_shape (k n m d : nat) (a v : tensor3 R) :
  m ≠ 0 → has_shape k n m a → has_shape k m d v →
  ∃ out, einsum_bij_bjd a v = Ok out ∧ has_shape k n d out.
Proof.
  intros Hm [Hla Ha] [Hlv Hv]. unfold einsum_bij_bjd.
  set (g := λ (am vm : list (list R)),
              (λ ai : list R,
                 (λ c : nat, vsum (zip_with rmul ai
                                     ((λ vj : list R, default r0 (vj !! c)) <$> vm)))
                 <$> seq 0 (dim1 vm)) <$> am).
  rewrite (broadcast2_same _
             (λ am vm, (length am = n ∧ Forall (λ row, length row = m) am)
                       ∧ (length vm = m ∧ Forall (λ row, length row = d) vm)) g).
  - eexists. split; [done|]. split; [rewrite length_zip_with; lia|].
    unfold regular3 in *. apply Forall_forall. intros s Hs.
    apply elem_of_lookup_zip_with in Hs as (i & am & vm & -> & Ham & Hvm).
    rewrite Forall_forall in Ha, Hv.
    destruct (Ha am (list_elem_of_lookup_2 _ _ _ Ham)) as [Hn _].
    destruct (Hv vm (list_elem_of_lookup_2 _ _ _ Hvm)) as [Hvm_len Hvm_rows].
    unfold g. rewrite length_fmap. split; [done|].
    apply Forall_fmap, Forall_forall. intros ai _. simpl.
    rewrite length_fmap, length_seq. unfold dim1.
    destruct vm as [|r vm]; [simpl in Hvm_len; lia|]. simpl.
    by apply Forall_cons in Hvm_rows as [? _].
  - apply Forall2_of_Forall; [congruence|exact Ha|exact Hv].
  - intros am vm [[_ Ham] [Hvm _]]. unfold g. apply forM_fmap_Ok.
    eapply Forall_impl; [exact Ham|]. intros ai Hai. simpl in Hai.
    apply forM_fmap_Ok. apply Forall_forall. intros c _.
    apply dot_same. rewrite length_fmap. congruence.
Qed.

(** The heads merged again. *)
Lemma merge_heads_shape (h d b n : nat) (out : tensor3 R) :
  h ≠ 0 → n ≠ 0 → has_shape (b * h) n d out →
  ∃ y, merge_heads h out = Ok y ∧ has_shape b n (h * d) y.
Proof.
  intros Hh Hn [Hl Hout]. unfold merge_heads.
  rewrite Hl, Nat.Div0.mod_mul, bool_decide_eq_true_2 by done. simpl.
  rewrite Nat.div_mul by done.
  eexists. split; [done|]. split; [by rewrite length_fmap, chunks_length|].
  unfold regular3. apply Forall_fmap.
  pose proof (chunks_Forall_length b h out) as Hlen.
  pose proof (chunks_Forall _ b h out Hout) as Hall.
  rewrite Forall_forall in Hlen, Hall. apply Forall_forall. intros grp Hgrp. simpl.
  specialize (Hlen ltac:(lia) grp Hgrp). specialize (Hall grp Hgrp). simpl in *.
  assert (dim1 out = n) as ->.
  { destruct b as [|b]; [by apply elem_of_nil in Hgrp|].
    destruct out as [|m0 out]; [simpl in Hl; lia|].
    apply Forall_cons in Hout as [[? _] _]. done. }
  rewrite length_tabulate. split; [done|].
  unfold tabulate. apply Forall_fmap, Forall_forall. intros i Hi%elem_of_seq. simpl.
  rewrite bind_mjoin, (length_mjoin_const d), length_fmap; [by rewrite Hlen|].
  apply Forall_fmap. eapply Forall_impl; [exact Hall|]. intros m [Hmn Hrows]. simpl.
  destruct (lookup_lt_is_Some_2 m i) as [row Hrow]; [lia|]. rewrite Hrow. simpl.
  rewrite Forall_forall in Hrows. apply Hrows. by eapply list_elem_of_lookup_2.
Qed.

Lemma has_shape_unique {A} (b n c n' c' : nat) (x : tensor3 A) :
  b ≠ 0 → n ≠ 0 → has_shape b n c x → has_shape b n' c' x → n' = n ∧ c' = c.
Proof.
  intros Hb Hn [Hl Hx] [_ Hx']. destruct x as [|m x]; [simpl in Hl; lia|].
  apply Forall_cons in Hx as [[Hm Hr] _]. apply Forall_cons in Hx' as [[Hm' Hr'] _].
  split; [congruence|]. destruct m as [|row m]; [simpl in Hm; lia|].
  apply Forall_cons in Hr as [Hrow _]. apply Forall_cons in Hr' as [Hrow' _]. congruence.
Qed.

Lemma ew3_shape (op : R → R → R) (b n c : nat) (u w : tensor3 R) :
  has_shape b n c u → has_shape b n c w →
  ∃ y, ew3 op u w = Ok y ∧ has_shape b n c y.
Proof.
  intros Hu Hw. rewrite ew3_same_shape by by eapply has_shape_same.
  eexists. split; [done|]. by apply has_shape_zip3.
Qed.

Lemma expand_to_zip {A B C} (f : A → B → result C) (g : A → B → C) (P : A → B → Prop)
    (xs : list A) (ms : list B) :
  Forall2 P xs ms → (∀ a m, P a m → f a m = Ok (g a m)) →
  expand_to f xs ms = Ok (zip_with g xs ms).
Proof.
  intros Hs Hf. unfold expand_to.
  rewrite decide_True by (symmetry; by eapply Forall2_length).
  induction Hs as [|a m xs ms Ham Hs IH]; [done|]. simpl.
  rewrite (Hf _ _ Ham). simpl. by rewrite IH.
Qed.

Lemma expand_to_one {A B C} (f : A → B → result C) (g : A → B → C)
    (xs : list A) (m : B) :
  Forall (λ a, f a m = Ok (g a m)) xs →
  expand_to f xs [m] = Ok ((λ a, g a m) <$> xs).
Proof.
  intros Hf. unfold expand_to. destruct (decide _) as [Hl|_].
  - destruct xs as [|a [|a' xs]]; try done. apply Forall_cons in Hf as [Ha _].
    simpl. by rewrite Ha.
  - by apply forM_fmap_Ok.
Qed.

Lemma repeat_mask_shape (h b m : nat) (mask : list (list bool)) :
  length mask = b → Forall (λ row, length row = m) mask →
  length (repeat_mask h mask) = b * h
  ∧ Forall (λ mm, ∃ row, mm = [row] ∧ length row = m) (repeat_mask h mask).
Proof.
  intros Hb Hrows. unfold repeat_mask. split.
  - rewrite bind_mjoin, (length_mjoin_const h), length_fmap; [by rewrite Hb|].
    apply Forall_fmap, Forall_forall. intros row _. apply length_replicate.
  - apply Forall_forall. intros mm (row & Hmm & Hrow)%list_elem_of_bind.
    apply elem_of_replicate in Hmm as [-> _]. exists row. split; [done|].
    rewrite Forall_forall in Hrows. by apply Hrows.
Qed.

Lemma masked_fill_not_shape (h b n m : nat) (sim : tensor3 R) (mask : list (list bool))
    (value : R) :
  has_shape (b * h) n m sim →
  length mask = b → Forall (λ row, length row = m) mask →
  ∃ simm, masked_fill_not sim (repeat_mask h mask) value = Ok simm
          ∧ has_shape (b * h) n m simm.
Proof.
  intros [Hl Hsim] Hb Hrows.
  destruct (repeat_mask_shape h b m mask Hb Hrows) as [Hlm Hmm].
  unfold masked_fill_not.
  set (g := λ (sm : list (list R)) (mm : list (list bool)),
              (λ srow : list R,
                 zip_with (λ (s : R) (keep : bool), if keep then s else value) srow
                   (default [] (head mm))) <$> sm).
  rewrite (expand_to_zip _ g
             (λ sm mm, (length sm = n ∧ Forall (λ row, length row = m) sm)
                       ∧ ∃ row, mm = [row] ∧ length row = m)).
  - eexists. split; [done|]. split; [rewrite length_zip_with; lia|].
    unfold regular3 in *. apply Forall_forall. intros s Hs.
    apply elem_of_lookup_zip_with in Hs as (i & sm & mm & -> & Hsm & Hmm').
    rewrite Forall_forall in Hsim. rewrite Forall_forall in Hmm.
    destruct (Hsim sm (list_elem_of_lookup_2 _ _ _ Hsm)) as [Hn Hr].
    destruct (Hmm mm (list_elem_of_lookup_2 _ _ _ Hmm')) as (row & -> & Hrow).
    unfold g. rewrite length_fmap. split; [done|]. simpl.
    apply Forall_fmap. eapply Forall_impl; [exact Hr|]. intros srow Hsrow.
    unfold compose. simpl in Hsrow. rewrite length_zip_with, Hsrow, Hrow. lia.
  - apply Forall2_of_Forall; [congruence|exact Hsim|exact Hmm].
  - intros sm mm [[_ Hr] (row & -> & Hrow)]. unfold g. simpl.
    apply expand_to_one. eapply Forall_impl; [exact Hr|]. intros srow Hsrow. simpl in *.
    eapply (expand_to_zip _ _ (λ _ _, True)); [|done].
    clear -Hsrow Hrow. rewrite <- Hrow in Hsrow. clear Hrow. revert row Hsrow.
    induction srow as [|u srow IH]; intros [|w row] Hl; simpl in *; try done.
    constructor; [done|]. apply IH. congruence.
Qed.
End shapes.

(** ** The reference engine on inputs of matching extents *)

Section cross_attention_shapes.
Context {R : Type} `{Torch R}.
Import CrossAttention.

Lemma similarity_shape (k n m d : nat) (q kk : tensor3 R) :
  has_shape k n d q → has_shape k m d kk →
  ∃ sim, similarity q kk = Ok sim ∧ has_shape k n m sim.
Proof.
  intros Hq Hk. unfold similarity. destruct (bool_decide _).
  - apply (einsum_bid_bjd_shape k n m d); by apply has_shape_map3.
  - by apply (einsum_bid_bjd_shape k n m d).
Qed.

(** [forward] put together from its steps. *)
Lemma forward_intro (self : t R) (x : tensor3 R) (context : option (tensor3 R))
    (mask : option (list (list bool)))
    (q_injected k_injected v_injected : option (tensor3 R))
    (injection_config : option (gmap string R)) T gamma qq kk vv sim simm out o y :
  match injection_config with
  | Some cfg => T ← getitem cfg "T"; gamma ← getitem cfg "gamma"; Ok (T, gamma)
  | None => Ok (r1, r0)
  end = Ok (T, gamma) →
  match q_injected with
  | None => project (to_q self) (heads self) x
  | Some q_uncond =>
      q_in ← cat_repeat (dim0 x) q_uncond;
      q_ ← project (to_q self) (heads self) x;
      ew3 radd (muls3 q_in gamma) (muls3 q_ (rsub r1 gamma))
  end = Ok qq →
  match k_injected with
  | None => project (to_k self) (heads self) (default_ context x)
  | Some k_uncond => cat_repeat (dim0 x) k_uncond
  end = Ok kk →
  match v_injected with
  | None => project (to_v self) (heads self) (default_ context x)
  | Some v_uncond => cat_repeat (dim0 x) v_uncond
  end = Ok vv →
  similarity qq kk = Ok sim →
  match mask with
  | Some mask =>
      masked_fill_not
        (muls3 (if exists_ q_injected || exists_ k_injected then muls3 sim T else sim)
           (scale self))
        (repeat_mask (heads self) mask) max_neg_value
  | None =>
      Ok (muls3 (if exists_ q_injected || exists_ k_injected then muls3 sim T else sim)
            (scale self))
  end = Ok simm →
  einsum_bij_bjd (map (map F_softmax) simm) vv = Ok out →
  merge_heads (heads self) out = Ok o →
  Linear.forward (to_out self).1 o = Ok y →
  forward self x context mask q_injected k_injected v_injected injection_config
  = Ok (mk (scale self) (heads self) (to_q self) (to_k self) (to_v self) (to_out self)
          (Some (map (map F_softmax) simm)) (Some qq) (Some kk) (Some vv),
        Dropout.forward (to_out self).2 y).
Proof.
  intros HTg Hq Hk Hv Hsim Hmask Hout Ho Hy.
  unfold forward, forward_frame.
  rewrite HTg. cbn [mbind result_bind].
  rewrite Hq. cbn [mbind result_bind].
  rewrite Hk. cbn [mbind result_bind].
  rewrite Hv. cbn [mbind result_bind].
  rewrite Hsim. cbn [mbind result_bind].
  rewrite Hmask. cbn [mbind result_bind].
  rewrite Hout. cbn [mbind result_bind].
  rewrite Ho. cbn [mbind result_bind f_out f_attn f_q f_k f_v].
  rewrite Hy. reflexivity.
Qed.

(** With a head width that is not zero the constructor returns. *)
Lemma cross_attention_init_Ok (init : string → nat → nat → R) (name : string)
    (query_dim : nat) (context_dim : option nat) (heads dim_head : nat) (dropout : R) :
  dim_head ≠ 0 →
  __init__ init name query_dim context_dim heads dim_head dropout
  = Ok (mk (pow_neg_half dim_head) heads
          (Linear.__init__ init (name +:+ ".to_q") query_dim (dim_head * heads) false)
          (Linear.__init__ init (name +:+ ".to_k") (default_ context_dim query_dim)
             (dim_head * heads) false)
          (Linear.__init__ init (name +:+ ".to_v") (default_ context_dim query_dim)
             (dim_head * heads) false)
          (Linear.__init__ init (name +:+ ".to_out.0") (dim_head * heads) query_dim true,
           Dropout.mk dropout)
          None None None None).
Proof. intros Hd. unfold __init__. by rewrite int_pow_neg_half_Ok. Qed.

(** The extents through [CrossAttention.forward]. *)
Lemma cross_attention_forward_shape `{!ShapedKernels R}
    (init : string → nat → nat → R) (name : string)
    (query_dim : nat) (context_dim : option nat) (heads dim_head : nat) (dropout : R)
    (b n m : nat) (x : tensor3 R) (context : option (tensor3 R))
    (mask : option (list (list bool)))
    (q_injected k_injected v_injected : option (tensor3 R))
    (injection_config : option (gmap string R)) :
  heads ≠ 0 → dim_head ≠ 0 → b ≠ 0 → n ≠ 0 → m ≠ 0 →
  has_shape b n query_dim x →
  from_option (λ mk : list (list bool),
                 length mk = b ∧ Forall (λ row, length row = m) mk) True mask →
  injected_or q_injected heads n dim_head True →
  injected_or k_injected heads m dim_head
    (has_shape b m (default_ context_dim query_dim) (default_ context x)) →
  injected_or v_injected heads m dim_head
    (has_shape b m (default_ context_dim query_dim) (default_ context x)) →
  config_complete injection_config →
  ∃ self self' y a,
    __init__ init name query_dim context_dim heads dim_head dropout = Ok self
    ∧ forward self x context mask q_injected k_injected v_injected injection_config
      = Ok (self', y)
    ∧ has_shape b n query_dim y
    ∧ attn self' = Some a ∧ has_shape (b * heads) n m a.
Proof.
  intros Hh Hd Hb Hn Hm Hx Hmask Hqi Hki Hvi Hcfg.
  unfold injected_or, config_complete in *.
  rewrite cross_attention_init_Ok by done.
  set (self := mk (pow_neg_half dim_head) heads _ _ _ _ None None None None).
  set (h := heads) in *. set (d := dim_head) in *.
  assert (∃ T gamma,
            match injection_config with
            | Some cfg => T ← getitem cfg "T"; gamma ← getitem cfg "gamma"; Ok (T, gamma)
            | None => Ok (r1, r0)
            end = Ok (T, gamma)) as (T & gamma & HTg).
  { destruct injection_config as [cfg|]; [|by eexists _, _].
    destruct Hcfg as [[T HT] [g Hg]]. exists T, g. unfold getitem. by rewrite HT, Hg. }
  assert (∃ q_, project (to_q self) h x = Ok q_ ∧ has_shape (b * h) n d q_)
    as (q_ & Hq_ & Hq_s).
  { apply project_shape; [apply linear_shaped_init|simpl; lia|done|done]. }
  assert (∃ q, match q_injected with
               | None => project (to_q self) h x
               | Some q_uncond =>
                   q_in ← cat_repeat (dim0 x) q_uncond;
                   q_ ← project (to_q self) h x;
                   ew3 radd (muls3 q_in gamma) (muls3 q_ (rsub r1 gamma))
               end = Ok q ∧ has_shape (b * h) n d q) as (q & Hq & Hqs).
  { destruct q_injected as [qi|]; [|by eexists].
    destruct Hx as [Hlx _]. unfold dim0. rewrite Hlx.
    destruct b as [|b']; [done|]. simpl cat_repeat.
    unfold mbind at 1, result_bind at 1. cbv beta iota. rewrite Hq_.
    unfold mbind, result_bind. cbv beta iota.
    pose proof (has_shape_cat (S b') h n d qi Hqi) as Hcat.
    rewrite ew3_same_shape.
    - eexists. split; [done|]. apply has_shape_zip3; by apply has_shape_map3.
    - eapply has_shape_same; apply has_shape_map3; [exact Hcat|exact Hq_s]. }
  assert (∃ k, match k_injected with
               | None => project (to_k self) h (default_ context x)
               | Some k_uncond => cat_repeat (dim0 x) k_uncond
               end = Ok k ∧ has_shape (b * h) m d k) as (k & Hk & Hks).
  { destruct k_injected as [ki|].
    - destruct Hx as [Hlx _]. unfold dim0. rewrite Hlx.
      destruct b as [|b']; [done|]. eexists. split; [done|]. by apply has_shape_cat.
    - apply project_shape; [apply linear_shaped_init|simpl; lia|done|done]. }
  assert (∃ v, match v_injected with
               | None => project (to_v self) h (default_ context x)
               | Some v_uncond => cat_repeat (dim0 x) v_uncond
               end = Ok v ∧ has_shape (b * h) m d v) as (v & Hv & Hvs).
  { destruct v_injected as [vi|].
    - destruct Hx as [Hlx _]. unfold dim0. rewrite Hlx.
      destruct b as [|b']; [done|]. eexists. split; [done|]. by apply has_shape_cat.
    - apply project_shape; [apply linear_shaped_init|simpl; lia|done|done]. }
  destruct (similarity_shape (b * h) n m d q k Hqs Hks) as (sim & Hsim & Hsims).
  set (sim_T := if exists_ q_injected || exists_ k_injected then muls3 sim T else sim).
  assert (has_shape (b * h) n m sim_T) as HsimT.
  { unfold sim_T. destruct (_ || _); [by apply has_shape_map3|done]. }
  assert (∃ simm, match mask with
                  | Some mask =>
                      masked_fill_not (muls3 sim_T (scale self))
                        (repeat_mask (CrossAttention.heads self) mask) max_neg_value
                  | None => Ok (muls3 sim_T (scale self))
                  end = Ok simm ∧ has_shape (b * h) n m simm) as (simm & Hsimm & Hsimms).
  { destruct mask as [mk|].
    - destruct Hmask as [Hlmk Hrmk]. apply masked_fill_not_shape; [|done..].
      by apply has_shape_map3.
    - eexists. split; [done|]. by apply has_shape_map3. }
  set (a := map (map F_softmax) simm).
  assert (has_shape (b * h) n m a) as Ha.
  { unfold a. eapply has_shape_map_rows; [|exact Hsimms].
    intros row Hrow. by rewrite softmax_length. }
  destruct (einsum_bij_bjd_shape (b * h) n m d a v Hm Ha Hvs) as (out & Hout & Houts).
  destruct (merge_heads_shape h d b n out Hh Hn Houts) as (o & Ho & Hos).
  assert (regular3 n (Linear.in_features (to_out self).1) o) as Hoin.
  { destruct Hos as [_ Hos]. simpl. by rewrite (Nat.mul_comm d h). }
  destruct (linear_forward_regular (to_out self).1 n o (linear_shaped_init _ _ _ _ _) Hoin)
    as [Hy Hys].
  exists self. eexists _, _, a. split; [done|]. split; [|split; [|split; [|exact Ha]]].
  - eapply (forward_intro self x context mask q_injected k_injected v_injected
              injection_config T gamma q k v sim simm out o); try done.
  - unfold Dropout.forward. eapply has_shape_map_rows.
    + intros row Hrow. rewrite dropout_length. exact Hrow.
    + split; [|exact Hys]. rewrite length_map. by destruct Hos.
  - reflexivity.
Qed.

End cross_attention_shapes.

(** ** The block on inputs of matching extents *)

Section block_shapes.
Context {R : Type} `{Torch R}.
Import BasicTransformerBlock.

Lemma layer_norm_shape `{!ShapedKernels R} (dim b n : nat) (x : tensor3 R) :
  has_shape b n dim x →
  ∃ y, LayerNorm.forward (LayerNorm.__init__ dim) x = Ok y ∧ has_shape b n dim y.
Proof.
  intros Hx. rewrite layer_norm_shaped by (destruct Hx; by eapply regular3_rows_have).
  eexists. split; [done|]. eapply has_shape_map_rows; [|exact Hx].
  intros row Hrow. by rewrite layer_norm_length.
Qed.

(** The extents through [BasicTransformerBlock.forward]. *)
Lemma block_forward_shape `{!ShapedKernels R}
    (init : string → nat → nat → R) (name : string)
    (dim n_heads d_head : nat) (dropout : R) (context_dim : option nat)
    (gated_ff ckpt dsa : bool) (blk : t R)
    (b n m1 m2 : nat) (x : tensor3 R) (context : option (tensor3 R))
    (q_injected k_injected v_injected : option (tensor3 R))
    (injection_config : option (gmap string R)) :
  XFORMERS_IS_AVAILBLE = false →
  __init__ init name dim n_heads d_head dropout context_dim gated_ff ckpt dsa = Ok blk →
  n_heads ≠ 0 → d_head ≠ 0 → b ≠ 0 → n ≠ 0 → m1 ≠ 0 → m2 ≠ 0 →
  has_shape b n dim x →
  injected_or q_injected n_heads n d_head True →
  injected_or k_injected n_heads m1 d_head
    (has_shape b m1 (default_ (if dsa then context_dim else None) dim) x) →
  injected_or v_injected n_heads m1 d_head
    (has_shape b m1 (default_ (if dsa then context_dim else None) dim) x) →
  config_complete injection_config →
  has_shape b m2 (default_ context_dim dim) (default_ context x) →
  ∃ blk' y,
    forward blk x context q_injected k_injected v_injected injection_config
    = Ok (blk', y)
    ∧ has_shape b n dim y.
Proof.
  intros Hxf Hinit Hh Hd Hb Hn Hm1 Hm2 Hx Hqi Hki Hvi Hcfg Hctx.
  apply block_init_inv in Hinit as (at1 & at2 & Hat1 & Hat2 & ->).
  rewrite Hxf in Hat1, Hat2. cbn [new] in Hat1, Hat2.
  unfold forward, checkpoint, _forward.
  cbn [attn1 attn2 ff norm1 norm2 norm3 disable_self_attn checkpoint_].
  destruct (layer_norm_shape dim b n x Hx) as (n1 & Hn1 & Hn1s).
  rewrite Hn1. cbn [mbind result_bind].
  assert (∀ (c : nat) (k : nat), has_shape b k c x → has_shape b k c n1) as Hsame1.
  { intros c k Hxk. rewrite layer_norm_shaped in Hn1
      by (destruct Hx; by eapply regular3_rows_have).
    injection Hn1 as <-. eapply has_shape_map_rows; [|exact Hxk].
    intros row Hrow. by rewrite layer_norm_length. }
  destruct (cross_attention_forward_shape init (name +:+ ".attn1") dim
              (if dsa then context_dim else None) n_heads d_head dropout b n m1 n1 None
              None q_injected k_injected v_injected injection_config)
    as (a1 & a1' & x_ & w1 & Ha1 & Hf1 & Hx_ & _); try done.
  { unfold injected_or in *. destruct k_injected; [done|]. by apply Hsame1. }
  { unfold injected_or in *. destruct v_injected; [done|]. by apply Hsame1. }
  rewrite Ha1 in Hat1. injection Hat1 as <-.
  unfold call_injected. rewrite Hf1. cbn [mbind result_bind].
  destruct (ew3_shape radd b n dim x_ x Hx_ Hx) as (x1 & Hx1 & Hx1s).
  rewrite Hx1. cbn [mbind result_bind].
  destruct (layer_norm_shape dim b n x1 Hx1s) as (n2 & Hn2 & Hn2s).
  rewrite Hn2. cbn [mbind result_bind].
  assert (has_shape b m2 (default_ context_dim dim) (default_ context n2)) as Hctx2.
  { destruct context as [c|]; [done|]. simpl in *.
    destruct (has_shape_unique b n dim m2 (default_ context_dim dim) x) as [-> ->];
      done. }
  destruct (cross_attention_forward_shape init (name +:+ ".attn2") dim
              context_dim n_heads d_head dropout b n m2 n2 context
              None None None None None)
    as (a2 & a2' & y2 & w2 & Ha2 & Hf2 & Hy2 & _); try done.
  rewrite Ha2 in Hat2. injection Hat2 as <-.
  unfold call_context. rewrite Hf2. cbn [mbind result_bind].
  destruct (ew3_shape radd b n dim y2 x1 Hy2 Hx1s) as (x2 & Hx2 & Hx2s).
  rewrite Hx2. cbn [mbind result_bind].
  destruct (layer_norm_shape dim b n x2 Hx2s) as (n3 & Hn3 & Hn3s).
  rewrite Hn3. cbn [mbind result_bind].
  destruct (feed_forward_shape init (name +:+ ".ff") dim None 4 gated_ff dropout n n3
              dropout_length) as [Hff _].
  destruct Hff as (y3 & Hy3 & Hly3 & Hy3s); [by destruct Hn3s|].
  rewrite Hy3. cbn [mbind result_bind].
  assert (has_shape b n dim y3) as Hy3s'.
  { split; [|done]. rewrite Hly3. by destruct Hn3s. }
  destruct (ew3_shape radd b n dim y3 x2 Hy3s' Hx2s) as (x3 & Hx3 & Hx3s).
  rewrite Hx3. cbn [mbind result_bind].
  by eexists _, _.
Qed.

(** X15. On inputs of matching extents a freshly built block returns,
    where [xformers] is not installed.  For a batch [x] of [b] sequences of
    [n] rows of [dim] entries; injected tensors of [n_heads] matrices of [n]
    (queries) or [m1] (keys, values) rows of [d_head] entries; where the
    first sublayer projects keys or values itself, [x] as their source,
    which asks for [m1 = n] and, with [disable_self_attn], for a
    [context_dim] equal to [dim]; and a context (or [x] itself) of [b]
    sequences of [m2] rows of [context_dim] entries for the second
    sublayer: the call returns an output of the extents of [x]. *)
Theorem block_returns_on_shaped_input `{!ShapedKernels R}
    (init : string → nat → nat → R) (name : string)
    (dim n_heads d_head : nat) (dropout : R) (context_dim : option nat)
    (gated_ff ckpt dsa : bool) (blk : t R)
    (b n m1 m2 : nat) (x : tensor3 R) (context : option (tensor3 R))
    (q_injected k_injected v_injected : option (tensor3 R))
    (injection_config : option (gmap string R)) :
  XFORMERS_IS_AVAILBLE = false →
  __init__ init name dim n_heads d_head dropout context_dim gated_ff ckpt dsa = Ok blk →
  n_heads ≠ 0 → d_head ≠ 0 → b ≠ 0 → n ≠ 0 → m1 ≠ 0 → m2 ≠ 0 →
  has_shape b n dim x →
  injected_or q_injected n_heads n d_head True →
  injected_or k_injected n_heads m1 d_head
    (has_shape b m1 (default_ (if dsa then context_dim else None) dim) x) →
  injected_or v_injected n_heads m1 d_head
    (has_shape b m1 (default_ (if dsa then context_dim else None) dim) x) →
  config_complete injection_config →
  has_shape b m2 (default_ context_dim dim) (default_ context x) →
  ∃ blk' y,
    forward blk x context q_injected k_injected v_injected injection_config
    = Ok (blk', y)
    ∧ has_shape b n dim y.
Proof. apply block_forward_shape. Qed.
End block_shapes.

(** ** Extents through the spatial layers *)

Section conv_facts.
Context {R : Type} `{Torch R}.

Lemma sample_dims (c h w : nat) (s : tensor3 R) :
  c ≠ 0 → h ≠ 0 → has_shape c h w s → dim1 s = h ∧ dim2 s = w.
Proof.
  intros Hc Hh [Hl Hs]. apply regular_sample_dims; [|done..].
  intros ->. simpl in Hl. lia.
Qed.

Lemma conv_sample_shape (init : string → nat → nat → R) (name : string)
    (cin cout h w : nat) (s : tensor3 R) :
  cin ≠ 0 → h ≠ 0 → has_shape cin h w s →
  ∃ o, Conv2d.forward_sample (Conv2d.__init__ init name cin cout) s = Ok o
       ∧ has_shape cout h w o.
Proof.
  intros Hc Hh Hs. destruct (sample_dims cin h w s Hc Hh Hs) as [Hd1 Hd2].
  destruct Hs as [Hl Hs]. unfold Conv2d.forward_sample. simpl.
  rewrite bool_decide_eq_true_2 by done. simpl. rewrite Hd1, Hd2.
  set (g := λ wb : list R * R,
              (λ y : nat, (λ x : nat, radd (vsum (zip_with rmul (pixel s y x) wb.1)) wb.2)
                            <$> seq 0 w) <$> seq 0 h).
  rewrite (forM_fmap_Ok _ g).
  - eexists. split; [done|]. split.
    + rewrite length_fmap, length_zip_with. unfold fresh_matrix, fresh_vector.
      rewrite !length_tabulate. lia.
    + unfold regular3. apply Forall_fmap, Forall_forall. intros wb _. unfold g. simpl.
      rewrite length_fmap, length_seq. split; [done|].
      apply Forall_fmap, Forall_forall. intros y _. simpl.
      by rewrite length_fmap, length_seq.
  - apply Forall_forall. intros [wt bs] Hwb. unfold g. simpl.
    apply elem_of_zip_l in Hwb. unfold fresh_matrix, tabulate in Hwb.
    apply list_elem_of_fmap in Hwb as (j & -> & _).
    apply forM_fmap_Ok, Forall_forall. intros y _.
    apply forM_fmap_Ok, Forall_forall. intros x _.
    rewrite dot_same; [done|]. by rewrite length_pixel, length_fmap, length_seq.
Qed.

Lemma grid_to_tokens_shape (c h w : nat) (s : tensor3 R) :
  c ≠ 0 → h ≠ 0 → has_shape c h w s →
  length (grid_to_tokens s) = h * w
  ∧ Forall (λ row, length row = c) (grid_to_tokens s).
Proof.
  intros Hc Hh Hs. destruct (sample_dims c h w s Hc Hh Hs) as [Hd1 Hd2].
  destruct Hs as [Hl Hs]. split.
  - apply length_grid_to_tokens; [|done..]. intros ->. simpl in Hl. lia.
  - unfold grid_to_tokens. apply Forall_forall.
    intros row (y & Hrow & _)%list_elem_of_bind. unfold tabulate in Hrow.
    apply list_elem_of_fmap in Hrow as (x & -> & _). by rewrite length_pixel.
Qed.

Lemma tokens_to_grid_Ok (c h w : nat) (m : list (list R)) :
  h * w ≠ 0 → length m = h * w → Forall (λ row, length row = c) m →
  ∃ s, tokens_to_grid h w m = Ok s ∧ has_shape c h w s.
Proof.
  intros Hhw Hm Hrows.
  destruct (tokens_to_grid h w m) as [s|e] eqn:Hs.
  - exists s. split; [done|]. apply tokens_to_grid_shape in Hs as [Hl Hreg].
    split; [|done]. rewrite Hl. unfold dim1.
    destruct m as [|row m]; [simpl in Hm; lia|]. simpl.
    by apply Forall_cons in Hrows as [? _].
  - unfold tokens_to_grid in Hs. by rewrite bool_decide_eq_true_2 in Hs.
Qed.

Lemma tokens_shape (b c h w : nat) (x : tensor4 R) :
  c ≠ 0 → h ≠ 0 → has_shape4 b c h w x →
  has_shape b (h * w) c (map grid_to_tokens x).
Proof.
  intros Hc Hh [Hl Hx]. split; [by rewrite length_map|]. unfold regular3.
  apply Forall_fmap. eapply Forall_impl; [exact Hx|]. intros s Hs.
  by apply grid_to_tokens_shape.
Qed.

Lemma has_shape4_dims (b c h w : nat) (x : tensor4 R) :
  b ≠ 0 → c ≠ 0 → h ≠ 0 → has_shape4 b c h w x →
  dim1 x = c ∧ dim2 x = h ∧ dim3 x = w.
Proof.
  intros Hb Hc Hh [Hl Hx]. destruct x as [|s x]; [simpl in Hl; lia|].
  apply Forall_cons in Hx as [Hs _].
  destruct (sample_dims c h w s Hc Hh Hs) as [Hd1 Hd2]. destruct Hs as [Hls _].
  unfold dim3, dim2, dim1 in *. simpl. done.
Qed.

Lemma ew4_shape (op : R → R → R) (b c h w : nat) (x y : tensor4 R) :
  has_shape4 b c h w x → has_shape4 b c h w y →
  ∃ z, ew4 op x y = Ok z ∧ has_shape4 b c h w z.
Proof.
  intros [Hlx Hx] [Hly Hy]. unfold ew4.
  destruct (broadcast2_shape (ew3 op) (has_shape c h w) (has_shape c h w)
              (has_shape c h w) x y) as (z & Hz & Hlz & Hzs); [congruence|done|done| |].
  - intros s s' Hs Hs'. by apply ew3_shape.
  - exists z. split; [done|]. split; [congruence|done].
Qed.

Lemma conv_forward_shape (init : string → nat → nat → R) (name : string)
    (cin cout b h w : nat) (x : tensor4 R) :
  cin ≠ 0 → h ≠ 0 → has_shape4 b cin h w x →
  ∃ y, Conv2d.forward (Conv2d.__init__ init name cin cout) x = Ok y
       ∧ has_shape4 b cout h w y.
Proof.
  intros Hc Hh [Hl Hx]. unfold Conv2d.forward.
  destruct (forM_shape (Conv2d.forward_sample (Conv2d.__init__ init name cin cout))
              (has_shape cin h w) (has_shape cout h w) x) as (y & Hy & Hly & Hys);
    [|done|].
  - intros s Hs. by apply conv_sample_shape.
  - exists y. split; [done|]. split; [congruence|done].
Qed.

Lemma group_norm_forward_shape `{!ShapedKernels R} (g c b h w : nat) (wt bs : list R)
    (x : tensor4 R) :
  b ≠ 0 → c ≠ 0 → h ≠ 0 →
  (b * c) `div` g * h * w ≠ 1 →
  has_shape4 b c h w x →
  ∃ y, GroupNorm.forward (GroupNorm.mk g c wt bs) x = Ok y ∧ has_shape4 b c h w y.
Proof.
  intros Hb Hc Hh Hone Hx4.
  destruct (has_shape4_dims b c h w x Hb Hc Hh Hx4) as (Hd1 & Hd2 & Hd3).
  destruct Hx4 as [Hl Hx]. unfold GroupNorm.forward, GroupNorm.values_per_group, dim0.
  cbn [GroupNorm.num_groups GroupNorm.num_channels GroupNorm.weight GroupNorm.bias].
  rewrite Hl, Hd1, Hd2, Hd3, bool_decide_eq_false_2 by done.
  cbn [negb require mbind result_bind].
  destruct (forM_shape
              (λ s : tensor3 R,
                 require (bool_decide (length s = c)) RuntimeError;;
                 Ok (F_group_norm g wt bs s))
              (has_shape c h w) (has_shape c h w) x) as (y & Hy & Hly & Hys); [|done|].
  - intros s Hs. destruct Hs as [Hls Hs]. rewrite bool_decide_eq_true_2 by done.
    eexists. split; [done|]. by apply group_norm_shape.
  - exists y. split; [done|]. split; [congruence|done].
Qed.

Lemma tabulate_const {A} (n : nat) (f : nat → A) (c : A) :
  (∀ i, i < n → f i = c) → tabulate n f = replicate n c.
Proof.
  intros Hf. unfold tabulate. rewrite <- (length_seq n 0) at 2. apply const_fmap.
  intros i k Hk. apply lookup_seq in Hk as [-> Hi]. by apply Hf.
Qed.

(** Tokens of zeros go back to a grid of zeros. *)
Lemma tokens_to_grid_zeros (c h w : nat) (m : list (list R)) :
  h * w ≠ 0 → length m = h * w → Forall (λ row, row = replicate c r0) m →
  tokens_to_grid h w m = Ok (zeros3 c h w).
Proof.
  intros Hhw Hm Hrows.
  assert (m = replicate (h * w) (replicate c r0)) as ->.
  { symmetry. apply replicate_as_Forall_2; [done|].
    eapply Forall_impl; [exact Hrows|]. by intros row ->. }
  unfold tokens_to_grid. rewrite bool_decide_eq_true_2 by done. simpl. f_equal.
  assert (dim1 (replicate (h * w) (replicate c r0)) = c) as ->.
  { unfold dim1. destruct (h * w) as [|k]; [done|]. simpl. apply length_replicate. }
  unfold zeros3. apply tabulate_const. intros ch Hch.
  apply tabulate_const. intros y Hy. apply tabulate_const. intros x Hx.
  rewrite lookup_replicate_2 by nia. simpl. by rewrite lookup_replicate_2.
Qed.

(** Zeros of the extents of a batch, added to it, leave it as it is. *)
Lemma ew4_zeros_l `{!ExactArith R} (b c h w : nat) (z x : tensor4 R) :
  has_shape4 b c h w x → length z = b → Forall (λ o, o = zeros3 c h w) z →
  ew4 radd z x = Ok x.
Proof.
  intros [Hl Hx] Hlz Hz. unfold ew4.
  rewrite (broadcast2_same _ (λ o s, o = zeros3 c h w ∧ has_shape c h w s) (λ _ s, s)).
  - f_equal. apply zip_with_snd. congruence.
  - apply Forall2_of_Forall; [congruence|done|done].
  - intros o s [-> [Hls Hs]]. by apply ew3_zeros_l.
Qed.
End conv_facts.

(** ** The spatial transformer on inputs of matching extents *)

Section transformer_shapes.
Context {R : Type} `{Torch R}.
Import SpatialTransformer.

(** The extents through the loop over the blocks. *)
Lemma run_blocks_shape `{!ShapedKernels R} (init : string → nat → nat → R)
    (n_heads d_head : nat) (dropout : R) (cds : list (option nat)) (dsa ckpt : bool)
    (b n m1 : nat) (contexts : list (option (tensor3 R)))
    (q_injected k_injected v_injected : option (tensor3 R))
    (injection_config : option (gmap string R))
    (blocks : list (BasicTransformerBlock.t R)) (i : nat) (t : tensor3 R) :
  XFORMERS_IS_AVAILBLE = false →
  n_heads ≠ 0 → d_head ≠ 0 → b ≠ 0 → n ≠ 0 → m1 ≠ 0 →
  injected_or q_injected n_heads n d_head True →
  injected_or k_injected n_heads m1 d_head (m1 = n) →
  injected_or v_injected n_heads m1 d_head (m1 = n) →
  config_complete injection_config →
  Forall2 (λ d blk, ∃ cd, cds !! d = Some cd
                          ∧ BasicTransformerBlock.__init__ init
                              ("transformer_blocks." +:+ pretty d) (n_heads * d_head)
                              n_heads d_head dropout cd true ckpt dsa = Ok blk)
    (seq i (length blocks)) blocks →
  (∀ d, i ≤ d < i + length blocks →
        context_fits n_heads d_head cds dsa b contexts k_injected v_injected d) →
  has_shape b n (n_heads * d_head) t →
  ∃ blocks' t', run_blocks i blocks contexts t q_injected k_injected v_injected
                  injection_config = Ok (blocks', t')
                ∧ has_shape b n (n_heads * d_head) t'.
Proof.
  intros Hxf Hh Hd Hb Hn Hm1 Hqi Hki Hvi Hcfg.
  set (inner := n_heads * d_head).
  revert i t. induction blocks as [|blk blocks IH]; intros i t Hbs Hfit Ht.
  - by eexists _, _.
  - simpl in Hbs. apply Forall2_cons in Hbs as [(cd & Hcd & Hblk) Hbs].
    destruct (Hfit i) as (cd' & c & Hcd' & Hc & Hctx & Hself); [simpl; lia|].
    fold inner in Hctx, Hself.
    rewrite Hcd in Hcd'. injection Hcd' as <-.
    simpl. rewrite Hc. cbn [mbind result_bind].
    assert (∃ m2, m2 ≠ 0 ∧ has_shape b m2 (default_ cd inner) (default_ c t))
      as (m2 & Hm2 & Hctx2).
    { destruct c as [tc|]; [done|]. exists n. simpl. by rewrite Hctx. }
    assert (k_injected = None ∨ v_injected = None →
            has_shape b m1 (default_ (if dsa then cd else None) inner) t) as Hown.
    { intros Hnone.
      assert (m1 = n) as -> by (destruct Hnone as [-> | ->]; done).
      destruct dsa; [|done]. by rewrite Hself. }
    destruct (block_forward_shape init ("transformer_blocks." +:+ pretty i)
                inner n_heads d_head dropout cd true ckpt dsa blk b n m1 m2
                t c q_injected k_injected
                v_injected injection_config Hxf Hblk)
      as (blk' & t' & Hf & Ht'); try done.
    { unfold injected_or in *. destruct k_injected; [done|]. apply Hown. by left. }
    { unfold injected_or in *. destruct v_injected; [done|]. apply Hown. by right. }
    rewrite Hf. cbn [mbind result_bind].
    destruct (IH (S i) t') as (blocks' & t'' & Hrun & Ht''); [done| |done|].
    { intros d Hd'. apply Hfit. simpl. lia. }
    rewrite Hrun. cbn [mbind result_bind]. by eexists _, _.
Qed.

Lemma init_blocks (init : string → nat → nat → R)
    (in_channels n_heads d_head depth : nat) (dropout : R)
    (context_dim : one_or_list (option nat))
    (disable_self_attn use_linear use_checkpoint : bool) (self : t R) :
  __init__ init in_channels n_heads d_head depth dropout context_dim
    disable_self_attn use_linear use_checkpoint = Ok self →
  length (transformer_blocks self) = depth
  ∧ Forall2 (λ d blk, ∃ cd, context_dims context_dim !! d = Some cd
                            ∧ BasicTransformerBlock.__init__ init
                                ("transformer_blocks." +:+ pretty d)
                                (n_heads * d_head) n_heads d_head
                                dropout cd true use_checkpoint disable_self_attn = Ok blk)
      (seq 0 depth) (transformer_blocks self).
Proof.
  unfold __init__. intros Hinit.
  apply bind_Ok in Hinit as (norm & _ & Hinit).
  apply bind_Ok in Hinit as (blocks & Hblocks & [= <-]). simpl.
  apply forM_Forall2 in Hblocks. split.
  - apply Forall2_length in Hblocks. by rewrite length_seq in Hblocks.
  - eapply Forall2_impl; [exact Hblocks|]. intros d blk Hblk. simpl in Hblk.
    apply bind_Ok in Hblk as (cd & Hcd & Hblk). exists cd. split; [|done].
    unfold context_dims.
    destruct context_dim as [[k|]|l]; [| |].
    + destruct ([Some k] !! d) as [c|]; [|done]. by injection Hcd as ->.
    + done.
    + destruct (l !! d) as [c|]; [|done]. by injection Hcd as ->.
Qed.

(** X21. A freshly built spatial transformer returns its input.  Where
    [xformers] is not installed, for a batch [x] of [b] samples of
    [in_channels] channels of [h] by [w] pixels with more than one value
    per group of the normalisation, [(b * in_channels) // 32 * h * w ≠ 1],
    a context for every block
    of the width the block was built for, injected tensors of [n_heads]
    matrices of [h * w] (queries) or [m1] (keys, values) rows of [d_head]
    entries, and a configuration holding both keys, [forward] returns [x]
    itself: the output projection was zeroed at construction.  This holds
    with the convolutional projections, and with the linear ones when
    [in_channels] equals [n_heads * d_head]; over exact element arithmetic,
    the kernels only being assumed to keep extents. *)
Theorem fresh_transformer_returns_input `{!ExactArith R} `{!ShapedKernels R}
    (init : string → nat → nat → R) (in_channels n_heads d_head depth : nat)
    (dropout : R) (context_dim : one_or_list (option nat))
    (disable_self_attn use_linear use_checkpoint : bool) (self : t R)
    (b h w m1 : nat) (x : tensor4 R) (context : one_or_list (option (tensor3 R)))
    (q_injected k_injected v_injected : option (tensor3 R))
    (injection_config : option (gmap string R)) :
  XFORMERS_IS_AVAILBLE = false →
  __init__ init in_channels n_heads d_head depth dropout context_dim
    disable_self_attn use_linear use_checkpoint = Ok self →
  (if use_linear then in_channels = n_heads * d_head else True) →
  in_channels ≠ 0 → n_heads ≠ 0 → d_head ≠ 0 → b ≠ 0 → h ≠ 0 → w ≠ 0 → m1 ≠ 0 →
  has_shape4 b in_channels h w x →
  (b * in_channels) `div` 32 * h * w ≠ 1 →
  Forall (context_fits n_heads d_head (context_dims context_dim) disable_self_attn b
            (match context with IsList l => l | NotList c => [c] end)
            k_injected v_injected) (seq 0 depth) →
  injected_or q_injected n_heads (h * w) d_head True →
  injected_or k_injected n_heads m1 d_head (m1 = h * w) →
  injected_or v_injected n_heads m1 d_head (m1 = h * w) →
  config_complete injection_config →
  ∃ self',
    forward self x context q_injected k_injected v_injected injection_config
    = Ok (self', x).
Proof.
  intros Hxf Hinit Hlin Hc Hh Hd Hb Hhh Hw Hm1 Hx Hone Hfit Hqi Hki Hvi Hcfg.
  destruct (init_blocks _ _ _ _ _ _ _ _ _ _ _ Hinit) as [Hdepth Hblocks].
  unfold __init__, Normalize, GroupNorm.__init__ in Hinit.
  apply bind_Ok in Hinit as (norm & Hnorm & Hinit).
  apply bind_Ok in Hnorm as (u & _ & [= <-]).
  apply bind_Ok in Hinit as (blocks & _ & Hself).
  set (inner := n_heads * d_head) in *.
  assert (inner ≠ 0) as Hinner by (unfold inner; lia).
  destruct (has_shape4_dims b in_channels h w x Hb Hc Hhh Hx) as (_ & Hd2 & Hd3).
  assert (∀ t, has_shape b (h * w) inner t →
            ∃ blocks' t',
              run_blocks 0 blocks (match context with IsList l => l | NotList c => [c] end)
                t q_injected k_injected v_injected injection_config = Ok (blocks', t')
              ∧ has_shape b (h * w) inner t') as Hrun.
  { intros t Ht.
    assert (transformer_blocks self = blocks) as Hbl
      by (injection Hself as <-; by destruct use_linear).
    rewrite Hbl in Hdepth, Hblocks.
    apply (run_blocks_shape init n_heads d_head dropout (context_dims context_dim)
             disable_self_attn use_checkpoint b (h * w) m1); try done; try lia.
    - by rewrite Hdepth.
    - intros d Hd'. rewrite Forall_forall in Hfit. apply Hfit, elem_of_seq. lia. }
  destruct (group_norm_forward_shape 32 in_channels b h w (replicate in_channels r1)
              (replicate in_channels r0) x Hb Hc Hhh Hone Hx) as (x1 & Hx1 & Hx1s).
  destruct use_linear; simpl in Hself; injection Hself as <-;
    unfold forward;
    cbn [proj norm transformer_blocks SpatialTransformer.in_channels];
    rewrite Hd2, Hd3, Hx1; cbn [mbind result_bind].
  - (* linear projections *)
    simpl in Hlin.
    set (pin := Linear.__init__ init "proj_in" in_channels inner true).
    set (pout := zero_module (Linear.__init__ init "proj_out" in_channels inner true)).
    pose proof (tokens_shape b in_channels h w x1 Hc Hhh Hx1s) as [Hlt Ht].
    destruct (linear_forward_regular pin (h * w) _ (linear_shaped_init _ _ _ _ _) Ht)
      as [Hx4 Hx4s].
    rewrite Hx4. cbn [mbind result_bind].
    destruct (Hrun (map (map (linear_row pin)) (map grid_to_tokens x1)))
      as (blocks' & t' & -> & [Hlt' Ht']); [split; [by rewrite length_map|done]|].
    cbn [mbind result_bind].
    assert (linear_shaped pout) as Hpout by apply linear_shaped_zero, linear_shaped_init.
    assert (regular3 (h * w) (Linear.in_features pout) t') as Ht'in
      by (simpl; by rewrite Hlin).
    destruct (linear_forward_regular pout (h * w) t' Hpout Ht'in) as [Hx5 Hx5s].
    change (Linear.forward _ t') with (Linear.forward pout t').
    rewrite Hx5. cbn [mbind result_bind].
    destruct (forM_shape (tokens_to_grid h w)
                (λ m : list (list R), length m = h * w
                                      ∧ Forall (λ row, row = replicate inner r0) m)
                (λ o, o = zeros3 in_channels h w)
                (map (map (linear_row pout)) t')) as (x6 & Hx6 & Hlx6 & Hx6s).
    { intros m [Hm Hrows]. eexists. split; [|done].
      rewrite Hlin. apply tokens_to_grid_zeros; [lia|done..]. }
    { apply Forall_fmap. eapply Forall_impl; [exact Ht'|]. intros m [Hm Hrows]. simpl.
      rewrite length_map. split; [done|]. apply Forall_fmap.
      eapply Forall_impl; [exact Hrows|]. intros row Hrow. simpl.
      apply linear_row_zero. by rewrite Hlin. }
    rewrite Hx6. cbn [mbind result_bind].
    rewrite (ew4_zeros_l b in_channels h w x6 x Hx); [by eexists| |done].
    rewrite Hlx6, !length_map. done.
  - (* convolutional projections *)
    set (pin := Conv2d.__init__ init "proj_in" in_channels inner).
    destruct (conv_forward_shape init "proj_in" in_channels inner b h w x1 Hc Hhh Hx1s)
      as (x2 & Hx2 & Hx2s).
    fold pin in Hx2. rewrite Hx2. cbn [mbind result_bind].
    destruct (Hrun (map grid_to_tokens x2)) as (blocks' & t' & -> & [Hlt' Ht']);
      [by apply tokens_shape|].
    cbn [mbind result_bind].
    destruct (forM_shape (tokens_to_grid h w)
                (λ m : list (list R), length m = h * w
                                      ∧ Forall (λ row : list R, length row = inner) m)
                (has_shape inner h w) t') as (x6 & Hx6 & Hlx6 & Hx6s); [|done|].
    { intros m [Hm Hrows]. apply tokens_to_grid_Ok; [lia|done..]. }
    rewrite Hx6. cbn [mbind result_bind].
    destruct (zero_module_conv init "proj_out" inner in_channels)
      as (Hin & Hout & Hwt & Hbs).
    set (pout := zero_module (Conv2d.__init__ init "proj_out" inner in_channels)) in *.
    destruct (forM_shape (Conv2d.forward_sample pout)
                (has_shape inner h w) (λ o, o = zeros3 in_channels h w) x6)
      as (x7 & Hx7 & Hlx7 & Hx7s); [|done|].
    { intros s Hs. destruct (sample_dims inner h w s Hinner Hhh Hs) as [Hd1 Hd2'].
      destruct Hs as [Hl Hs]. rewrite zero_conv_sample; rewrite ?Hin, ?Hout; try done.
      eexists. split; [done|]. by rewrite Hd1, Hd2'. }
    change (Conv2d.forward _ x6) with (forM (Conv2d.forward_sample pout) x6).
    rewrite Hx7. cbn [mbind result_bind].
    rewrite (ew4_zeros_l b in_channels h w x7 x Hx); [by eexists| |done].
    congruence.
Qed.
End transformer_shapes.

(** ** [uniq] *)

Section uniq_facts.
Context {A : Type} `{EqDecision A}.

Lemma dict_setitem_keys {V} (d : list (A * V)) (k : A) (v : V) :
  (dict_setitem d k v).*1 = keys_step d.*1 k.
Proof.
  unfold dict_setitem, keys_step. destruct (decide (k ∈ d.*1)) as [Hk|Hk].
  - rewrite <- list_fmap_compose. apply list_fmap_ext. intros i [k' v'] _. simpl.
    by destruct (decide (k' = k)).
  - by rewrite fmap_app.
Qed.

Lemma foldl_keys {V} (v : V) (d : list (A * V)) (arr : list A) :
  (foldl (λ d el, dict_setitem d el v) d arr).*1 = foldl keys_step d.*1 arr.
Proof.
  revert d. induction arr as [|x arr IH]; intros d; [done|]. simpl.
  by rewrite IH, dict_setitem_keys.
Qed.

Lemma uniq_keys (arr : list A) : uniq arr = foldl keys_step [] arr.
Proof. unfold uniq. by rewrite foldl_keys. Qed.

Lemma keys_from (ks arr : list A) :
  foldl keys_step ks arr
  = (ks ++ filter (λ y, y ∉ ks) (foldl keys_step [] arr))%list.
Proof.
  induction arr as [|x arr IH] using rev_ind; [simpl; by rewrite app_nil_r|].
  rewrite !foldl_app. simpl. rewrite IH. set (U := foldl keys_step [] arr).
  unfold keys_step.
  destruct (decide (x ∈ U)) as [HU|HU]; destruct (decide (x ∈ ks)) as [Hks|Hks].
  - rewrite decide_True by (apply elem_of_app; by left). done.
  - rewrite decide_True; [done|]. apply elem_of_app. right.
    by apply list_elem_of_filter.
  - rewrite decide_True by (apply elem_of_app; by left).
    rewrite filter_app, filter_cons_False, filter_nil, app_nil_r by (by intros ?). done.
  - rewrite decide_False.
    + rewrite filter_app, filter_cons_True, filter_nil by done. by rewrite app_assoc.
    + intros [?|[_ ?]%list_elem_of_filter]%elem_of_app; done.
Qed.

Lemma elem_of_uniq (arr : list A) (x : A) : x ∈ uniq arr ↔ x ∈ arr.
Proof.
  rewrite uniq_keys. induction arr as [|y arr IH] using rev_ind; [done|].
  rewrite foldl_app. simpl. set (U := foldl keys_step [] arr) in *. unfold keys_step.
  destruct (decide (y ∈ U)) as [Hy|Hy].
  - rewrite elem_of_app, list_elem_of_singleton. split; [intros ?%IH; by left|].
    intros [?| ->]; [by apply IH|done].
  - rewrite !elem_of_app. by rewrite IH.
Qed.

Lemma NoDup_uniq (arr : list A) : NoDup (uniq arr).
Proof.
  rewrite uniq_keys. induction arr as [|y arr IH] using rev_ind; [constructor|].
  rewrite foldl_app. simpl. set (U := foldl keys_step [] arr) in *. unfold keys_step.
  destruct (decide (y ∈ U)) as [Hy|Hy]; [done|].
  apply NoDup_app. split; [done|]. split; [|apply NoDup_singleton].
  intros z Hz ->%list_elem_of_singleton. done.
Qed.

(** X25. [uniq(arr)], the keys of a dictionary filled from [arr], holds
    every element of [arr] once, in the order of the first occurrences: it
    has no duplicates and the members of [arr]; [uniq] of [x] followed by
    [arr] is [x] followed by [uniq(arr)] without [x]; and a list without
    duplicates comes back as it is. *)
Theorem uniq_first_occurrences (arr : list A) :
  NoDup (uniq arr)
  ∧ (∀ x, x ∈ uniq arr ↔ x ∈ arr)
  ∧ (∀ x, uniq (x :: arr) = x :: filter (λ y, y ≠ x) (uniq arr))
  ∧ (NoDup arr → uniq arr = arr).
Proof.
  split; [apply NoDup_uniq|]. split; [apply elem_of_uniq|].
  assert (∀ (x : A) (l : list A),
            uniq (x :: l) = x :: filter (λ y, y ≠ x) (uniq l)) as Hcons.
  { intros x l. rewrite !uniq_keys. simpl. unfold keys_step at 2.
    rewrite decide_False by apply not_elem_of_nil. simpl. rewrite keys_from. simpl.
    f_equal. apply list_filter_iff. intros y. by rewrite list_elem_of_singleton. }
  split; [intros x; exact (Hcons x arr)|].
  induction 1 as [|x l Hx Hl IH]; [done|]. rewrite Hcons, IH. f_equal.
  clear -Hx. induction l as [|y l IH]; [done|]. apply not_elem_of_cons in Hx as [Hxy Hx].
  rewrite filter_cons_True by done. f_equal. by apply IH.
Qed.
End uniq_facts.

(** ** Spatial self-attention *)

Section spatial_self_attention.
Context {R : Type} `{Torch R}.
Import SpatialSelfAttention.

Lemma transpose_shape (n m : nat) (mt : list (list R)) :
  n ≠ 0 → length mt = n → Forall (λ row, length row = m) mt →
  length (transpose mt) = m ∧ Forall (λ row, length row = n) (transpose mt).
Proof.
  intros Hn Hl Hrows. unfold transpose.
  assert (dim1 mt = m) as ->.
  { unfold dim1. destruct mt as [|row mt]; [simpl in Hl; lia|]. simpl.
    by apply Forall_cons in Hrows as [? _]. }
  rewrite length_tabulate. split; [done|]. unfold tabulate.
  apply Forall_fmap, Forall_forall. intros j _. simpl. by rewrite length_fmap.
Qed.

Lemma flatten_planes_shape (b c h w : nat) (x : tensor4 R) :
  has_shape4 b c h w x →
  has_shape b c (h * w) (flatten_planes x).
Proof.
  intros [Hl Hx]. unfold flatten_planes. split; [by rewrite length_map|]. unfold regular3.
  apply Forall_fmap. eapply Forall_impl; [exact Hx|]. intros s [Hc Hs]. simpl.
  rewrite length_map. split; [done|]. apply Forall_fmap.
  eapply Forall_impl; [exact Hs|]. intros plane [Hh Hw]. simpl.
  by rewrite (length_mjoin_const w), Hh.
Qed.

Lemma unflatten_shape (b c h w : nat) (t : tensor3 R) :
  b ≠ 0 → c ≠ 0 → h ≠ 0 → has_shape b c (h * w) t →
  ∃ y, unflatten h t = Ok y ∧ has_shape4 b c h w y.
Proof.
  intros Hb Hc Hh [Hl Ht]. unfold unflatten.
  assert (dim2 t = h * w) as ->.
  { destruct t as [|m t]; [simpl in Hl; lia|].
    apply Forall_cons in Ht as [[Hm Hr] _]. unfold dim2, dim1. simpl.
    destruct m as [|row m]; [simpl in Hm; lia|]. simpl.
    by apply Forall_cons in Hr as [? _]. }
  rewrite (Nat.mul_comm h w), Nat.Div0.mod_mul, Nat.div_mul by done.
  rewrite bool_decide_eq_true_2 by done. simpl.
  eexists. split; [done|]. split; [by rewrite length_map|].
  apply Forall_fmap. eapply Forall_impl; [exact Ht|]. intros m [Hm Hr]. simpl.
  split; [by rewrite length_map|]. unfold regular3. apply Forall_fmap.
  eapply Forall_impl; [exact Hr|]. intros row Hrow. simpl.
  split; [apply chunks_length|]. apply chunks_Forall_length. exact Hrow.
Qed.

(** X26. [SpatialSelfAttention] keeps the extents of its input: built for
    a number of channels that [Normalize] accepts, on a batch of [b] samples
    of [in_channels] channels of [h] by [w] pixels with more than one value
    per group of the normalisation, [(b * in_channels) // 32 * h * w ≠ 1],
    it returns, and what it returns is again [b] samples of [in_channels]
    channels of [h] by [w] pixels (softmax and the group normalisation only
    being assumed to keep extents). *)
Theorem spatial_self_attention_shape `{!ShapedKernels R}
    (init : string → nat → nat → R)
    (in_channels b h w : nat) (self : t R) (x : tensor4 R) :
  __init__ init in_channels = Ok self →
  in_channels ≠ 0 → b ≠ 0 → h ≠ 0 → w ≠ 0 →
  has_shape4 b in_channels h w x →
  (b * in_channels) `div` 32 * h * w ≠ 1 →
  ∃ y, forward self x = Ok y ∧ has_shape4 b in_channels h w y.
Proof.
  intros Hinit Hc Hb Hh Hw Hx Hone.
  unfold __init__, Normalize, GroupNorm.__init__ in Hinit.
  apply bind_Ok in Hinit as (nm & Hnorm & [= <-]).
  apply bind_Ok in Hnorm as (u & _ & [= <-]).
  unfold forward. cbn [norm q k v proj_out].
  set (c := in_channels) in *.
  destruct (group_norm_forward_shape 32 c b h w (replicate c r1) (replicate c r0) x
              Hb Hc Hh Hone Hx) as (x1 & -> & Hx1).
  cbn [mbind result_bind].
  destruct (conv_forward_shape init "q" c c b h w x1 Hc Hh Hx1) as (qq & -> & Hq).
  cbn [mbind result_bind].
  destruct (conv_forward_shape init "k" c c b h w x1 Hc Hh Hx1) as (kk & -> & Hk).
  cbn [mbind result_bind].
  destruct (conv_forward_shape init "v" c c b h w x1 Hc Hh Hx1) as (vv & -> & Hv).
  cbn [mbind result_bind].
  destruct (has_shape4_dims b c h w qq Hb Hc Hh Hq) as (-> & -> & _).
  destruct (einsum_bij_bjd_shape b (h * w) c (h * w) (map grid_to_tokens qq)
              (flatten_planes kk) Hc (tokens_shape b c h w qq Hc Hh Hq)
              (flatten_planes_shape b c h w kk Hk)) as (w_ & -> & Hw_).
  cbn [mbind result_bind].
  rewrite int_pow_neg_half_Ok by done. cbn [mbind result_bind].
  set (a := map (map F_softmax) (muls3 w_ (pow_neg_half c))).
  assert (has_shape b (h * w) (h * w) a) as Ha.
  { unfold a. eapply has_shape_map_rows; [|apply has_shape_map3, Hw_].
    intros row Hrow. by rewrite softmax_length. }
  assert (has_shape b (h * w) (h * w) (map transpose a)) as HaT.
  { destruct Ha as [Hla Ha]. split; [by rewrite length_map|]. unfold regular3.
    apply Forall_fmap. eapply Forall_impl; [exact Ha|]. intros m [Hm Hr]. simpl.
    apply (transpose_shape (h * w) (h * w)); [lia|done..]. }
  destruct (einsum_bij_bjd_shape b c (h * w) (h * w) (flatten_planes vv)
              (map transpose a) ltac:(lia) (flatten_planes_shape b c h w vv Hv) HaT)
    as (h_ & -> & Hh_).
  cbn [mbind result_bind].
  destruct (unflatten_shape b c h w h_ Hb Hc Hh Hh_) as (h4 & -> & Hh4).
  cbn [mbind result_bind].
  destruct (conv_forward_shape init "proj_out" c c b h w h4 Hc Hh Hh4) as (ho & -> & Hho).
  cbn [mbind result_bind].
  by apply ew4_shape.
Qed.

(** X27. What [SpatialSelfAttention] rejects: the constructor returns
    exactly for a number of channels that is a multiple of the 32 groups of
    [Normalize] and raises [ValueError] otherwise; and [forward] on a batch
    with a sample of another number of channels does not get past the
    normalisation: it raises [ValueError] where there is a single value per
    group, [(b * c) // 32 * h * w = 1], and [RuntimeError] otherwise. *)
Theorem spatial_self_attention_rejects (init : string → nat → nat → R)
    (in_channels : nat) :
  (returns (__init__ init in_channels) ↔ in_channels `mod` 32 = 0)
  ∧ (in_channels `mod` 32 ≠ 0 → __init__ init in_channels = Raise ValueError)
  ∧ ∀ self x, __init__ init in_channels = Ok self →
              Exists (λ s, length s ≠ in_channels) x →
              forward self x
              = Raise (if bool_decide ((dim0 x * dim1 x) `div` 32 * dim2 x * dim3 x = 1)
                       then ValueError else RuntimeError).
Proof.
  unfold __init__, Normalize, GroupNorm.__init__.
  destruct (decide (in_channels `mod` 32 = 0)) as [Hm|Hm].
  - rewrite bool_decide_eq_true_2 by done. simpl. split; [split; [done|by eexists]|].
    split; [done|]. intros self x [= <-] Hex.
    unfold forward, GroupNorm.forward, GroupNorm.values_per_group.
    cbn [norm GroupNorm.num_groups GroupNorm.num_channels].
    destruct (bool_decide _); [done|]. cbn [negb require mbind result_bind].
    rewrite (forM_raises_only RuntimeError); [done| |].
    + apply Forall_forall. intros s _.
      destruct (decide (length s = in_channels)) as [Hs|Hs].
      * left. rewrite bool_decide_eq_true_2 by done. by eexists.
      * right. by rewrite bool_decide_eq_false_2.
    + eapply Exists_impl; [exact Hex|]. intros s Hs. simpl.
      by rewrite bool_decide_eq_false_2.
  - rewrite bool_decide_eq_false_2 by done. simpl.
    split; [split; [by intros ?%not_returns_Raise|done]|]. split; [done|].
    by intros self x.
Qed.
End spatial_self_attention.

(** ** Runs on integers *)

(** The stand-in kernels of the integer instance keep extents. *)
Lemma exact_Z_kernels (xformers : bool) : @ShapedKernels Z (exact_Z xformers).
Proof. by split. Qed.

Section further_runs.
Local Existing Instance exact_Z_arith.
Local Existing Instance exact_Z_kernels.
Local Existing Instance torch_Z.
Local Open Scope Z_scope.

Lemma merge_split_heads_witness :
  @split_heads Z 2 x_demo ≫= @merge_heads Z 2 = Ok x_demo.
Proof.
  apply (merge_split_heads 2 1 1 2 x_demo); [lia|reflexivity|repeat constructor].
Defined.

Lemma to_heads_is_split_heads_witness :
  let self := @MemoryEfficientCrossAttention.__init__ Z ramp "attn" 2 None 2 1 0 in
  MemoryEfficientCrossAttention.to_heads self 2 x_demo = @split_heads Z 2 x_demo.
Proof.
  intros self.
  apply (to_heads_is_split_heads self 1 x_demo); [simpl; lia|lia|repeat constructor].
Defined.

Lemma from_heads_is_merge_heads_witness :
  let self := @MemoryEfficientCrossAttention.__init__ Z ramp "attn" 2 None 2 1 0 in
  MemoryEfficientCrossAttention.from_heads self 1 q_demo = @merge_heads Z 2 q_demo.
Proof.
  intros self.
  apply (from_heads_is_merge_heads self 1 1 q_demo);
    [simpl; lia|lia|repeat constructor|reflexivity].
Defined.

Lemma tokens_to_grid_to_tokens_witness :
  let s : tensor3 Z := [[[1; 2]; [3; 4]]; [[5; 6]; [7; 8]]] in
  tokens_to_grid (H := torch_Z) 2 2 (grid_to_tokens (H := torch_Z) s) = Ok s
  ∧ ∀ y x, (y < 2)%nat → (x < 2)%nat →
           grid_to_tokens (H := torch_Z) s !! (y * 2 + x)%nat = Some (pixel s y x).
Proof.
  intros s.
  apply (tokens_to_grid_to_tokens (H := torch_Z) 2 2 s);
    [discriminate|lia|lia|repeat constructor].
Defined.

Lemma missing_config_key_raises_witness :
  CrossAttention.forward (H := torch_Z) attn_demo x_demo None None None None None
    (Some (<["T" := 2]> ∅)) = Raise KeyError.
Proof.
  apply (missing_config_key_raises (H := torch_Z)). right. reflexivity.
Defined.

Lemma empty_batch_injection_never_returns_witness :
  ¬ returns (CrossAttention.forward (H := torch_Z) attn_demo [] None None None
               (Some k_demo) None None).
Proof.
  apply (empty_batch_injection_never_returns (H := torch_Z)). reflexivity.
Defined.

Lemma inject_recorded_kv_witness :
  ∃ self' y,
    CrossAttention.forward (H := torch_Z) attn_demo [[[3; 4]]] None None None None None
      None = Ok (self', y)
    ∧ CrossAttention.forward (H := torch_Z) self' [[[3; 4]]] (Some [[[9; 9]]]) None None
        (CrossAttention.k self') (CrossAttention.v self') (Some (T_gamma 1 5))
      = Ok (self', y).
Proof.
  eexists _, _. split; [vm_compute; reflexivity|].
  eapply (inject_recorded_kv (H := torch_Z) attn_demo [[[3; 4]]] None (Some [[[9; 9]]])
            None (Some (T_gamma 1 5)));
    [vm_compute; reflexivity|reflexivity|intros a; simpl; lia|].
  split; [reflexivity|]. eexists. reflexivity.
Defined.

Lemma masked_scores_filled_witness :
  ∃ fr s,
    CrossAttention.forward_frame (H := torch_Z) attn_demo x_demo None
      (Some [[false]; [true]]) None None None None = Ok fr
    ∧ lookup3 (CrossAttention.f_sim_scaled fr) 0 0 0 = Some s
    ∧ lookup3 (CrossAttention.f_sim_masked fr) 0 0 0
      = Some (if false then s else max_neg_value)
    ∧ CrossAttention.f_attn fr = map (map F_softmax) (CrossAttention.f_sim_masked fr).
Proof.
  eexists _, _. split; [vm_compute; reflexivity|]. split; [vm_compute; reflexivity|].
  eapply (masked_scores_filled (H := torch_Z) attn_demo x_demo None [[false]; [true]]
            None None None None _ 0 0 0 _ [false] false);
    [vm_compute; reflexivity|simpl; lia|vm_compute; reflexivity|reflexivity|reflexivity].
Defined.



Lemma xformers_block_never_returns_witness :
  ∃ blk,
    BasicTransformerBlock.__init__ (H := exact_Z true) ramp "block" 1 1 1 0 (Some 2%nat)
      true true false = Ok blk
    ∧ ¬ returns (BasicTransformerBlock.forward (H := exact_Z true) blk [[[3]]]
                   (Some [[[1; 2]]]) None None None None)
    ∧ (rows_have 1 [[[3]]] →
       BasicTransformerBlock.forward (H := exact_Z true) blk [[[3]]] (Some [[[1; 2]]])
         None None None None = Raise TypeError).
Proof.
  eexists. split; [vm_compute; reflexivity|].
  eapply (xformers_block_never_returns (H := exact_Z true) ramp "block" 1 1 1 0
            (Some 2%nat) true true false); [reflexivity|vm_compute; reflexivity].
Defined.

Lemma attn1_attends_own_input_witness :
  ∃ blk blk' y a,
    BasicTransformerBlock.__init__ (H := torch_Z) ramp "block" 1 1 1 0 (Some 2%nat)
      true true false = Ok blk
    ∧ BasicTransformerBlock.attn1 blk = BasicTransformerBlock.Softmax a
    ∧ BasicTransformerBlock._forward (H := torch_Z) blk
        ([[[3]]], Some [[[1; 2]]], None, None, None, None) = Ok (blk', y)
    ∧ ∃ n1 a' fr,
        LayerNorm.forward (H := torch_Z) (BasicTransformerBlock.norm1 blk) [[[3]]] = Ok n1
        ∧ BasicTransformerBlock.attn1 blk' = BasicTransformerBlock.Softmax a'
        ∧ CrossAttention.forward_frame (H := torch_Z) a n1 None None None None None None
          = Ok fr
        ∧ CrossAttention.k a' = Some (CrossAttention.f_k fr)
        ∧ CrossAttention.v a' = Some (CrossAttention.f_v fr)
        ∧ (@None (tensor3 Z) = None →
           CrossAttention.project (H := torch_Z) (CrossAttention.to_k a)
             (CrossAttention.heads a) n1 = Ok (CrossAttention.f_k fr))
        ∧ (@None (tensor3 Z) = None →
           CrossAttention.project (H := torch_Z) (CrossAttention.to_v a)
             (CrossAttention.heads a) n1 = Ok (CrossAttention.f_v fr)).
Proof.
  eexists _, _, _, _. split; [vm_compute; reflexivity|].
  lazymatch goal with
  | |- BasicTransformerBlock.attn1 ?b = _ ∧ _ =>
      split; [reflexivity|]; split; [vm_compute; reflexivity|];
      eapply (attn1_attends_own_input (H := torch_Z) b [[[3]]] (Some [[[1; 2]]]) None
                None None None); [vm_compute; reflexivity|reflexivity]
  end.
Defined.

Lemma attn2_attends_context_witness :
  ∃ blk blk' y a,
    BasicTransformerBlock.__init__ (H := torch_Z) ramp "block" 1 1 1 0 (Some 2%nat)
      true true false = Ok blk
    ∧ BasicTransformerBlock.attn2 blk = BasicTransformerBlock.Softmax a
    ∧ BasicTransformerBlock._forward (H := torch_Z) blk
        ([[[3]]], Some [[[1; 2]]], None, None, None, None) = Ok (blk', y)
    ∧ ∃ n2 a' fr,
        BasicTransformerBlock.attn2 blk' = BasicTransformerBlock.Softmax a'
        ∧ CrossAttention.forward_frame (H := torch_Z) a n2 (Some [[[1; 2]]]) None None
            None None None = Ok fr
        ∧ CrossAttention.k a' = Some (CrossAttention.f_k fr)
        ∧ CrossAttention.v a' = Some (CrossAttention.f_v fr)
        ∧ CrossAttention.project (H := torch_Z) (CrossAttention.to_k a)
            (CrossAttention.heads a) (default_ (Some [[[1; 2]]]) n2)
          = Ok (CrossAttention.f_k fr)
        ∧ CrossAttention.project (H := torch_Z) (CrossAttention.to_v a)
            (CrossAttention.heads a) (default_ (Some [[[1; 2]]]) n2)
          = Ok (CrossAttention.f_v fr)
        ∧ CrossAttention.project (H := torch_Z) (CrossAttention.to_q a)
            (CrossAttention.heads a) n2 = Ok (CrossAttention.f_q fr).
Proof.
  eexists _, _, _, _. split; [vm_compute; reflexivity|].
  lazymatch goal with
  | |- BasicTransformerBlock.attn2 ?b = _ ∧ _ =>
      split; [reflexivity|]; split; [vm_compute; reflexivity|];
      eapply (attn2_attends_context (H := torch_Z) b [[[3]]] (Some [[[1; 2]]]) None None
                None None); [vm_compute; reflexivity|reflexivity]
  end.
Defined.

Lemma block_keeps_width_witness :
  ∃ blk blk' y,
    BasicTransformerBlock.__init__ (H := torch_Z) ramp "block" 1 1 1 0 (Some 2%nat)
      true true false = Ok blk
    ∧ BasicTransformerBlock.forward (H := torch_Z) blk [[[3]]] (Some [[[1; 2]]])
        None None None None = Ok (blk', y)
    ∧ rows_have 1 [[[3]]] ∧ rows_have 1 y.
Proof.
  eexists _, _, _. split; [vm_compute; reflexivity|]. split; [vm_compute; reflexivity|].
  eapply (block_keeps_width (H := torch_Z) ramp "block" 1 1 1 0 (Some 2%nat) true true
            false _ _ [[[3]]] _ (Some [[[1; 2]]]) None None None None);
    vm_compute; reflexivity.
Defined.

Lemma block_returns_on_shaped_input_witness :
  ∃ blk,
    BasicTransformerBlock.__init__ (H := torch_Z) ramp "block" 1 1 1 0 (Some 2%nat)
      true true false = Ok blk
    ∧ ∃ blk' y,
        BasicTransformerBlock.forward (H := torch_Z) blk [[[3]]] (Some [[[1; 2]]])
          (Some [[[5]]]) None None (Some (T_gamma 2 3)) = Ok (blk', y)
        ∧ has_shape 1 1 1 y.
Proof.
  eexists. split; [vm_compute; reflexivity|].
  eapply (block_returns_on_shaped_input (H := torch_Z) ramp "block" 1 1 1 0 (Some 2%nat)
            true true false _ 1 1 1 1 [[[3]]] (Some [[[1; 2]]]) (Some [[[5]]]) None None
            (Some (T_gamma 2 3))); try lia.
  - reflexivity.
  - vm_compute. reflexivity.
  - split; [reflexivity|repeat constructor].
  - simpl. split; [reflexivity|repeat constructor].
  - simpl. split; [reflexivity|repeat constructor].
  - simpl. split; [reflexivity|repeat constructor].
  - split; eexists; reflexivity.
  - simpl. split; [reflexivity|repeat constructor].
Defined.

Lemma spatial_transformer_wrong_channels_raise_witness :
  ∃ st,
    SpatialTransformer.__init__ (H := torch_Z) ramp 32 1 1 1 0 (NotList (Some 1%nat))
      false false true = Ok st
    ∧ SpatialTransformer.forward (H := torch_Z) st [replicate 33 [[1]]]
        (NotList (Some [[[1]]])) None None None None = Raise ValueError
    ∧ SpatialTransformer.forward (H := torch_Z) st
        [replicate 33 [[1]]; replicate 33 [[1]]]
        (NotList (Some c_demo)) None None None None = Raise RuntimeError.
Proof.
  eexists. split; [vm_compute; reflexivity|]. split.
  - eapply (spatial_transformer_wrong_channels_raise (H := torch_Z) ramp 32 1 1 1 0
              (NotList (Some 1%nat)) false false true _ [replicate 33 [[1]]]);
      [vm_compute; reflexivity|].
    constructor. simpl. lia.
  - eapply (spatial_transformer_wrong_channels_raise (H := torch_Z) ramp 32 1 1 1 0
              (NotList (Some 1%nat)) false false true _
              [replicate 33 [[1]]; replicate 33 [[1]]]);
      [vm_compute; reflexivity|].
    constructor. simpl. lia.
Defined.

Lemma xformers_transformer_never_returns_witness :
  ∃ st,
    SpatialTransformer.__init__ (H := exact_Z true) ramp 32 1 1 1 0
      (NotList (Some 1%nat)) false false true = Ok st
    ∧ ¬ returns (SpatialTransformer.forward (H := exact_Z true) st x32
                   (NotList (Some c_demo)) None None None None).
Proof.
  eexists. split; [vm_compute; reflexivity|].
  eapply (xformers_transformer_never_returns (H := exact_Z true) ramp 32 1 1 1 0
            (NotList (Some 1%nat)) false false true);
    [reflexivity|lia|vm_compute; reflexivity].
Defined.

Lemma use_linear_width_mismatch_no_output_witness :
  ∃ st,
    SpatialTransformer.__init__ (H := torch_Z) ramp 32 1 1 1 0 (NotList (Some 1%nat))
      false true true = Ok st
    ∧ match SpatialTransformer.forward (H := torch_Z) st x32 (NotList (Some c_demo))
              None None None None with
      | Ok (_, y) => y = []
      | Raise _ => True
      end.
Proof.
  eexists. split; [vm_compute; reflexivity|].
  eapply (use_linear_width_mismatch_no_output (H := torch_Z) ramp 32 1 1 1 0
            (NotList (Some 1%nat)) false true);
    [vm_compute; reflexivity|lia|vm_compute; lia].
Defined.

Lemma fresh_transformer_returns_input_witness :
  ∃ st,
    SpatialTransformer.__init__ (H := torch_Z) ramp 32 1 1 1 0 (NotList (Some 1%nat))
      false false true = Ok st
    ∧ ∃ st',
        SpatialTransformer.forward (H := torch_Z) st x32 (NotList (Some c_demo))
          (Some [[[5]]]) None None (Some (T_gamma 2 3)) = Ok (st', x32).
Proof.
  eexists. split; [vm_compute; reflexivity|].
  eapply (fresh_transformer_returns_input (H := torch_Z) ramp 32 1 1 1 0
            (NotList (Some 1%nat)) false false true _ 2 1 1 1 x32
            (NotList (Some c_demo)) (Some [[[5]]]) None None (Some (T_gamma 2 3)));
    try lia.
  - reflexivity.
  - vm_compute. reflexivity.
  - split; [reflexivity|]. repeat constructor.
  - simpl. lia.
  - repeat constructor. eexists _, _. split; [reflexivity|]. split; [reflexivity|].
    split; [|intros [=]]. exists 1%nat. split; [lia|].
    split; [reflexivity|repeat constructor].
  - simpl. split; [reflexivity|repeat constructor].
  - reflexivity.
  - reflexivity.
  - split; eexists; reflexivity.
Defined.

Lemma zero_module_outputs_zero_witness :
  (∀ x y, Linear.forward (zero_module (Linear.__init__ ramp "proj_out" 2 3 true)) x
          = Ok y →
          y = map (map (λ _, replicate 3 0)) x)
  ∧ (∀ s, length s = 2%nat →
          Conv2d.forward_sample (zero_module (Conv2d.__init__ ramp "proj_out" 2 3)) s
          = Ok (zeros3 3 (dim1 s) (dim2 s))).
Proof.
  exact (zero_module_outputs_zero (H := torch_Z) ramp "proj_out" 2 3 true).
Defined.

Lemma geglu_gates_witness :
  let self := GEGLU.__init__ ramp "net.0" 2 1 in
  ∃ p, Linear.forward (H := torch_Z) (GEGLU.proj self) x_demo = Ok p
       ∧ regular3 1 (1 * 2) p
       ∧ GEGLU.forward (H := torch_Z) self x_demo
         = Ok (map (map (λ row : list Z,
                           zip_with Z.mul (take 1 row) (F_gelu <$> drop 1 row))) p)
       ∧ ∀ y, GEGLU.forward (H := torch_Z) self x_demo = Ok y → regular3 1 1 y.
Proof.
  apply (geglu_gates (H := torch_Z) ramp "net.0" 2 1 1 x_demo). repeat constructor.
Defined.


Lemma spatial_self_attention_shape_witness :
  ∃ sa,
    SpatialSelfAttention.__init__ (H := torch_Z) ramp 32 = Ok sa
    ∧ ∃ y, SpatialSelfAttention.forward (H := torch_Z) sa x32 = Ok y
           ∧ has_shape4 2 32 1 1 y.
Proof.
  eexists. split; [vm_compute; reflexivity|].
  eapply (spatial_self_attention_shape (H := torch_Z) ramp 32 2 1 1); try lia.
  - vm_compute. reflexivity.
  - split; [reflexivity|]. repeat constructor.
  - simpl. lia.
Defined.
End further_runs.
